(** * A shallow embedding of the currency exchange server (server.c)

    The server keeps its ledger in one text file.  Every command loads the
    whole file into a [DB] snapshot, validates, mutates the snapshot and
    writes the whole file back.  The embedding follows that shape:

    - C strings are [list ascii] (type [text]); the pieces of the C library
      the server calls (strcmp, strncpy, strtok, fgets, the sscanf
      directives, the printf conversions) are small executable functions,
      with the behaviour of glibc in the C locale where the C standard
      leaves a choice;
    - [double] is IEEE 754 binary64 with the reference operations of
      [SpecFloat] (precision 53, maximal exponent 1024), every operation
      rounded to nearest even on its own, as gcc compiles for x86-64;
    - the store is the text of [exchange_db.txt]; [db_load_locked] parses it
      and [db_save_locked] prints it;
    - a command returns an [outcome]: a reply alone (the store is left as it
      was) or a reply with the snapshot handed to [db_save_locked];
    - [rand()] is an oracle, a variable of the section;
    - the fcntl lock makes a command atomic with respect to the other
      handler processes; it is not modelled, a command is one function
      call, and failing system calls (which end the process) are left out;
    - the socket is the sequence of bytes a peer sends: [recv_line] (the
      same function in server.c and client.c) and [read_until_end] of
      client.c consume it. *)

From Stdlib Require Import ZArith NArith QArith Qabs List Ascii String Lia Bool SpecFloat.
From stdpp Require Import base list.
Import ListNotations.

(** ** C strings *)

Definition text := list ascii.

Definition lit (s : string) : text := list_ascii_of_string s.

(** [strcmp(a, b) == 0]. *)
Fixpoint streq (a b : text) : bool :=
  match a, b with
  | [], [] => true
  | x :: a', y :: b' => Ascii.eqb x y && streq a' b'
  | _, _ => false
  end.

(** A char buffer read as a C string stops at the first NUL. *)
Fixpoint cstr (s : text) : text :=
  match s with
  | [] => []
  | c :: s' => if Ascii.eqb c zero then [] else c :: cstr s'
  end.

Definition code (c : ascii) : nat := nat_of_ascii c.

(** [isspace] in the C locale: space, \t, \n, \v, \f, \r. *)
Definition isspace (c : ascii) : bool :=
  Nat.eqb (code c) 32 || (Nat.leb 9 (code c) && Nat.leb (code c) 13).

Definition isdigit (c : ascii) : bool :=
  Nat.leb 48 (code c) && Nat.leb (code c) 57.

Definition isxdigit (c : ascii) : bool :=
  isdigit c
  || (Nat.leb 65 (code c) && Nat.leb (code c) 70)
  || (Nat.leb 97 (code c) && Nat.leb (code c) 102).

Definition tolower (c : ascii) : ascii :=
  if Nat.leb 65 (code c) && Nat.leb (code c) 90
  then ascii_of_nat (code c + 32) else c.

Definition newline : ascii := ascii_of_nat 10.
Definition carriage : ascii := ascii_of_nat 13.

(** [strncpy(dst, src, n)] into a zeroed buffer, read back as a C string.
    Every source the server copies this way is shorter than [n] (it comes
    from a [%31s] conversion), so the copy is the source; [strncpy_term] is
    the idiom [strncpy(dst, src, n); dst[n-1] = 0], which truncates. *)
Definition strncpy (n : nat) (src : text) : text := firstn n src.
Definition strncpy_term (n : nat) (src : text) : text := firstn (n - 1) src.

(** [snprintf(out, n, ...)]: at most [n - 1] characters are kept. *)
Definition snprintf (n : nat) (s : text) : text := firstn (n - 1) s.

(** [trim_newline]: strip trailing \n and \r. *)
Fixpoint trim_newline (s : text) : text :=
  match s with
  | [] => []
  | c :: s' =>
      match trim_newline s' with
      | [] => if Ascii.eqb c newline || Ascii.eqb c carriage then [] else [c]
      | t => c :: t
      end
  end.

(** [strtok(s, ",")] called until it returns NULL: the non-empty runs
    between commas. *)
Fixpoint strtok_loop (delim : ascii) (cur : text) (s : text) : list text :=
  match s with
  | [] => match cur with [] => [] | _ => [rev cur] end
  | c :: s' =>
      if Ascii.eqb c delim
      then match cur with
           | [] => strtok_loop delim [] s'
           | _ => rev cur :: strtok_loop delim [] s'
           end
      else strtok_loop delim (c :: cur) s'
  end.

Definition comma : ascii := ascii_of_nat 44.
Definition strtok_all (s : text) : list text := strtok_loop comma [] s.

(** [fgets(line, n + 1, fp)]: up to [n] characters, stopping after a
    newline; the line and what is left of the stream. *)
Fixpoint fgets (n : nat) (s : text) : text * text :=
  match n, s with
  | S n', c :: s' =>
      if Ascii.eqb c newline then ([c], s')
      else let (l, r) := fgets n' s' in (c :: l, r)
  | _, _ => ([], s)
  end.

(** The lines [while (fgets(line, sizeof line, fp))] sees; each call on a
    non-empty stream consumes at least one character, so [length s] rounds
    are enough. *)
Fixpoint read_lines (fuel : nat) (n : nat) (s : text) : list text :=
  match fuel, s with
  | S fuel', _ :: _ => let (l, r) := fgets n s in l :: read_lines fuel' n r
  | _, _ => []
  end.

(** ** sscanf directives *)

Fixpoint skip_ws (s : text) : text :=
  match s with
  | c :: s' => if isspace c then skip_ws s' else s
  | [] => []
  end.

(** Up to [n] characters that are not white space. *)
Fixpoint take_word (n : nat) (s : text) : text * text :=
  match n, s with
  | S n', c :: s' =>
      if isspace c then ([], s)
      else let (w, r) := take_word n' s' in (c :: w, r)
  | _, _ => ([], s)
  end.

(** The directive [%<n>s]. *)
Definition scan_s (n : nat) (s : text) : option (text * text) :=
  match take_word n (skip_ws s) with
  | ([], _) => None
  | (w, r) => Some (w, r)
  end.

(** Ordinary characters of a format match themselves. *)
Fixpoint scan_lit (l s : text) : option text :=
  match l with
  | [] => Some s
  | c :: l' =>
      match s with
      | d :: s' => if Ascii.eqb c d then scan_lit l' s' else None
      | [] => None
      end
  end.

Fixpoint span_digits (s : text) : text * text :=
  match s with
  | c :: s' =>
      if isdigit c then let (d, r) := span_digits s' in (c :: d, r)
      else ([], s)
  | [] => ([], [])
  end.

Definition digit_val (c : ascii) : Z := Z.of_nat (code c) - 48.

Definition digits_val (ds : text) : Z :=
  fold_left (fun v c => 10 * v + digit_val c)%Z ds 0%Z.

(** The directive [%d], the way glibc converts: strtol (which saturates at
    the range of a 64-bit long), then the store into an int keeps the low
    32 bits. *)
Definition to_int (v : Z) : Z :=
  let l := Z.max (- 2 ^ 63) (Z.min (2 ^ 63 - 1) v) in
  ((l + 2 ^ 31) mod 2 ^ 32 - 2 ^ 31)%Z.

Definition minus : ascii := ascii_of_nat 45.
Definition plus : ascii := ascii_of_nat 43.

Definition scan_sign (s : text) : bool * text :=
  match s with
  | c :: r =>
      if Ascii.eqb c minus then (true, r)
      else if Ascii.eqb c plus then (false, r)
      else (false, s)
  | [] => (false, s)
  end.

Definition scan_d (s : text) : option (Z * text) :=
  let (neg, s2) := scan_sign (skip_ws s) in
  let (ds, r) := span_digits s2 in
  match ds with
  | [] => None
  | _ => Some (to_int (if neg then - digits_val ds else digits_val ds)%Z, r)
  end.

(** ** printf conversions of integers *)

Definition digit_char (d : Z) : ascii := ascii_of_nat (48 + Z.to_nat d).

(** Exactly [p] decimal digits of [n], most significant first. *)
Fixpoint fixed_digits (p : nat) (n : Z) : text :=
  match p with
  | O => []
  | S p' => fixed_digits p' (n / 10) ++ [digit_char (n mod 10)]
  end.

Fixpoint strip_zeros (s : text) : text :=
  match s with
  | c :: (_ :: _) as s' => if Ascii.eqb c (digit_char 0) then strip_zeros s' else s
  | _ => s
  end.

(** The decimal digits of [n >= 0], without leading zeros. *)
Definition dec_digits (n : Z) : text :=
  strip_zeros (fixed_digits (S (Z.to_nat (Z.log2 n))) n).

(** The conversion [%d]. *)
Definition fmt_d (n : Z) : text :=
  if (n <? 0)%Z then minus :: dec_digits (- n) else dec_digits n.

(** ** IEEE 754 binary64 *)

Definition double := spec_float.

Definition prec : Z := 53.
Definition emax : Z := 1024.

Definition dadd : double -> double -> double := SFadd prec emax.
Definition dsub : double -> double -> double := SFsub prec emax.
Definition dmul : double -> double -> double := SFmul prec emax.
Definition ddiv : double -> double -> double := SFdiv prec emax.
Definition dopp : double -> double := SFopp.
Definition dlt : double -> double -> bool := SFltb.
Definition dle : double -> double -> bool := SFleb.

(** The double nearest to [m * 10 ^ k] (ties to even), signed by [neg]:
    what the compiler does with a decimal constant and strtod with a
    decimal string. *)
Definition dec_to_double (neg : bool) (m k : Z) : double :=
  match m with
  | Zpos p =>
      if (0 <=? k)%Z
      then binary_round prec emax neg (Z.to_pos (Zpos p * 10 ^ k)) 0
      else SFdiv prec emax (S754_finite neg p 0)
                 (S754_finite false (Z.to_pos (10 ^ (- k))) 0)
  | _ => S754_zero neg
  end.

(** The double nearest to [m * 2 ^ k]. *)
Definition bin_to_double (neg : bool) (m k : Z) : double :=
  match m with
  | Zpos p => binary_round prec emax neg p k
  | _ => S754_zero neg
  end.

Definition d_zero : double := dec_to_double false 0 (-1).   (* 0.0 *)
Definition d_one : double := dec_to_double false 10 (-1).   (* 1.0 *)

(** *** The conversion [%.<p>f] *)

(** [num / den] rounded to the nearest integer, ties to even ([den > 0]). *)
Definition round_half_even (num den : Z) : Z :=
  let q := (num / den)%Z in
  match (2 * (num mod den) ?= den)%Z with
  | Lt => q
  | Gt => (q + 1)%Z
  | Eq => if Z.even q then q else (q + 1)%Z
  end.

(** [m * 2 ^ e * 10 ^ p] rounded to an integer. *)
Definition scaled (p : nat) (m : positive) (e : Z) : Z :=
  if (0 <=? e)%Z then (Zpos m * 2 ^ e * 10 ^ Z.of_nat p)%Z
  else round_half_even (Zpos m * 10 ^ Z.of_nat p) (2 ^ (- e)).

Definition dot : ascii := ascii_of_nat 46.

Definition fmt_fixed (p : nat) (n : Z) : text :=
  dec_digits (n / 10 ^ Z.of_nat p)
  ++ match p with O => [] | _ => dot :: fixed_digits p n end.

Definition fmt_sign (s : bool) : text := if s then [minus] else [].

(** glibc prints the exact binary value rounded to [p] decimals, ties to
    even.  [spec_float] has one NaN, printed "nan" (glibc prints "-nan" for
    a NaN whose sign bit is set; both read back as NaN). *)
Definition fmt_f (p : nat) (x : double) : text :=
  match x with
  | S754_nan => lit "nan"
  | S754_infinity s => fmt_sign s ++ lit "inf"
  | S754_zero s => fmt_sign s ++ fmt_fixed p 0
  | S754_finite s m e => fmt_sign s ++ fmt_fixed p (scaled p m e)
  end.

(** *** The directive [%lf]

    glibc's vfscanf collects the characters of a floating-point item in a
    buffer and hands the buffer to strtod.  [lf_loop] is its collecting
    loop: digits, hexadecimal digits of a "0x" item, one decimal point, one
    exponent character after a digit, a sign right after the exponent
    character. *)
Definition ch (s : string) : ascii :=
  match s with String c _ => c | EmptyString => zero end.

Definition is_ch (s : string) (c : ascii) : bool := Ascii.eqb (tolower c) (ch s).

Fixpoint lf_loop (hexa gd ge gdot : bool) (buf : text) (s : text) : text * text :=
  let exp_char := if hexa then ch "p" else ch "e" in
  match s with
  | [] => (rev buf, [])
  | c :: s' =>
      if isdigit c then lf_loop hexa true ge gdot (c :: buf) s'
      else if negb ge && hexa && isxdigit c then lf_loop hexa true ge gdot (c :: buf) s'
      else if ge && match buf with b :: _ => Ascii.eqb b exp_char | [] => false end
                 && (Ascii.eqb c minus || Ascii.eqb c plus)
           then lf_loop hexa gd ge gdot (c :: buf) s'
      else if gd && negb ge && Ascii.eqb (tolower c) exp_char
           then lf_loop hexa gd true true (exp_char :: buf) s'
      else if Ascii.eqb c dot && negb gdot then lf_loop hexa gd ge true (c :: buf) s'
      else (rev buf, s)
  end.

(** The characters after the sign: "nan", "inf" or "infinity" (any case), a
    "0x" item, or a decimal item; [None] is a matching failure. *)
Definition lf_item (s : text) : option (text * text) :=
  match s with
  | [] => None
  | c :: s1 =>
      if is_ch "n" c then
        match s1 with
        | a :: n :: r => if is_ch "a" a && is_ch "n" n then Some ([c; a; n], r) else None
        | _ => None
        end
      else if is_ch "i" c then
        match s1 with
        | n :: f :: r =>
            if is_ch "n" n && is_ch "f" f then
              match r with
              | i :: r1 =>
                  if is_ch "i" i then
                    match r1 with
                    | n2 :: i2 :: t :: y :: r2 =>
                        if is_ch "n" n2 && is_ch "i" i2 && is_ch "t" t && is_ch "y" y
                        then Some ([c; n; f; i; n2; i2; t; y], r2) else None
                    | _ => None
                    end
                  else Some ([c; n; f], r)
              | [] => Some ([c; n; f], r)
              end
            else None
        | _ => None
        end
      else
        let '(buf, rest, hexa) :=
          if Ascii.eqb c (ch "0") then
            match s1 with
            | x :: s2 =>
                if is_ch "x" x
                then let (b, r) := lf_loop true false false false [x; c] s2 in (b, r, true)
                else let (b, r) := lf_loop false true false false [c] s1 in (b, r, false)
            | [] => ([c], [], false)
            end
          else let (b, r) := lf_loop false false false false [] s in (b, r, false) in
        if Nat.eqb (length buf) 0 || (hexa && Nat.eqb (length buf) 2) then None
        else Some (buf, rest)
  end.

Fixpoint span_xdigits (s : text) : text * text :=
  match s with
  | c :: s' =>
      if isxdigit c then let (d, r) := span_xdigits s' in (c :: d, r)
      else ([], s)
  | [] => ([], [])
  end.

Definition xdigit_val (c : ascii) : Z :=
  if isdigit c then digit_val c else (Z.of_nat (code (tolower c)) - 87)%Z.

Definition xdigits_val (ds : text) : Z :=
  fold_left (fun v c => 16 * v + xdigit_val c)%Z ds 0%Z.

(** An exponent part [<e>[sign]digits] at the head of [s]; 0 when there is
    none or it has no digit. *)
Definition strtod_exp (e : string) (s : text) : Z :=
  match s with
  | c :: s1 =>
      if is_ch e c then
        let (neg, s2) := scan_sign s1 in
        let (ds, _) := span_digits s2 in
        match ds with
        | [] => 0%Z
        | _ => if neg then (- digits_val ds)%Z else digits_val ds
        end
      else 0%Z
  | [] => 0%Z
  end.

(** Digits, an optional point, digits: the two runs and the rest. *)
Definition strtod_mant (span : text -> text * text) (s : text) : text * text * text :=
  let (d1, r1) := span s in
  match r1 with
  | c :: r2 =>
      if Ascii.eqb c dot then let (d2, r3) := span r2 in (d1, d2, r3)
      else (d1, [], r1)
  | [] => (d1, [], [])
  end.

(** strtod on the collected buffer (which carries no sign): the value of its
    longest prefix that is a number; [None] when there is none. *)
Definition strtod_buf (buf : text) : option double :=
  match buf with
  | [] => None
  | c :: b1 =>
      if is_ch "n" c then Some S754_nan
      else if is_ch "i" c then Some (S754_infinity false)
      else
        let hex :=
          match b1 with
          | x :: b2 =>
              if Ascii.eqb c (ch "0") && is_ch "x" x then
                let '(d1, d2, r) := strtod_mant span_xdigits b2 in
                match d1 ++ d2 with
                | [] => None
                | ds => Some (bin_to_double false (xdigits_val ds)
                                (strtod_exp "p" r - 4 * Z.of_nat (length d2)))
                end
              else None
          | [] => None
          end in
        match hex with
        | Some v => Some v
        | None =>
            let '(d1, d2, r) := strtod_mant span_digits buf in
            match d1 ++ d2 with
            | [] => None
            | ds => Some (dec_to_double false (digits_val ds)
                            (strtod_exp "e" r - Z.of_nat (length d2)))
            end
        end
  end.

Definition scan_lf (s : text) : option (double * text) :=
  let (neg, s1) := scan_sign (skip_ws s) in
  match lf_item s1 with
  | Some (buf, rest) =>
      match strtod_buf buf with
      | Some v => Some (if neg then dopp v else v, rest)
      | None => None
      end
  | None => None
  end.

(** ** Data model (the structs of server.c) *)

Definition MAX_USERS : nat := 200.
Definition MAX_ACCOUNTS : nat := 500.
Definition MAX_OWNERS : nat := 5.
Definition USERNAME_LEN : nat := 32.
Definition PASS_LEN : nat := 32.
Definition ACCID_LEN : nat := 32.

Inductive Currency := CUR_USD | CUR_EUR | CUR_GBP.

Definition cur_eqb (a b : Currency) : bool :=
  match a, b with
  | CUR_USD, CUR_USD | CUR_EUR, CUR_EUR | CUR_GBP, CUR_GBP => true
  | _, _ => false
  end.

Definition CUR_NAMES (c : Currency) : text :=
  match c with
  | CUR_USD => lit "USD"
  | CUR_EUR => lit "EUR"
  | CUR_GBP => lit "GBP"
  end.

(** Rates: 1 unit of FROM -> ? units of TO; base values relative to EUR. *)
Definition eur_to_usd : double := dec_to_double false 110 (-2).   (* 1.10 *)
Definition eur_to_gbp : double := dec_to_double false 85 (-2).    (* 0.85 *)

Definition rate (from to : Currency) : double :=
  if cur_eqb from to then d_one
  else
    let val_in_eur :=
      match from with
      | CUR_EUR => d_one
      | CUR_USD => ddiv d_one eur_to_usd
      | CUR_GBP => ddiv d_one eur_to_gbp
      end in
    match to with
    | CUR_EUR => val_in_eur
    | CUR_USD => dmul val_in_eur eur_to_usd
    | CUR_GBP => dmul val_in_eur eur_to_gbp
    end.

Record User := { username : text; password : text }.

(** [double bal[CUR_COUNT]]. *)
Record Balances := { b_usd : double; b_eur : double; b_gbp : double }.

Definition bal_get (b : Balances) (c : Currency) : double :=
  match c with
  | CUR_USD => b_usd b
  | CUR_EUR => b_eur b
  | CUR_GBP => b_gbp b
  end.

Definition bal_set (b : Balances) (c : Currency) (v : double) : Balances :=
  match c with
  | CUR_USD => {| b_usd := v; b_eur := b_eur b; b_gbp := b_gbp b |}
  | CUR_EUR => {| b_usd := b_usd b; b_eur := v; b_gbp := b_gbp b |}
  | CUR_GBP => {| b_usd := b_usd b; b_eur := b_eur b; b_gbp := v |}
  end.

(** [ownerCount] is [length owners]: the code keeps the two in step. *)
Record Account := {
  id : text;
  isJoint : bool;
  owners : list text;
  bal : Balances
}.

Definition ownerCount (a : Account) : nat := length (owners a).

(** [userCount] and [accCount] are the lengths of the two lists. *)
Record DB := { users : list User; accounts : list Account }.

Definition db_init : DB := {| users := []; accounts := [] |}.

(** ** Helpers *)

Definition parse_currency (s : text) : option Currency :=
  if streq s (CUR_NAMES CUR_USD) then Some CUR_USD
  else if streq s (CUR_NAMES CUR_EUR) then Some CUR_EUR
  else if streq s (CUR_NAMES CUR_GBP) then Some CUR_GBP
  else None.

(** The first index whose element passes [p]; [None] is the C code's -1. *)
Fixpoint find_index {A : Type} (p : A -> bool) (l : list A) : option nat :=
  match l with
  | [] => None
  | x :: l' => if p x then Some O else option_map S (find_index p l')
  end.

Definition user_index (db : DB) (u : text) : option nat :=
  find_index (fun x => streq (username x) u) (users db).

Definition account_index (db : DB) (accid : text) : option nat :=
  find_index (fun a => streq (id a) accid) (accounts db).

Definition is_owner (a : Account) (u : text) : bool :=
  existsb (fun o => streq o u) (owners a).

Definition GEN_TRIES : nat := Z.to_nat 10000.

Section Server.

(** [rand()] is an oracle: [rnd k] is what its [k]-th call returns, and the
    position of the next call is threaded through. *)
Variable rnd : nat -> N.

Fixpoint gen_loop (db : DB) (tries : nat) (pos : nat) : option text * nat :=
  match tries with
  | O => (None, pos)
  | S tries' =>
      let n := (1000 + Z.of_N (rnd pos) mod 9000)%Z in
      let out := snprintf ACCID_LEN (lit "ACC" ++ fmt_d n) in
      match account_index db out with
      | None => (Some out, S pos)
      | Some _ => gen_loop db tries' (S pos)
      end
  end.

Definition gen_account_id (db : DB) (pos : nat) : option text * nat :=
  gen_loop db GEN_TRIES pos.

(** ** Loading and saving the store *)

Notation "'do' p <- e ; k" :=
  (match e with Some p => k | None => None end)
  (at level 10, p pattern, e at level 100, k at level 200).

(** [strncmp(line, p, strlen(p)) == 0]. *)
Fixpoint starts_with (p s : text) : bool :=
  match p, s with
  | [], _ => true
  | c :: p', d :: s' => Ascii.eqb c d && starts_with p' s'
  | _ :: _, [] => false
  end.

(** [sscanf(line, "USER %31s %31s", u, p) == 2]. *)
Definition sscanf_user (line : text) : option (text * text) :=
  do r0 <- scan_lit (lit "USER") line;
  do (u, r1) <- scan_s 31 r0;
  do (p, _) <- scan_s 31 r1;
  Some (u, p).

(** [sscanf(line, "ACC %31s %15s %d %255s %lf %lf %lf", ...) == 7]. *)
Definition sscanf_acc (line : text)
  : option (text * text * Z * text * double * double * double) :=
  do r0 <- scan_lit (lit "ACC") line;
  do (i, r1) <- scan_s 31 r0;
  do (ty, r2) <- scan_s 15 r1;
  do (n, r3) <- scan_d r2;
  do (csv, r4) <- scan_s 255 r3;
  do (b0, r5) <- scan_lf r4;
  do (b1, r6) <- scan_lf r5;
  do (b2, _) <- scan_lf r6;
  Some (i, ty, n, csv, b0, b1, b2).

(** [while (tok && idx < a->ownerCount)]. *)
Fixpoint load_owners (toks : list text) (idx count : Z) : list text :=
  match toks with
  | tok :: rest =>
      if (idx <? count)%Z
      then strncpy_term USERNAME_LEN tok :: load_owners rest (idx + 1) count
      else []
  | [] => []
  end.

(** One round of the loop of [db_load_locked]. *)
Definition load_line (db : DB) (buf : text) : DB :=
  let line := trim_newline (cstr buf) in
  match line with
  | [] => db
  | _ =>
      if starts_with (lit "USER ") line then
        if Nat.leb MAX_USERS (length (users db)) then db
        else
          match sscanf_user line with
          | Some (u, p) =>
              {| users := users db ++ [ {| username := strncpy USERNAME_LEN u;
                                           password := strncpy PASS_LEN p |} ];
                 accounts := accounts db |}
          | None => db
          end
      else if starts_with (lit "ACC ") line then
        if Nat.leb MAX_ACCOUNTS (length (accounts db)) then db
        else
          match sscanf_acc line with
          | Some (i, ty, n, csv, b0, b1, b2) =>
              let count := if (Z.of_nat MAX_OWNERS <? n)%Z then Z.of_nat MAX_OWNERS else n in
              let tmp := strncpy_term 256 csv in
              {| users := users db;
                 accounts := accounts db ++
                   [ {| id := strncpy ACCID_LEN i;
                        isJoint := streq ty (lit "JOINT");
                        owners := load_owners (strtok_all tmp) 0 count;
                        bal := {| b_usd := b0; b_eur := b1; b_gbp := b2 |} |} ] |}
          | None => db
          end
      else db
  end.

Definition LINE_MAX : nat := 1023.   (* char line[1024] *)

Definition db_load_locked (store : text) : DB :=
  fold_left load_line (read_lines (length store) LINE_MAX store) db_init.

Definition sp : text := lit " ".
Definition nl : text := [newline].

(** The strcat loop that builds ownersCSV. *)
Fixpoint owners_csv (os : list text) : text :=
  match os with
  | [] => []
  | [o] => o
  | o :: rest => o ++ comma :: owners_csv rest
  end.

Definition user_line (u : User) : text :=
  lit "USER " ++ username u ++ sp ++ password u ++ nl.

Definition acc_line (a : Account) : text :=
  let csv := owners_csv (owners a) in
  lit "ACC " ++ id a ++ sp
  ++ (if isJoint a then lit "JOINT" else lit "IND") ++ sp
  ++ fmt_d (Z.of_nat (ownerCount a)) ++ sp
  ++ (match csv with [] => lit "-" | _ => csv end) ++ sp
  ++ fmt_f 2 (b_usd (bal a)) ++ sp
  ++ fmt_f 2 (b_eur (bal a)) ++ sp
  ++ fmt_f 2 (b_gbp (bal a)) ++ nl.

(** The text [db_save_locked] leaves in the truncated file. *)
Definition db_save_locked (db : DB) : text :=
  concat (map user_line (users db)) ++ concat (map acc_line (accounts db)).

(** ** Commands

    A command either replies and leaves the store alone, or replies after
    [db_save_locked] has rewritten the store from the snapshot it mutated. *)

Inductive outcome :=
| Reply (resp : text)
| Saved (resp : text) (db' : DB).

Definition reply_of (o : outcome) : text :=
  match o with Reply r => r | Saved r _ => r end.

(** The store after the command. *)
Definition store_after (store : text) (o : outcome) : text :=
  match o with Reply _ => store | Saved _ db' => db_save_locked db' end.

(** A one-line response block: the line, then END. *)
Definition msg (s : string) : text := lit s ++ nl ++ lit "END" ++ nl.

(** The array slot [db.accounts[idx]]; slots past [accCount] are zeroed by
    [db_init]. *)
Definition zero_balances : Balances :=
  {| b_usd := S754_zero false; b_eur := S754_zero false; b_gbp := S754_zero false |}.
Definition zero_account : Account :=
  {| id := []; isJoint := false; owners := []; bal := zero_balances |}.
Definition zero_user : User := {| username := []; password := [] |}.

Definition account_at (db : DB) (idx : nat) : Account := nth idx (accounts db) zero_account.
Definition user_at (db : DB) (idx : nat) : User := nth idx (users db) zero_user.

Definition set_account (db : DB) (idx : nat) (a : Account) : DB :=
  {| users := users db; accounts := <[idx := a]> (accounts db) |}.

Definition cmd_help : text :=
  lit "OK Commands:" ++ nl
  ++ lit "  REGISTER <user> <pass>" ++ nl
  ++ lit "  LOGIN <user> <pass>" ++ nl
  ++ lit "  RATES" ++ nl
  ++ lit "  CREATE_ACCOUNT IND|JOINT <ownersCSV>" ++ nl
  ++ lit "  LIST_ACCOUNTS" ++ nl
  ++ lit "  BALANCES <accid>" ++ nl
  ++ lit "  DEPOSIT <accid> <CUR> <amount>" ++ nl
  ++ lit "  WITHDRAW <accid> <CUR> <amount>" ++ nl
  ++ lit "  EXCHANGE <accid> <FROMCUR> <TOCUR> <amount>" ++ nl
  ++ lit "  QUIT" ++ nl
  ++ lit "END" ++ nl.

Definition cmd_rates : text :=
  snprintf 512
    (lit "OK Rates (approx, fixed):" ++ nl
     ++ lit "  1 EUR = " ++ fmt_f 2 (rate CUR_EUR CUR_USD) ++ lit " USD" ++ nl
     ++ lit "  1 EUR = " ++ fmt_f 2 (rate CUR_EUR CUR_GBP) ++ lit " GBP" ++ nl
     ++ lit "END" ++ nl).

Definition cmd_register (store u p : text) : outcome :=
  let db := db_load_locked store in
  match user_index db u with
  | Some _ => Reply (msg "ERR User already exists")
  | None =>
      if Nat.leb MAX_USERS (length (users db)) then Reply (msg "ERR User limit reached")
      else
        Saved (msg "OK Registered")
          {| users := users db ++ [ {| username := strncpy USERNAME_LEN u;
                                       password := strncpy PASS_LEN p |} ];
             accounts := accounts db |}
  end.

(** The reply and the content of [loggedUser] afterwards. *)
Definition cmd_login (store u p loggedUser : text) : text * text :=
  let db := db_load_locked store in
  match user_index db u with
  | None => (msg "ERR No such user", loggedUser)
  | Some idx =>
      if negb (streq (password (user_at db idx)) p)
      then (msg "ERR Wrong password", loggedUser)
      else (msg "OK Logged in", strncpy USERNAME_LEN u)
  end.

(** The owner-parsing loop of [cmd_create_account]:
    [while (tok && ownerCount < MAX_OWNERS)]; [None] when a token is not a
    registered user. *)
Fixpoint parse_owners (db : DB) (toks : list text) (count : nat)
  : option (list text) :=
  match toks with
  | tok :: rest =>
      if Nat.ltb count MAX_OWNERS then
        match user_index db tok with
        | None => None
        | Some _ =>
            option_map (cons (strncpy_term USERNAME_LEN tok))
                       (parse_owners db rest (S count))
        end
      else Some []
  | [] => Some []
  end.

Definition parse_type (type : text) : option bool :=
  if streq type (lit "IND") then Some false
  else if streq type (lit "JOINT") then Some true
  else None.

(** The checks on the parsed owner list; [Some e] is the error reply. *)
Definition check_owners (isJoint : bool) (os : list text) (loggedUser : text)
  : option text :=
  if Nat.eqb (length os) 0 then Some (msg "ERR ownersCSV is empty")
  else if negb isJoint then
    if negb (Nat.eqb (length os) 1)
    then Some (msg "ERR IND account must have exactly 1 owner")
    else if negb (streq (nth 0 os []) loggedUser)
    then Some (msg "ERR IND account owner must be the logged-in user")
    else None
  else
    if negb (existsb (fun o => streq o loggedUser) os)
    then Some (msg "ERR JOINT account must include logged-in user among owners")
    else None.

(** The outcome and the position of the next [rand()] call. *)
Definition cmd_create_account (pos : nat)
    (store loggedUser type ownersCSV : text) : outcome * nat :=
  match loggedUser with
  | [] => (Reply (msg "ERR Please LOGIN first"), pos)
  | _ =>
      match parse_type type with
      | None => (Reply (msg "ERR type must be IND or JOINT"), pos)
      | Some joint =>
          let db := db_load_locked store in
          if Nat.leb MAX_ACCOUNTS (length (accounts db))
          then (Reply (msg "ERR Account limit reached"), pos)
          else
            match gen_account_id db pos with
            | (None, pos') => (Reply (msg "ERR Could not generate account id"), pos')
            | (Some aid, pos') =>
                let tmp := strncpy_term 256 ownersCSV in
                match parse_owners db (strtok_all tmp) 0 with
                | None =>
                    (Reply (msg "ERR One or more owners do not exist (REGISTER them first)"), pos')
                | Some os =>
                    match check_owners joint os loggedUser with
                    | Some e => (Reply e, pos')
                    | None =>
                        let a := {| id := aid; isJoint := joint; owners := os;
                                    bal := zero_balances |} in
                        (Saved (snprintf 128 (lit "OK Created " ++ aid ++ nl ++ lit "END" ++ nl))
                               {| users := users db; accounts := accounts db ++ [a] |},
                         pos')
                    end
                end
            end
      end
  end.

Definition type_name (a : Account) : text :=
  if isJoint a then lit "JOINT" else lit "IND".

Definition cmd_list_accounts (store loggedUser : text) : text :=
  match loggedUser with
  | [] => msg "ERR Please LOGIN first"
  | _ =>
      let db := db_load_locked store in
      lit "OK Accounts:" ++ nl
      ++ concat (map (fun a =>
                        snprintf 512 (lit "  " ++ id a ++ lit "  " ++ type_name a
                                      ++ lit "  owners=" ++ owners_csv (owners a) ++ nl))
                     (List.filter (fun a => is_owner a loggedUser) (accounts db)))
      ++ lit "END" ++ nl
  end.

Definition cmd_balances (store loggedUser accid : text) : text :=
  match loggedUser with
  | [] => msg "ERR Please LOGIN first"
  | _ =>
      let db := db_load_locked store in
      match account_index db accid with
      | None => msg "ERR No such account"
      | Some idx =>
          let a := account_at db idx in
          if negb (is_owner a loggedUser) then msg "ERR Not an owner"
          else
            snprintf 256
              (lit "OK " ++ id a ++ lit " balances: USD=" ++ fmt_f 2 (bal_get (bal a) CUR_USD)
               ++ lit " EUR=" ++ fmt_f 2 (bal_get (bal a) CUR_EUR)
               ++ lit " GBP=" ++ fmt_f 2 (bal_get (bal a) CUR_GBP) ++ nl ++ lit "END" ++ nl)
      end
  end.

Definition with_bal (a : Account) (b : Balances) : Account :=
  {| id := id a; isJoint := isJoint a; owners := owners a; bal := b |}.

Definition cmd_deposit_withdraw (store loggedUser op accid curS : text)
    (amount : double) : outcome :=
  match loggedUser with
  | [] => Reply (msg "ERR Please LOGIN first")
  | _ =>
      if dle amount d_zero then Reply (msg "ERR amount must be > 0")
      else
        match parse_currency curS with
        | None => Reply (msg "ERR Unknown currency (USD/EUR/GBP)")
        | Some cur =>
            let db := db_load_locked store in
            match account_index db accid with
            | None => Reply (msg "ERR No such account")
            | Some idx =>
                let a := account_at db idx in
                if negb (is_owner a loggedUser) then Reply (msg "ERR Not an owner")
                else if streq op (lit "DEPOSIT") then
                  Saved (msg "OK Done")
                    (set_account db idx
                       (with_bal a (bal_set (bal a) cur (dadd (bal_get (bal a) cur) amount))))
                else if streq op (lit "WITHDRAW") then
                  if dlt (bal_get (bal a) cur) amount
                  then Reply (msg "ERR Insufficient funds")
                  else
                    Saved (msg "OK Done")
                      (set_account db idx
                         (with_bal a (bal_set (bal a) cur (dsub (bal_get (bal a) cur) amount))))
                else Reply (msg "ERR Internal op")
            end
        end
  end.

Definition cmd_exchange (store loggedUser accid fromS toS : text)
    (amount : double) : outcome :=
  match loggedUser with
  | [] => Reply (msg "ERR Please LOGIN first")
  | _ =>
      if dle amount d_zero then Reply (msg "ERR amount must be > 0")
      else
        match parse_currency fromS, parse_currency toS with
        | Some from, Some to =>
            if cur_eqb from to then Reply (msg "ERR FROMCUR and TOCUR must differ")
            else
              let db := db_load_locked store in
              match account_index db accid with
              | None => Reply (msg "ERR No such account")
              | Some idx =>
                  let a := account_at db idx in
                  if negb (is_owner a loggedUser) then Reply (msg "ERR Not an owner")
                  else if dlt (bal_get (bal a) from) amount
                  then Reply (msg "ERR Insufficient funds")
                  else
                    let r := rate from to in
                    let converted := dmul amount r in
                    let b1 := bal_set (bal a) from (dsub (bal_get (bal a) from) amount) in
                    let b2 := bal_set b1 to (dadd (bal_get b1 to) converted) in
                    Saved
                      (snprintf 256
                         (lit "OK Exchanged " ++ fmt_f 2 amount ++ sp ++ CUR_NAMES from
                          ++ lit " -> " ++ fmt_f 2 converted ++ sp ++ CUR_NAMES to
                          ++ lit " (rate=" ++ fmt_f 6 r ++ lit ")" ++ nl ++ lit "END" ++ nl))
                      (set_account db idx (with_bal a b2))
              end
        | _, _ => Reply (msg "ERR Unknown currency (USD/EUR/GBP)")
        end
  end.

(** ** The connection handler *)

(** What one handler process holds between two commands: [loggedUser]
    (empty: not logged in), the position of its [rand()] sequence, and the
    content of the store when the next command takes the lock. *)
Record Conn := { loggedUser : text; store : text; rand_pos : nat }.

(** [sscanf(line, "<kw> %<n1>s %<n2>s", a, b) == 2]. *)
Definition sscanf_kw2 (kw : string) (n1 n2 : nat) (line : text) : option (text * text) :=
  do r0 <- scan_lit (lit kw) line;
  do (a, r1) <- scan_s n1 r0;
  do (b, _) <- scan_s n2 r1;
  Some (a, b).

(** [sscanf(line, "BALANCES %31s", accid) == 1]. *)
Definition sscanf_balances (line : text) : option text :=
  do r0 <- scan_lit (lit "BALANCES") line;
  do (a, _) <- scan_s 31 r0;
  Some a.

(** [sscanf(line, "%31s %31s %7s %lf", cmd, accid, curS, &amount) == 4]. *)
Definition sscanf_depwd (line : text) : option (text * text * text * double) :=
  do (c, r0) <- scan_s 31 line;
  do (a, r1) <- scan_s 31 r0;
  do (cur, r2) <- scan_s 7 r1;
  do (amt, _) <- scan_lf r2;
  Some (c, a, cur, amt).

(** [sscanf(line, "EXCHANGE %31s %7s %7s %lf", ...) == 4]. *)
Definition sscanf_exchange (line : text) : option (text * text * text * double) :=
  do r0 <- scan_lit (lit "EXCHANGE") line;
  do (a, r1) <- scan_s 31 r0;
  do (f, r2) <- scan_s 7 r1;
  do (t, r3) <- scan_s 7 r2;
  do (amt, _) <- scan_lf r3;
  Some (a, f, t, amt).

Definition with_store (c : Conn) (o : outcome) : Conn :=
  {| loggedUser := loggedUser c; store := store_after (store c) o; rand_pos := rand_pos c |}.

(** One round of the loop of [handleClient] after [recv_line] returned
    [buf]: what is sent back, the handler's state afterwards, and whether
    the loop goes on ([false] after QUIT). *)
Definition handle_line (c : Conn) (buf : text) : text * Conn * bool :=
  let line := trim_newline (cstr buf) in
  match line with
  | [] => ([], c, true)
  | _ =>
      match scan_s 31 line with
      | None => ([], c, true)
      | Some (cmd, _) =>
          if streq cmd (lit "HELP") then (cmd_help, c, true)
          else if streq cmd (lit "RATES") then (cmd_rates, c, true)
          else if streq cmd (lit "REGISTER") then
            match sscanf_kw2 "REGISTER" 31 31 line with
            | None => (msg "ERR Usage: REGISTER <user> <pass>", c, true)
            | Some (u, p) =>
                let o := cmd_register (store c) u p in (reply_of o, with_store c o, true)
            end
          else if streq cmd (lit "LOGIN") then
            match sscanf_kw2 "LOGIN" 31 31 line with
            | None => (msg "ERR Usage: LOGIN <user> <pass>", c, true)
            | Some (u, p) =>
                let (r, lu) := cmd_login (store c) u p (loggedUser c) in
                (r, {| loggedUser := lu; store := store c; rand_pos := rand_pos c |}, true)
            end
          else if streq cmd (lit "CREATE_ACCOUNT") then
            match sscanf_kw2 "CREATE_ACCOUNT" 15 255 line with
            | None => (msg "ERR Usage: CREATE_ACCOUNT IND|JOINT <ownersCSV>", c, true)
            | Some (ty, csv) =>
                let (o, pos') :=
                  cmd_create_account (rand_pos c) (store c) (loggedUser c) ty csv in
                (reply_of o,
                 {| loggedUser := loggedUser c; store := store_after (store c) o;
                    rand_pos := pos' |}, true)
            end
          else if streq cmd (lit "LIST_ACCOUNTS") then
            (cmd_list_accounts (store c) (loggedUser c), c, true)
          else if streq cmd (lit "BALANCES") then
            match sscanf_balances line with
            | None => (msg "ERR Usage: BALANCES <accid>", c, true)
            | Some accid => (cmd_balances (store c) (loggedUser c) accid, c, true)
            end
          else if streq cmd (lit "DEPOSIT") || streq cmd (lit "WITHDRAW") then
            match sscanf_depwd line with
            | None => (msg "ERR Usage: DEPOSIT|WITHDRAW <accid> <CUR> <amount>", c, true)
            | Some (op, accid, curS, amount) =>
                let o := cmd_deposit_withdraw (store c) (loggedUser c) op accid curS amount in
                (reply_of o, with_store c o, true)
            end
          else if streq cmd (lit "EXCHANGE") then
            match sscanf_exchange line with
            | None => (msg "ERR Usage: EXCHANGE <accid> <FROMCUR> <TOCUR> <amount>", c, true)
            | Some (accid, fromS, toS, amount) =>
                let o := cmd_exchange (store c) (loggedUser c) accid fromS toS amount in
                (reply_of o, with_store c o, true)
            end
          else if streq cmd (lit "QUIT") then (msg "OK Bye", c, false)
          else (msg "ERR Unknown command (try HELP)", c, true)
      end
  end.

(** A session: the rounds of the loop for the lines one client sends, with
    no other client writing the store in between (the welcome block and the
    READY> prompts are left out of the output). *)
Fixpoint handleClient (c : Conn) (lines : list text) : list text * Conn :=
  match lines with
  | [] => ([], c)
  | l :: rest =>
      let '(out, c', go) := handle_line c l in
      if go then let (outs, c'') := handleClient c' rest in (out :: outs, c'')
      else ([out], c')
  end.

End Server.

(** ** Exact values

    The rational a finite double stands for (0 for the others). *)
Definition d2Q (x : double) : Q :=
  match x with
  | S754_finite s m e =>
      let n := if s then Zneg m else Zpos m in
      if (0 <=? e)%Z then inject_Z (n * 2 ^ e) else Qmake n (Z.to_pos (2 ^ (- e)))
  | _ => 0%Q
  end.

(** The exact product of two doubles is within 0.0000005 of 1: it prints
    as 1.000000 with the six decimals the server shows a rate with. *)
Definition close_to_one (x y : double) : bool :=
  Qle_bool (Qabs (d2Q x * d2Q y - 1)) (1 # 2000000).

(** [0 <= x] as the C comparison reads it: false for NaN. *)
Definition nonneg (x : double) : bool := dle d_zero x.

Definition balances_nonneg (b : Balances) : bool :=
  nonneg (b_usd b) && nonneg (b_eur b) && nonneg (b_gbp b).

Definition db_nonneg (db : DB) : bool :=
  forallb (fun a => balances_nonneg (bal a)) (accounts db).

(** The format of a generated account id: ACC and four decimal digits. *)
Definition acc_id_format (aid : text) : Prop :=
  exists ds, aid = lit "ACC" ++ ds /\ length ds = 4 /\ forallb isdigit ds = true.

(** ** Sample stores and sessions *)

Definition L (s : string) : text := lit s ++ nl.

Definition store_alice : text :=
  L "USER alice pw1" ++ L "USER bob pw2"
  ++ L "ACC ACC1000 IND 1 alice 100.00 0.00 0.00".

Definition store_big : text :=
  L "USER alice pw1"
  ++ L "ACC ACC1000 IND 1 alice 18014398509481984.00 0.00 0.00".

Definition no_rand : nat -> N := fun _ => 0%N.

Definition is_error (r : text) : bool := starts_with (lit "ERR") r.

Definition conn_alice (st : text) : Conn :=
  {| loggedUser := lit "alice"; store := st; rand_pos := 0 |}.

Definition conn_bob (st : text) : Conn :=
  {| loggedUser := lit "bob"; store := st; rand_pos := 0 |}.

Definition store_acc1000 : text :=
  L "USER alice pw1" ++ L "ACC ACC1000 IND 1 alice 0.00 0.00 0.00".

Definition name31 (c : string) : string :=
  (c ++ "23456789012345678901234567890a")%string.

(** A session that starts on an empty store: three users with 31-character
    names open a joint account and deposit 1e308 in each currency. *)
Definition session_huge : list text :=
  [ L ("REGISTER " ++ name31 "a" ++ " pw");
    L ("REGISTER " ++ name31 "b" ++ " pw");
    L ("REGISTER " ++ name31 "c" ++ " pw");
    L ("LOGIN " ++ name31 "a" ++ " pw");
    L ("CREATE_ACCOUNT JOINT " ++ name31 "a" ++ "," ++ name31 "b" ++ "," ++ name31 "c");
    L "DEPOSIT ACC1000 USD 1e308";
    L "DEPOSIT ACC1000 EUR 1e308";
    L "DEPOSIT ACC1000 GBP 1e308" ].

Definition store_huge : text :=
  store (snd (handleClient no_rand {| loggedUser := []; store := []; rand_pos := 0 |}
                           session_huge)).


Definition seq_rand : nat -> N := N.of_nat.

(** A store written with exponents: three owners with 31-character names
    and 1e308 in each currency. *)
Definition store_e308 : text :=
  L ("USER " ++ name31 "a" ++ " pw")
  ++ L ("USER " ++ name31 "b" ++ " pw")
  ++ L ("USER " ++ name31 "c" ++ " pw")
  ++ L ("ACC ACC1000 JOINT 3 " ++ name31 "a" ++ "," ++ name31 "b" ++ "," ++ name31 "c"
        ++ " 1e308 1e308 1e308").

(** ** What a loaded snapshot looks like

    The strings of a snapshot come out of [%s] conversions on a C string:
    they are not empty, hold no white space and no NUL, and fit their
    field. *)
Definition token_char (c : ascii) : bool :=
  negb (isspace c) && negb (Ascii.eqb c zero).

Definition tokenb (n : nat) (t : text) : bool :=
  negb (Nat.eqb (length t) 0) && Nat.leb (length t) n && forallb token_char t.

Definition no_comma (t : text) : bool :=
  forallb (fun c => negb (Ascii.eqb c comma)) t.

Definition ownerb (t : text) : bool := tokenb 31 t && no_comma t.

Definition wf_user (u : User) : bool :=
  tokenb 31 (username u) && tokenb 31 (password u).

Definition wf_account (a : Account) : bool :=
  tokenb 31 (id a) && forallb ownerb (owners a)
  && Nat.leb (length (owners a)) MAX_OWNERS.

Definition wf_db (db : DB) : bool :=
  forallb wf_user (users db) && forallb wf_account (accounts db)
  && Nat.leb (length (users db)) MAX_USERS
  && Nat.leb (length (accounts db)) MAX_ACCOUNTS.

(** ** Two-decimal rounding of a balance

    The double that the text [%.2f] prints reads back as: the double nearest
    to the balance rounded to a whole number of hundredths. *)
Definition round2 (x : double) : double :=
  match x with
  | S754_finite s m e => dec_to_double s (scaled 2 m e) (-2)
  | _ => x
  end.

Definition round2_balances (b : Balances) : Balances :=
  {| b_usd := round2 (b_usd b); b_eur := round2 (b_eur b); b_gbp := round2 (b_gbp b) |}.

Definition round2_account (a : Account) : Account :=
  with_bal a (round2_balances (bal a)).

Definition round2_db (db : DB) : DB :=
  {| users := users db; accounts := map round2_account (accounts db) |}.

(** Every record of the snapshot prints on a line that [fgets] reads whole. *)
Definition lines_fit (db : DB) : bool :=
  forallb (fun a => Nat.leb (length (acc_line a)) LINE_MAX) (accounts db).

(** The lines of the store without their newline. *)
Definition csv_field (os : list text) : text :=
  match owners_csv os with [] => lit "-" | _ => owners_csv os end.

Definition user_body (u : User) : text :=
  lit "USER " ++ username u ++ sp ++ password u.

Definition acc_body (a : Account) : text :=
  lit "ACC " ++ id a ++ sp ++ type_name a ++ sp
  ++ fmt_d (Z.of_nat (ownerCount a)) ++ sp ++ csv_field (owners a) ++ sp
  ++ fmt_f 2 (b_usd (bal a)) ++ sp ++ fmt_f 2 (b_eur (bal a)) ++ sp
  ++ fmt_f 2 (b_gbp (bal a)).

(** ** Auxiliary predicates *)

Definition not_nul (c : ascii) : bool := negb (Ascii.eqb c zero).
Definition not_nl (c : ascii) : bool := negb (Ascii.eqb c newline).

(** The rest of a line after a field: nothing, or white space first. *)
Definition delimited (r : text) : Prop :=
  r = [] \/ exists c r', r = c :: r' /\ isspace c = true.

(** What [strtok] returns: a non-empty run without commas. *)
Definition strtok_ok (t : text) : Prop :=
  t <> [] /\ no_comma t = true /\ forallb token_char t = true.

(** ** Doubles that are numbers *)

(** A number: neither NaN nor an infinity. *)
Definition is_finite (x : double) : bool :=
  match x with
  | S754_zero _ | S754_finite _ _ _ => true
  | _ => false
  end.

(** The mantissa and exponent are the ones of a binary64 value. *)
Definition valid (x : double) : bool := valid_binary prec emax x.

Definition balances_valid (b : Balances) : bool :=
  valid (b_usd b) && valid (b_eur b) && valid (b_gbp b).

Definition db_valid (db : DB) : bool :=
  forallb (fun a => balances_valid (bal a)) (accounts db).

(** The exponent of the last binary digit a binary64 value of magnitude
    [2^e] keeps. *)
Definition fexp64 (e : Z) : Z := fexp prec emax e.

(** ** Replies

    A response block as the protocol frames it: it ends with the line END. *)
Definition framed (r : text) : Prop := exists body, r = body ++ lit "END" ++ nl.

(** The first word of a received line, as [sscanf(line, "%31s", cmd)] reads
    it. *)
Definition first_word (buf : text) : option text :=
  option_map fst (scan_s 31 (trim_newline (cstr buf))).

(** The commands that call [db_save_locked]. *)
Definition writes_store (cmd : text) : bool :=
  streq cmd (lit "REGISTER") || streq cmd (lit "CREATE_ACCOUNT")
  || streq cmd (lit "DEPOSIT") || streq cmd (lit "WITHDRAW")
  || streq cmd (lit "EXCHANGE").

(** The commands that start with the check of [loggedUser]. *)
Definition needs_login (cmd : text) : bool :=
  streq cmd (lit "CREATE_ACCOUNT") || streq cmd (lit "LIST_ACCOUNTS")
  || streq cmd (lit "BALANCES") || streq cmd (lit "DEPOSIT")
  || streq cmd (lit "WITHDRAW") || streq cmd (lit "EXCHANGE").

(** ** Candidate account ids

    What one round of the loop of [gen_account_id] writes into [out] from
    the [k]-th value of rand():
    [snprintf(out, outsz, "ACC%d", 1000 + rand() % 9000)]. *)
Definition gen_candidate (rnd : nat -> N) (k : nat) : text :=
  snprintf ACCID_LEN (lit "ACC" ++ fmt_d (1000 + Z.of_N (rnd k) mod 9000)).

(** The candidate is the id of an account of the snapshot. *)
Definition taken (db : DB) (aid : text) : bool :=
  match account_index db aid with Some _ => true | None => false end.

(** ** Lines on the socket

    [recv_line(fd, buf, bufsz)] of server.c and client.c, on the bytes the
    peer sends before it closes the connection: one [read] per character,
    at most [bufsz - 1] characters, stopping after a newline.  [None] is the
    return value 0: the stream ended, also when characters had been read
    (they are dropped).  Otherwise the buffer and the bytes left unread. *)
Definition BUFFER_SIZE : nat := 512.

Fixpoint recv_loop (room : nat) (s : text) : option (text * text) :=
  match room with
  | O => Some ([], s)
  | S room' =>
      match s with
      | [] => None
      | c :: s' =>
          if Ascii.eqb c newline then Some ([c], s')
          else
            match recv_loop room' s' with
            | Some (l, r) => Some (c :: l, r)
            | None => None
            end
      end
  end.

Definition recv_line (bufsz : nat) (s : text) : option (text * text) :=
  recv_loop (bufsz - 1) s.

(** The prompt [handleClient] sends before it waits for a line. *)
Definition READY : text := lit "READY>" ++ nl.

(** The welcome block. *)
Definition WELCOME : text :=
  lit "OK Currency Exchange Server" ++ nl ++ lit "Type HELP for commands" ++ nl
  ++ lit "END" ++ nl.

(** [read_until_end] of client.c on the bytes the server has sent: the text
    it prints and the bytes left unread; [None] when the bytes run out
    before a line END has come (the client then waits, or exits when the
    server has closed).  Each round consumes at least one byte. *)
Fixpoint read_until_end (fuel : nat) (s : text) : option (text * text) :=
  match fuel with
  | O => None
  | S fuel' =>
      match recv_line BUFFER_SIZE s with
      | None => None
      | Some (buf, r) =>
          if streq (cstr buf) (lit "END" ++ nl) then Some (cstr buf, r)
          else
            match read_until_end fuel' r with
            | Some (p, r') => Some (cstr buf ++ p, r')
            | None => None
            end
      end
  end.

(** A line of a response block as the client takes it: no newline and no
    NUL inside, at most 510 characters, and not the word END. *)
Definition lineb (l : text) : bool :=
  forallb not_nl l && forallb not_nul l && Nat.leb (length l) 510
  && negb (streq l (lit "END")).

(** A response block: lines, then the line END. *)
Definition block (ls : list text) : text :=
  concat (map (fun l => l ++ nl) ls) ++ lit "END" ++ nl.

(** A reply the client can take apart: lines it accepts, then END. *)
Definition is_block (out : text) : Prop :=
  exists ls, forallb lineb ls = true /\ out = block ls.

(** The row LIST_ACCOUNTS prints for an account, without its newline. *)
Definition list_row (a : Account) : text :=
  lit "  " ++ id a ++ lit "  " ++ type_name a ++ lit "  owners=" ++ owners_csv (owners a).

(** What identifies an account apart from its balances. *)
Definition account_key (a : Account) : text * bool * list text :=
  (id a, isJoint a, owners a).

(** * Proof tools *)

(** Character classes are used through their lemmas, not unfolded. *)
#[global] Arguments code : simpl never.
#[global] Arguments isspace : simpl never.
#[global] Arguments isdigit : simpl never.
#[global] Arguments isxdigit : simpl never.
#[global] Arguments tolower : simpl never.
#[global] Arguments digit_char : simpl never.
#[global] Arguments digit_val : simpl never.

(** Case analysis on the first test of the goal. *)
Ltac case_if :=
  match goal with
  | |- context [if ?b then _ else _] => destruct b eqn:?
  | |- context [match ?x with Some _ => _ | None => _ end] => destruct x eqn:?
  | |- context [match ?x with [] => _ | _ :: _ => _ end] => destruct x eqn:?
  | |- context [match ?x with (_, _) => _ end] => destruct x eqn:?
  end.

(** A closed equation between two different replies is absurd. *)
Ltac closed_neq :=
  let E := fresh "E" in
  simpl fst; simpl reply_of; intros E; exfalso; vm_compute in E; discriminate E.

(** Case analysis on the eight bits of a character. *)
Ltac ascii_cases c :=
  destruct c as [[] [] [] [] [] [] [] []]; try reflexivity; try discriminate.

(** * Properties *)

(** ** Strings and lists *)

Lemma streq_eq (a b : text) : streq a b = true <-> a = b.
Proof.
  revert b; induction a as [|x a IH]; intros [|y b]; simpl; split; intros H;
    try discriminate; try reflexivity.
  - apply andb_true_iff in H as [H1 H2].
    apply Ascii.eqb_eq in H1. apply IH in H2. now subst.
  - inversion H; subst. rewrite Ascii.eqb_refl. simpl. now apply IH.
Qed.

Lemma streq_refl (a : text) : streq a a = true.
Proof. now apply streq_eq. Qed.

Lemma streq_neq (a b : text) : streq a b = false <-> a <> b.
Proof.
  split; intros H.
  - intros E. apply streq_eq in E. congruence.
  - destruct (streq a b) eqn:E; [apply streq_eq in E; contradiction | reflexivity].
Qed.

Lemma find_index_Some {A : Type} (p : A -> bool) (l : list A) (d : A) (i : nat) :
  find_index p l = Some i ->
  i < length l /\ p (nth i l d) = true /\ forall j, j < i -> p (nth j l d) = false.
Proof.
  revert i; induction l as [|x l IH]; intros i; simpl; [discriminate|].
  destruct (p x) eqn:Hp.
  - intros [= <-]. repeat split; [lia | exact Hp | intros j Hj; lia].
  - destruct (find_index p l) as [k|] eqn:Hf; simpl; [|discriminate].
    intros [= <-]. destruct (IH k eq_refl) as (H1 & H2 & H3).
    repeat split; [lia | exact H2 |].
    intros [|j] Hj; [exact Hp | apply H3; lia].
Qed.

Lemma find_index_None {A : Type} (p : A -> bool) (l : list A) :
  find_index p l = None <-> forall x, In x l -> p x = false.
Proof.
  induction l as [|x l IH]; simpl.
  - split; [intros _ y [] | reflexivity].
  - destruct (p x) eqn:Hp.
    + split; [discriminate | intros H; rewrite (H x) in Hp; [discriminate | now left]].
    + destruct (find_index p l) eqn:Hf; simpl.
      * split; [discriminate|]. intros H.
        assert (Some n = None) as E by (apply IH; intros y Hy; apply H; now right).
        discriminate.
      * split; [|reflexivity]. intros _ y [<-|Hy]; [exact Hp|].
        now apply (proj1 IH).
Qed.

Lemma cur_eqb_eq (a b : Currency) : cur_eqb a b = true <-> a = b.
Proof. destruct a, b; simpl; split; intros; congruence. Qed.

Lemma bal_get_set_same (b : Balances) (c : Currency) (v : double) :
  bal_get (bal_set b c v) c = v.
Proof. now destruct c. Qed.

Lemma bal_get_set_other (b : Balances) (c c' : Currency) (v : double) :
  cur_eqb c' c = false -> bal_get (bal_set b c v) c' = bal_get b c'.
Proof. destruct c, c'; simpl; intros; congruence. Qed.

Lemma account_at_set_same (db : DB) (idx : nat) (a : Account) :
  idx < length (accounts db) -> account_at (set_account db idx a) idx = a.
Proof.
  intros H. unfold account_at, set_account; simpl.
  apply nth_lookup_Some. now apply list_lookup_insert_eq.
Qed.

Lemma account_at_set_other (db : DB) (idx j : nat) (a : Account) :
  j <> idx -> account_at (set_account db idx a) j = account_at db j.
Proof.
  intros H. unfold account_at, set_account; simpl.
  rewrite !nth_lookup. now rewrite list_lookup_insert_ne.
Qed.

(** ** The rate table *)

(** C2: for all currencies, rate(a,a) = 1; rate(a,b) is the binary64
    product rate(a,EUR) * rate(EUR,b); rate(a,b) * rate(b,a) is 1, as a
    binary64 product (exactly 1.0) and as an exact product (within the
    display tolerance of six decimals); the constants are the doubles
    nearest to 1.10 and 0.85, and [rate] is a closed function of its two
    arguments. *)
Theorem rate_pivot_laws :
  forall a b : Currency,
    rate a a = d_one
    /\ rate a b = dmul (rate a CUR_EUR) (rate CUR_EUR b)
    /\ dmul (rate a b) (rate b a) = d_one
    /\ close_to_one (rate a b) (rate b a) = true
    /\ fmt_f 6 (dmul (rate a b) (rate b a)) = lit "1.000000"
    /\ rate CUR_EUR CUR_USD = S754_finite false 4953959590107546 (-52)
    /\ rate CUR_EUR CUR_GBP = S754_finite false 7656119366529843 (-53).
Proof.
  intros a b; destruct a, b; vm_compute; repeat split; reflexivity.
Qed.

(** ** EXCHANGE *)

Lemma account_index_lt (db : DB) (accid : text) (idx : nat) :
  account_index db accid = Some idx -> idx < length (accounts db).
Proof.
  intros H. now destruct (find_index_Some _ _ zero_account _ H).
Qed.

Lemma account_index_id (db : DB) (accid : text) (idx : nat) :
  account_index db accid = Some idx -> id (account_at db idx) = accid.
Proof.
  intros H. destruct (find_index_Some _ _ zero_account _ H) as (_ & H2 & _).
  now apply streq_eq in H2.
Qed.

(** C1 (amended): a successful EXCHANGE hands to the one save a snapshot in
    which the account's FROM balance is the binary64 difference
    bal[FROM] - X and its TO balance the binary64 sum bal[TO] + X * rate,
    each operation rounded to the nearest double; the third currency, the
    account's id, kind and owners, every other account and the users are
    as loaded. *)
Theorem exchange_updates_snapshot :
  forall (store lu accid fromS toS : text) (amount : double)
         (from to : Currency) (idx : nat),
    lu <> [] ->
    dle amount d_zero = false ->
    parse_currency fromS = Some from ->
    parse_currency toS = Some to ->
    cur_eqb from to = false ->
    account_index (db_load_locked store) accid = Some idx ->
    is_owner (account_at (db_load_locked store) idx) lu = true ->
    dlt (bal_get (bal (account_at (db_load_locked store) idx)) from) amount = false ->
    exists resp db',
      cmd_exchange store lu accid fromS toS amount = Saved resp db'
      /\ store_after store (cmd_exchange store lu accid fromS toS amount)
         = db_save_locked db'
      /\ users db' = users (db_load_locked store)
      /\ length (accounts db') = length (accounts (db_load_locked store))
      /\ (forall j, j <> idx -> account_at db' j = account_at (db_load_locked store) j)
      /\ id (account_at db' idx) = accid
      /\ isJoint (account_at db' idx) = isJoint (account_at (db_load_locked store) idx)
      /\ owners (account_at db' idx) = owners (account_at (db_load_locked store) idx)
      /\ bal_get (bal (account_at db' idx)) from
         = dsub (bal_get (bal (account_at (db_load_locked store) idx)) from) amount
      /\ bal_get (bal (account_at db' idx)) to
         = dadd (bal_get (bal (account_at (db_load_locked store) idx)) to)
                (dmul amount (rate from to))
      /\ (forall c, cur_eqb c from = false -> cur_eqb c to = false ->
            bal_get (bal (account_at db' idx)) c
            = bal_get (bal (account_at (db_load_locked store) idx)) c).
Proof.
  intros store lu accid fromS toS amount from to idx Hlu Hamt Hf Ht Hne Hidx Hown Hbal.
  set (db := db_load_locked store) in *.
  set (a := account_at db idx) in *.
  assert (Hlt : idx < length (accounts db)) by (eapply account_index_lt; eauto).
  unfold cmd_exchange. destruct lu as [|c0 lu0]; [congruence|].
  rewrite Hamt, Hf, Ht, Hne. fold db. rewrite Hidx. fold a.
  rewrite Hown. simpl negb. cbv iota. rewrite Hbal.
  eexists; eexists; split; [reflexivity|].
  assert (Hto : cur_eqb to from = false) by (destruct from, to; simpl in *; congruence).
  repeat split.
  - unfold set_account; simpl. apply length_insert.
  - intros j Hj. now apply account_at_set_other.
  - rewrite account_at_set_same by exact Hlt. simpl.
    subst a. now apply account_index_id.
  - now rewrite account_at_set_same.
  - now rewrite account_at_set_same.
  - rewrite account_at_set_same by exact Hlt. simpl.
    rewrite bal_get_set_other by exact Hne. apply bal_get_set_same.
  - rewrite account_at_set_same by exact Hlt. simpl.
    rewrite bal_get_set_same. now rewrite bal_get_set_other by exact Hto.
  - intros c Hc1 Hc2. rewrite account_at_set_same by exact Hlt. simpl.
    now rewrite !bal_get_set_other.
Qed.

Lemma exchange_updates_snapshot_witness :
  exists resp db',
    cmd_exchange store_alice (lit "alice") (lit "ACC1000") (lit "USD") (lit "EUR")
                 (dec_to_double false 1000 (-2)) = Saved resp db'
    /\ bal_get (bal (account_at db' 0)) CUR_USD = dec_to_double false 90 0
    /\ fmt_f 2 (bal_get (bal (account_at db' 0)) CUR_EUR) = lit "9.09".
Proof.
  destruct (exchange_updates_snapshot store_alice (lit "alice") (lit "ACC1000")
              (lit "USD") (lit "EUR") (dec_to_double false 1000 (-2))
              CUR_USD CUR_EUR 0)
    as (resp & db' & H & _ & _ & _ & _ & _ & _ & _ & H1 & H2 & _);
    try (vm_compute; congruence).
  exists resp, db'. split; [exact H|]. rewrite H1, H2. split; vm_compute; reflexivity.
Defined.

(** C1 as stated fails: with a balance of 2^54 USD, a successful exchange of
    1 USD leaves the USD balance where it was, in the snapshot that is saved
    and in the store read back, so the balance did not go down by the
    amount; and a successful exchange of 0.001 USD from 100.00 USD leaves
    100.00 USD in the store. *)
Lemma exchange_not_exact_counterexample :
  (exists resp db',
     cmd_exchange store_big (lit "alice") (lit "ACC1000") (lit "USD") (lit "EUR")
                  (dec_to_double false 1 0) = Saved resp db'
     /\ bal_get (bal (account_at db' 0)) CUR_USD
        = bal_get (bal (account_at (db_load_locked store_big) 0)) CUR_USD
     /\ ~ (d2Q (bal_get (bal (account_at (db_load_locked store_big) 0)) CUR_USD)
           - d2Q (bal_get (bal (account_at db' 0)) CUR_USD)
           == d2Q (dec_to_double false 1 0))%Q
     /\ bal_get (bal (account_at (db_load_locked (db_save_locked db')) 0)) CUR_USD
        = bal_get (bal (account_at (db_load_locked store_big) 0)) CUR_USD)
  /\ (exists resp db',
        cmd_exchange store_alice (lit "alice") (lit "ACC1000") (lit "USD") (lit "EUR")
                     (dec_to_double false 1 (-3)) = Saved resp db'
        /\ bal_get (bal (account_at (db_load_locked (db_save_locked db')) 0)) CUR_USD
           = bal_get (bal (account_at (db_load_locked store_alice) 0)) CUR_USD).
Proof.
  split.
  - eexists; eexists. split; [vm_compute; reflexivity|].
    split; [vm_compute; reflexivity|]. split; [|vm_compute; reflexivity].
    vm_compute. discriminate.
  - eexists; eexists. split; [vm_compute; reflexivity|]. vm_compute; reflexivity.
Qed.

(** ** Balances after a command *)

(** C3 fails on the code at an amount that is not a number: the guard
    [amount <= 0.0] is false for NaN, so the owner's DEPOSIT of "nan" is
    accepted and the stored balance becomes NaN, which is not >= 0.  The
    same happens to a balance of +inf from which +inf is withdrawn. *)
Lemma deposit_nan_breaks_nonneg :
  db_nonneg (db_load_locked store_alice) = true
  /\ (exists c',
        handle_line no_rand (conn_alice store_alice) (L "DEPOSIT ACC1000 USD nan")
        = (msg "OK Done", c', true)
        /\ bal_get (bal (account_at (db_load_locked (store c')) 0)) CUR_USD = S754_nan
        /\ db_nonneg (db_load_locked (store c')) = false)
  /\ (exists c1 c2,
        handle_line no_rand (conn_alice store_alice) (L "DEPOSIT ACC1000 EUR inf")
        = (msg "OK Done", c1, true)
        /\ db_nonneg (db_load_locked (store c1)) = true
        /\ handle_line no_rand c1 (L "WITHDRAW ACC1000 EUR inf")
           = (msg "OK Done", c2, true)
        /\ db_nonneg (db_load_locked (store c2)) = false).
Proof.
  split; [vm_compute; reflexivity|]. split.
  - eexists. split; [vm_compute; reflexivity|]. split; vm_compute; reflexivity.
  - eexists; eexists. split; [vm_compute; reflexivity|].
    split; [vm_compute; reflexivity|].
    split; [vm_compute; reflexivity|]. vm_compute; reflexivity.
Qed.

(** ** Errors leave the store alone *)

Lemma register_error_no_save (store u p : text) :
  match cmd_register store u p with
  | Reply r => is_error r = true
  | Saved r _ => is_error r = false
  end.
Proof. unfold cmd_register. repeat case_if; reflexivity. Qed.

Lemma deposit_withdraw_error_no_save (store lu op accid curS : text) (amount : double) :
  match cmd_deposit_withdraw store lu op accid curS amount with
  | Reply r => is_error r = true
  | Saved r _ => is_error r = false
  end.
Proof. unfold cmd_deposit_withdraw. repeat case_if; reflexivity. Qed.

Lemma exchange_error_no_save (store lu accid fromS toS : text) (amount : double) :
  match cmd_exchange store lu accid fromS toS amount with
  | Reply r => is_error r = true
  | Saved r _ => is_error r = false
  end.
Proof. unfold cmd_exchange. repeat case_if; reflexivity. Qed.

Lemma check_owners_error (joint : bool) (os : list text) (lu e : text) :
  check_owners joint os lu = Some e -> is_error e = true.
Proof.
  unfold check_owners.
  destruct (Nat.eqb _ 0); [intros [= <-]; reflexivity|].
  destruct (negb joint).
  - destruct (negb (Nat.eqb _ 1)); [intros [= <-]; reflexivity|].
    destruct (negb (streq _ _)); [intros [= <-]; reflexivity | discriminate].
  - destruct (negb (existsb _ _)); [intros [= <-]; reflexivity | discriminate].
Qed.

Lemma create_account_error_no_save (rnd : nat -> N) (pos : nat)
    (store lu ty csv : text) :
  match fst (cmd_create_account rnd pos store lu ty csv) with
  | Reply r => is_error r = true
  | Saved r _ => is_error r = false
  end.
Proof.
  unfold cmd_create_account.
  destruct lu; [reflexivity|].
  destruct (parse_type ty); [|reflexivity].
  destruct (Nat.leb _ _); [reflexivity|].
  destruct (gen_account_id _ _ _) as [[aid|] pos']; [|reflexivity].
  destruct (parse_owners _ _ _); [|reflexivity].
  destruct (check_owners _ _ _) eqn:E; simpl.
  - eapply check_owners_error; eauto.
  - reflexivity.
Qed.

Lemma error_keeps_store (store : text) (o : outcome) :
  match o with Reply r => is_error r = true | Saved r _ => is_error r = false end ->
  is_error (reply_of o) = true -> store_after store o = store.
Proof. destruct o; simpl; intros H1 H2; congruence. Qed.

(** C4: a WITHDRAW or an EXCHANGE of more than the account holds in the
    source currency is answered with an error and the store is left as it
    was; and whenever a mutating command (REGISTER, CREATE_ACCOUNT, DEPOSIT,
    WITHDRAW, EXCHANGE) answers with an error, [db_save_locked] has not run:
    the store is the one the command found. *)
Theorem overdraw_rejected_store_kept :
  forall (store lu accid : text) (idx : nat),
    account_index (db_load_locked store) accid = Some idx ->
    (forall (curS : text) (cur : Currency) (amount : double),
        parse_currency curS = Some cur ->
        dlt (bal_get (bal (account_at (db_load_locked store) idx)) cur) amount = true ->
        exists e,
          cmd_deposit_withdraw store lu (lit "WITHDRAW") accid curS amount = Reply e
          /\ is_error e = true
          /\ store_after store
               (cmd_deposit_withdraw store lu (lit "WITHDRAW") accid curS amount) = store)
    /\ (forall (fromS toS : text) (from : Currency) (amount : double),
        parse_currency fromS = Some from ->
        dlt (bal_get (bal (account_at (db_load_locked store) idx)) from) amount = true ->
        exists e,
          cmd_exchange store lu accid fromS toS amount = Reply e
          /\ is_error e = true
          /\ store_after store (cmd_exchange store lu accid fromS toS amount) = store)
    /\ (forall (u p : text),
        is_error (reply_of (cmd_register store u p)) = true ->
        store_after store (cmd_register store u p) = store)
    /\ (forall (rnd : nat -> N) (pos : nat) (ty csv : text),
        is_error (reply_of (fst (cmd_create_account rnd pos store lu ty csv))) = true ->
        store_after store (fst (cmd_create_account rnd pos store lu ty csv)) = store)
    /\ (forall (op acc curS : text) (amount : double),
        is_error (reply_of (cmd_deposit_withdraw store lu op acc curS amount)) = true ->
        store_after store (cmd_deposit_withdraw store lu op acc curS amount) = store)
    /\ (forall (acc fromS toS : text) (amount : double),
        is_error (reply_of (cmd_exchange store lu acc fromS toS amount)) = true ->
        store_after store (cmd_exchange store lu acc fromS toS amount) = store).
Proof.
  intros store lu accid idx Hidx. repeat split.
  - intros curS cur amount Hcur Hlt.
    pose proof (deposit_withdraw_error_no_save store lu (lit "WITHDRAW") accid curS amount) as He.
    unfold cmd_deposit_withdraw in *.
    destruct lu; [eexists; split; [reflexivity|split; reflexivity]|].
    destruct (dle amount d_zero); [eexists; split; [reflexivity|split; reflexivity]|].
    rewrite Hcur, Hidx in *.
    destruct (negb _); [eexists; split; [reflexivity|split; reflexivity]|].
    change (streq (lit "WITHDRAW") (lit "DEPOSIT")) with false in *.
    change (streq (lit "WITHDRAW") (lit "WITHDRAW")) with true in *.
    cbv iota in *. rewrite Hlt in *.
    eexists; split; [reflexivity|split; reflexivity].
  - intros fromS toS from amount Hfrom Hlt.
    unfold cmd_exchange.
    destruct lu; [eexists; split; [reflexivity|split; reflexivity]|].
    destruct (dle amount d_zero); [eexists; split; [reflexivity|split; reflexivity]|].
    rewrite Hfrom.
    destruct (parse_currency toS) as [to|]; [|eexists; split; [reflexivity|split; reflexivity]].
    destruct (cur_eqb from to); [eexists; split; [reflexivity|split; reflexivity]|].
    rewrite Hidx.
    destruct (negb _); [eexists; split; [reflexivity|split; reflexivity]|].
    rewrite Hlt. eexists; split; [reflexivity|split; reflexivity].
  - intros u p. apply error_keeps_store, register_error_no_save.
  - intros rnd pos ty csv. apply error_keeps_store, create_account_error_no_save.
  - intros op acc curS amount. apply error_keeps_store, deposit_withdraw_error_no_save.
  - intros acc fromS toS amount. apply error_keeps_store, exchange_error_no_save.
Qed.

Lemma overdraw_rejected_store_kept_witness :
  exists e,
    cmd_deposit_withdraw store_alice (lit "alice") (lit "WITHDRAW") (lit "ACC1000")
                         (lit "USD") (dec_to_double false 10001 (-2)) = Reply e
    /\ is_error e = true.
Proof.
  destruct (overdraw_rejected_store_kept store_alice (lit "alice") (lit "ACC1000") 0)
    as (H & _); [vm_compute; reflexivity|].
  destruct (H (lit "USD") CUR_USD (dec_to_double false 10001 (-2)))
    as (e & H1 & H2 & _); [vm_compute; reflexivity | vm_compute; reflexivity |].
  exists e. split; assumption.
Defined.

(** ** Access control *)

(** C5 (amended): for a logged-in caller who is not an owner of the account,
    BALANCES answers "ERR Not an owner"; DEPOSIT, WITHDRAW and EXCHANGE
    answer with an error and leave the store as it was.  That error is
    "ERR Not an owner" when the arguments pass the checks made before the
    account is looked up, and the error of the first failed check
    otherwise: "ERR amount must be > 0" when the amount is <= 0; else
    "ERR Unknown currency (USD/EUR/GBP)" when a currency code is not known;
    else, for EXCHANGE, "ERR FROMCUR and TOCUR must differ" when the two
    codes name the same currency. *)
Theorem non_owner_rejected :
  forall (store lu accid : text) (idx : nat),
    lu <> [] ->
    account_index (db_load_locked store) accid = Some idx ->
    is_owner (account_at (db_load_locked store) idx) lu = false ->
    cmd_balances store lu accid = msg "ERR Not an owner"
    /\ (forall (op curS : text) (amount : double),
          (exists e, cmd_deposit_withdraw store lu op accid curS amount = Reply e
                     /\ is_error e = true)
          /\ store_after store (cmd_deposit_withdraw store lu op accid curS amount) = store
          /\ (dle amount d_zero = false -> parse_currency curS <> None ->
              cmd_deposit_withdraw store lu op accid curS amount
              = Reply (msg "ERR Not an owner"))
          /\ (dle amount d_zero = true ->
              cmd_deposit_withdraw store lu op accid curS amount
              = Reply (msg "ERR amount must be > 0"))
          /\ (dle amount d_zero = false -> parse_currency curS = None ->
              cmd_deposit_withdraw store lu op accid curS amount
              = Reply (msg "ERR Unknown currency (USD/EUR/GBP)")))
    /\ (forall (fromS toS : text) (amount : double),
          (exists e, cmd_exchange store lu accid fromS toS amount = Reply e
                     /\ is_error e = true)
          /\ store_after store (cmd_exchange store lu accid fromS toS amount) = store
          /\ (dle amount d_zero = false ->
              forall from to, parse_currency fromS = Some from ->
                              parse_currency toS = Some to ->
                              cur_eqb from to = false ->
              cmd_exchange store lu accid fromS toS amount
              = Reply (msg "ERR Not an owner"))
          /\ (dle amount d_zero = true ->
              cmd_exchange store lu accid fromS toS amount
              = Reply (msg "ERR amount must be > 0"))
          /\ (dle amount d_zero = false ->
              parse_currency fromS = None \/ parse_currency toS = None ->
              cmd_exchange store lu accid fromS toS amount
              = Reply (msg "ERR Unknown currency (USD/EUR/GBP)"))
          /\ (dle amount d_zero = false ->
              forall from to, parse_currency fromS = Some from ->
                              parse_currency toS = Some to ->
                              cur_eqb from to = true ->
              cmd_exchange store lu accid fromS toS amount
              = Reply (msg "ERR FROMCUR and TOCUR must differ"))).
Proof.
  intros store lu accid idx Hlu Hidx Hown.
  destruct lu as [|c0 lu0]; [congruence|]. split; [|split].
  - unfold cmd_balances. now rewrite Hidx, Hown.
  - intros op curS amount.
    assert (Hr : exists e, cmd_deposit_withdraw store (c0 :: lu0) op accid curS amount = Reply e
                           /\ is_error e = true).
    { unfold cmd_deposit_withdraw.
      destruct (dle amount d_zero); [eexists; split; reflexivity|].
      destruct (parse_currency curS); [|eexists; split; reflexivity].
      rewrite Hidx, Hown. eexists; split; reflexivity. }
    split; [exact Hr|]. split; [|split; [|split]].
    + destruct Hr as (e & -> & _). reflexivity.
    + intros Hamt Hcur. unfold cmd_deposit_withdraw. rewrite Hamt.
      destruct (parse_currency curS); [|congruence].
      now rewrite Hidx, Hown.
    + intros Hamt. unfold cmd_deposit_withdraw. now rewrite Hamt.
    + intros Hamt Hcur. unfold cmd_deposit_withdraw. now rewrite Hamt, Hcur.
  - intros fromS toS amount.
    assert (Hr : exists e, cmd_exchange store (c0 :: lu0) accid fromS toS amount = Reply e
                           /\ is_error e = true).
    { unfold cmd_exchange.
      destruct (dle amount d_zero); [eexists; split; reflexivity|].
      destruct (parse_currency fromS); [|eexists; split; reflexivity].
      destruct (parse_currency toS); [|eexists; split; reflexivity].
      destruct (cur_eqb _ _); [eexists; split; reflexivity|].
      rewrite Hidx, Hown. eexists; split; reflexivity. }
    split; [exact Hr|]. split; [|split; [|split; [|split]]].
    + destruct Hr as (e & -> & _). reflexivity.
    + intros Hamt from to Hf Ht Hne. unfold cmd_exchange.
      now rewrite Hamt, Hf, Ht, Hne, Hidx, Hown.
    + intros Hamt. unfold cmd_exchange. now rewrite Hamt.
    + intros Hamt [Hn|Hn]; unfold cmd_exchange; rewrite Hamt, Hn;
        [reflexivity | now destruct (parse_currency fromS)].
    + intros Hamt from to Hf Ht He. unfold cmd_exchange.
      now rewrite Hamt, Hf, Ht, He.
Qed.

Lemma non_owner_rejected_witness :
  cmd_balances store_alice (lit "bob") (lit "ACC1000") = msg "ERR Not an owner"
  /\ cmd_deposit_withdraw store_alice (lit "bob") (lit "DEPOSIT") (lit "ACC1000")
                          (lit "USD") (dec_to_double false 5 0)
     = Reply (msg "ERR Not an owner")
  /\ cmd_deposit_withdraw store_alice (lit "bob") (lit "WITHDRAW") (lit "ACC1000")
                          (lit "XYZ") (dec_to_double false 5 0)
     = Reply (msg "ERR Unknown currency (USD/EUR/GBP)")
  /\ cmd_exchange store_alice (lit "bob") (lit "ACC1000") (lit "USD") (lit "USD")
                  (dec_to_double false 5 0)
     = Reply (msg "ERR FROMCUR and TOCUR must differ").
Proof.
  destruct (non_owner_rejected store_alice (lit "bob") (lit "ACC1000") 0)
    as (H1 & H2 & H3);
    [vm_compute; congruence | vm_compute; reflexivity | vm_compute; reflexivity |].
  split; [exact H1|]. split; [|split].
  - destruct (H2 (lit "DEPOSIT") (lit "USD") (dec_to_double false 5 0))
      as (_ & _ & H & _).
    apply H; vm_compute; congruence.
  - destruct (H2 (lit "WITHDRAW") (lit "XYZ") (dec_to_double false 5 0))
      as (_ & _ & _ & _ & H).
    apply H; vm_compute; reflexivity.
  - destruct (H3 (lit "USD") (lit "USD") (dec_to_double false 5 0))
      as (_ & _ & _ & _ & _ & H).
    apply (H eq_refl CUR_USD CUR_USD); vm_compute; reflexivity.
Defined.

(** C5 as stated fails: bob, logged in and not an owner of ACC1000, sends a
    DEPOSIT of -1 (and an EXCHANGE from USD to USD) on it; the answer is the
    error of the argument check, not the ownership error. *)
Lemma non_owner_other_error_counterexample :
  is_owner (account_at (db_load_locked store_alice) 0) (lit "bob") = false
  /\ fst (fst (handle_line no_rand (conn_bob store_alice) (L "DEPOSIT ACC1000 USD -1")))
     = msg "ERR amount must be > 0"
  /\ fst (fst (handle_line no_rand (conn_bob store_alice) (L "DEPOSIT ACC1000 USD -1")))
     <> msg "ERR Not an owner"
  /\ fst (fst (handle_line no_rand (conn_bob store_alice) (L "EXCHANGE ACC1000 USD USD 5")))
     = msg "ERR FROMCUR and TOCUR must differ"
  /\ fst (fst (handle_line no_rand (conn_bob store_alice) (L "WITHDRAW ACC1000 XYZ 5")))
     = msg "ERR Unknown currency (USD/EUR/GBP)".
Proof.
  repeat split; try (vm_compute; reflexivity).
  vm_compute. discriminate.
Qed.

(** ** Sessions *)

Lemma take_word_spec (n : nat) (s w r : text) :
  take_word n s = (w, r) ->
  s = w ++ r /\ length w <= n /\ forallb (fun c => negb (isspace c)) w = true.
Proof.
  revert s w r; induction n as [|n IH]; intros s w r; simpl.
  - intros [= <- <-]. simpl. auto with arith.
  - destruct s as [|c s]; [intros [= <- <-]; simpl; auto with arith|].
    destruct (isspace c) eqn:Hc; [intros [= <- <-]; simpl; auto with arith|].
    destruct (take_word n s) as [w' r'] eqn:Hw. intros [= <- <-].
    destruct (IH _ _ _ Hw) as (H1 & H2 & H3).
    repeat split; simpl; [now rewrite H1 | lia | now rewrite Hc, H3].
Qed.

Lemma take_word_bound (n : nat) (s w r : text) :
  take_word n s = (w, r) -> length w <= n.
Proof. intros H. now destruct (take_word_spec _ _ _ _ H) as (_ & H1 & _). Qed.

Lemma scan_s_bound (n : nat) (s w r : text) :
  scan_s n s = Some (w, r) -> w <> [] /\ length w <= n.
Proof.
  unfold scan_s. destruct (take_word n (skip_ws s)) as [w' r'] eqn:Hw.
  destruct w' as [|c w']; [discriminate|]. intros [= <- <-].
  split; [discriminate|]. eapply take_word_bound; eauto.
Qed.

Lemma sscanf_kw2_bound (kw : string) (n1 n2 : nat) (line a b : text) :
  sscanf_kw2 kw n1 n2 line = Some (a, b) ->
  (a <> [] /\ length a <= n1) /\ (b <> [] /\ length b <= n2).
Proof.
  unfold sscanf_kw2. destruct (scan_lit (lit kw) line) as [r0|]; [|discriminate].
  destruct (scan_s n1 r0) as [[a' r1]|] eqn:Ha; [|discriminate].
  destruct (scan_s n2 r1) as [[b' r2]|] eqn:Hb; [|discriminate].
  intros [= <- <-]. split; eapply scan_s_bound; eauto.
Qed.

Lemma strncpy_short (n : nat) (s : text) : length s < n -> strncpy n s = s.
Proof. intros H. unfold strncpy. apply firstn_all2. lia. Qed.

(** What [cmd_login] does, by cases. *)
Lemma cmd_login_cases (store u p lu : text) :
  (user_index (db_load_locked store) u = None
   /\ cmd_login store u p lu = (msg "ERR No such user", lu))
  \/ (exists idx, user_index (db_load_locked store) u = Some idx
        /\ password (user_at (db_load_locked store) idx) <> p
        /\ cmd_login store u p lu = (msg "ERR Wrong password", lu))
  \/ (exists idx, user_index (db_load_locked store) u = Some idx
        /\ password (user_at (db_load_locked store) idx) = p
        /\ cmd_login store u p lu = (msg "OK Logged in", strncpy USERNAME_LEN u)).
Proof.
  unfold cmd_login. destruct (user_index _ u) as [idx|]; [|now left].
  right. destruct (streq _ p) eqn:E; simpl.
  - right. exists idx. apply streq_eq in E. auto.
  - left. exists idx. apply streq_neq in E. auto.
Qed.

(** One round of the handler changes [loggedUser] only in the LOGIN branch,
    and there only when [cmd_login] answers OK. *)
Lemma handle_line_session (rnd : nat -> N) (c : Conn) (buf : text) :
  loggedUser (snd (fst (handle_line rnd c buf))) = loggedUser c
  \/ exists u p r,
       scan_s 31 (trim_newline (cstr buf)) = Some (lit "LOGIN", r)
       /\ sscanf_kw2 "LOGIN" 31 31 (trim_newline (cstr buf)) = Some (u, p)
       /\ cmd_login (store c) u p (loggedUser c) = (msg "OK Logged in", u)
       /\ handle_line rnd c buf
          = (msg "OK Logged in",
             {| loggedUser := u; store := store c; rand_pos := rand_pos c |}, true).
Proof.
  unfold handle_line.
  destruct (trim_newline (cstr buf)) as [|c0 line] eqn:El; [now left|].
  destruct (scan_s 31 (c0 :: line)) as [[cmd r]|] eqn:Es; [|now left].
  destruct (streq cmd (lit "HELP")); [now left|].
  destruct (streq cmd (lit "RATES")); [now left|].
  destruct (streq cmd (lit "REGISTER")).
  { destruct (sscanf_kw2 "REGISTER" 31 31 _) as [[u p]|]; now left. }
  destruct (streq cmd (lit "LOGIN")) eqn:Ecmd.
  { apply streq_eq in Ecmd; subst cmd.
    destruct (sscanf_kw2 "LOGIN" 31 31 _) as [[u p]|] eqn:Ep; [|now left].
    destruct (sscanf_kw2_bound _ _ _ _ _ _ Ep) as ((_ & Hu) & _).
    destruct (cmd_login_cases (store c) u p (loggedUser c))
      as [(_ & ->)|[(idx & _ & _ & ->)|(idx & _ & _ & E)]]; [now left | now left |].
    rewrite strncpy_short in E by (unfold USERNAME_LEN; lia).
    rewrite E. right. exists u, p, r. auto. }
  destruct (streq cmd (lit "CREATE_ACCOUNT")).
  { destruct (sscanf_kw2 "CREATE_ACCOUNT" 15 255 _) as [[ty csv]|]; [|now left].
    destruct (cmd_create_account _ _ _ _ _ _). now left. }
  destruct (streq cmd (lit "LIST_ACCOUNTS")); [now left|].
  destruct (streq cmd (lit "BALANCES")).
  { destruct (sscanf_balances _); now left. }
  destruct (streq cmd (lit "DEPOSIT") || streq cmd (lit "WITHDRAW")).
  { destruct (sscanf_depwd _) as [[[[op accid] curS] amount]|]; now left. }
  destruct (streq cmd (lit "EXCHANGE")).
  { destruct (sscanf_exchange _) as [[[[accid fromS] toS] amount]|]; now left. }
  destruct (streq cmd (lit "QUIT")); now left.
Qed.

(** A REGISTER line is answered by [cmd_register] (or the usage error) and
    the handler keeps its session. *)
Lemma handle_line_register (rnd : nat -> N) (c : Conn) (buf r : text) :
  scan_s 31 (trim_newline (cstr buf)) = Some (lit "REGISTER", r) ->
  loggedUser (snd (fst (handle_line rnd c buf))) = loggedUser c
  /\ rand_pos (snd (fst (handle_line rnd c buf))) = rand_pos c
  /\ match sscanf_kw2 "REGISTER" 31 31 (trim_newline (cstr buf)) with
     | Some (u, p) =>
         fst (fst (handle_line rnd c buf)) = reply_of (cmd_register (store c) u p)
         /\ store (snd (fst (handle_line rnd c buf)))
            = store_after (store c) (cmd_register (store c) u p)
     | None =>
         fst (fst (handle_line rnd c buf)) = msg "ERR Usage: REGISTER <user> <pass>"
         /\ store (snd (fst (handle_line rnd c buf))) = store c
     end.
Proof.
  intros Es. unfold handle_line.
  destruct (trim_newline (cstr buf)) as [|c0 line] eqn:El; [discriminate|].
  rewrite Es.
  change (streq (lit "REGISTER") (lit "HELP")) with false.
  change (streq (lit "REGISTER") (lit "RATES")) with false.
  change (streq (lit "REGISTER") (lit "REGISTER")) with true.
  cbv iota.
  destruct (sscanf_kw2 "REGISTER" 31 31 _) as [[u p]|]; simpl; auto.
Qed.

(** C9: the handler's session changes only in a round that answers
    "OK Logged in" to a LOGIN line; a REGISTER line never changes it (a
    connection that was not logged in is still not logged in afterwards);
    and a REGISTER of an existing username, or with 200 users already
    stored, is answered with an error and the store, hence the set of
    users, is the one the command found. *)
Theorem register_keeps_session :
  forall (rnd : nat -> N) (c : Conn) (buf : text),
    (loggedUser (snd (fst (handle_line rnd c buf))) <> loggedUser c ->
       fst (fst (handle_line rnd c buf)) = msg "OK Logged in"
       /\ exists u p r,
            scan_s 31 (trim_newline (cstr buf)) = Some (lit "LOGIN", r)
            /\ sscanf_kw2 "LOGIN" 31 31 (trim_newline (cstr buf)) = Some (u, p)
            /\ loggedUser (snd (fst (handle_line rnd c buf))) = u
            /\ exists idx, user_index (db_load_locked (store c)) u = Some idx
                           /\ password (user_at (db_load_locked (store c)) idx) = p)
    /\ (forall r, scan_s 31 (trim_newline (cstr buf)) = Some (lit "REGISTER", r) ->
          loggedUser (snd (fst (handle_line rnd c buf))) = loggedUser c
          /\ (loggedUser c = [] -> loggedUser (snd (fst (handle_line rnd c buf))) = []))
    /\ (forall u p r idx,
          scan_s 31 (trim_newline (cstr buf)) = Some (lit "REGISTER", r) ->
          sscanf_kw2 "REGISTER" 31 31 (trim_newline (cstr buf)) = Some (u, p) ->
          user_index (db_load_locked (store c)) u = Some idx ->
          handle_line rnd c buf = (msg "ERR User already exists", c, true))
    /\ (forall u p r,
          scan_s 31 (trim_newline (cstr buf)) = Some (lit "REGISTER", r) ->
          sscanf_kw2 "REGISTER" 31 31 (trim_newline (cstr buf)) = Some (u, p) ->
          user_index (db_load_locked (store c)) u = None ->
          MAX_USERS <= length (users (db_load_locked (store c))) ->
          handle_line rnd c buf = (msg "ERR User limit reached", c, true)).
Proof.
  intros rnd c buf.
  assert (Hreg : forall u p r,
             scan_s 31 (trim_newline (cstr buf)) = Some (lit "REGISTER", r) ->
             sscanf_kw2 "REGISTER" 31 31 (trim_newline (cstr buf)) = Some (u, p) ->
             handle_line rnd c buf
             = (reply_of (cmd_register (store c) u p),
                with_store c (cmd_register (store c) u p), true)).
  { intros u p r Hs Hp. unfold handle_line.
    destruct (trim_newline (cstr buf)) as [|c0 line] eqn:El; [discriminate|].
    rewrite Hs.
    change (streq (lit "REGISTER") (lit "HELP")) with false.
    change (streq (lit "REGISTER") (lit "RATES")) with false.
    change (streq (lit "REGISTER") (lit "REGISTER")) with true.
    cbv iota. now rewrite Hp. }
  split; [|split; [|split]].
  - intros Hne.
    destruct (handle_line_session rnd c buf) as [E|(u & p & r & H1 & H2 & H3 & H4)];
      [congruence|].
    rewrite H4. simpl. split; [reflexivity|].
    exists u, p, r. repeat split; auto.
    destruct (cmd_login_cases (store c) u p (loggedUser c))
      as [(_ & E)|[(idx & _ & _ & E)|(idx & Hi & Hp & _)]];
      try (rewrite E in H3; discriminate).
    exists idx; auto.
  - intros r Hs. destruct (handle_line_register rnd c buf r Hs) as (E & _).
    split; [exact E|]. intros E0. now rewrite E.
  - intros u p r idx Hs Hp Hu. rewrite (Hreg u p r Hs Hp).
    unfold cmd_register. rewrite Hu. simpl. now destruct c.
  - intros u p r Hs Hp Hu Hfull. rewrite (Hreg u p r Hs Hp).
    unfold cmd_register. rewrite Hu.
    apply Nat.leb_le in Hfull. rewrite Hfull. simpl. now destruct c.
Qed.

(** C10: a LOGIN line for an unknown user or with a wrong password is
    answered with an error and leaves the handler's state, its session
    included, exactly as it was (a connection logged in as someone stays
    logged in as the same user); a LOGIN line with the stored password is
    answered "OK Logged in" and binds the session to the username of the
    line, whoever was logged in before. *)
Theorem login_session_effect :
  forall (rnd : nat -> N) (c : Conn) (buf u p r : text),
    scan_s 31 (trim_newline (cstr buf)) = Some (lit "LOGIN", r) ->
    sscanf_kw2 "LOGIN" 31 31 (trim_newline (cstr buf)) = Some (u, p) ->
    (user_index (db_load_locked (store c)) u = None ->
       handle_line rnd c buf = (msg "ERR No such user", c, true))
    /\ (forall idx, user_index (db_load_locked (store c)) u = Some idx ->
          password (user_at (db_load_locked (store c)) idx) <> p ->
          handle_line rnd c buf = (msg "ERR Wrong password", c, true))
    /\ (forall idx, user_index (db_load_locked (store c)) u = Some idx ->
          password (user_at (db_load_locked (store c)) idx) = p ->
          handle_line rnd c buf
          = (msg "OK Logged in",
             {| loggedUser := u; store := store c; rand_pos := rand_pos c |}, true)).
Proof.
  intros rnd c buf u p r Hs Hp.
  destruct (sscanf_kw2_bound _ _ _ _ _ _ Hp) as ((_ & Hu) & _).
  assert (Hh : handle_line rnd c buf
               = let (rp, lu) := cmd_login (store c) u p (loggedUser c) in
                 (rp, {| loggedUser := lu; store := store c; rand_pos := rand_pos c |}, true)).
  { unfold handle_line.
    destruct (trim_newline (cstr buf)) as [|c0 line] eqn:El; [discriminate|].
    rewrite Hs.
    change (streq (lit "LOGIN") (lit "HELP")) with false.
    change (streq (lit "LOGIN") (lit "RATES")) with false.
    change (streq (lit "LOGIN") (lit "REGISTER")) with false.
    change (streq (lit "LOGIN") (lit "LOGIN")) with true.
    cbv iota. now rewrite Hp. }
  rewrite Hh. unfold cmd_login.
  rewrite (strncpy_short USERNAME_LEN u) by (unfold USERNAME_LEN; lia).
  split; [|split].
  - intros ->. now destruct c.
  - intros idx -> Hne. apply streq_neq in Hne. rewrite Hne. simpl. now destruct c.
  - intros idx -> He. apply streq_eq in He. rewrite He. reflexivity.
Qed.

Lemma login_session_effect_witness :
  handle_line no_rand (conn_alice store_alice) (L "LOGIN bob pw2")
  = (msg "OK Logged in", conn_bob store_alice, true)
  /\ handle_line no_rand (conn_alice store_alice) (L "LOGIN bob nope")
     = (msg "ERR Wrong password", conn_alice store_alice, true).
Proof.
  split.
  - destruct (login_session_effect no_rand (conn_alice store_alice) (L "LOGIN bob pw2")
                (lit "bob") (lit "pw2") (lit " bob pw2"))
      as (_ & _ & H); [vm_compute; reflexivity | vm_compute; reflexivity |].
    apply (H 1); vm_compute; reflexivity.
  - destruct (login_session_effect no_rand (conn_alice store_alice) (L "LOGIN bob nope")
                (lit "bob") (lit "nope") (lit " bob nope"))
      as (_ & H & _); [vm_compute; reflexivity | vm_compute; reflexivity |].
    apply (H 1); vm_compute; [reflexivity | discriminate].
Defined.

(** ** Decimal digits *)

Lemma digit_char_isdigit (d : Z) : (0 <= d <= 9)%Z -> isdigit (digit_char d) = true.
Proof.
  intros H.
  assert (d = 0 \/ d = 1 \/ d = 2 \/ d = 3 \/ d = 4 \/ d = 5 \/ d = 6 \/ d = 7
          \/ d = 8 \/ d = 9)%Z as E by lia.
  repeat (destruct E as [->|E]; [reflexivity|]). now subst.
Qed.

Lemma digit_val_char (d : Z) : (0 <= d <= 9)%Z -> digit_val (digit_char d) = d.
Proof.
  intros H.
  assert (d = 0 \/ d = 1 \/ d = 2 \/ d = 3 \/ d = 4 \/ d = 5 \/ d = 6 \/ d = 7
          \/ d = 8 \/ d = 9)%Z as E by lia.
  repeat (destruct E as [->|E]; [reflexivity|]). now subst.
Qed.

Lemma digit_char_zero (d : Z) :
  (0 <= d <= 9)%Z -> Ascii.eqb (digit_char d) (digit_char 0) = true -> d = 0%Z.
Proof.
  intros H.
  assert (d = 0 \/ d = 1 \/ d = 2 \/ d = 3 \/ d = 4 \/ d = 5 \/ d = 6 \/ d = 7
          \/ d = 8 \/ d = 9)%Z as E by lia.
  repeat (destruct E as [->|E]; [vm_compute; congruence|]). subst. vm_compute; congruence.
Qed.

Lemma mod10_range (n : Z) : (0 <= n mod 10 <= 9)%Z.
Proof. pose proof (Z.mod_pos_bound n 10). lia. Qed.

Lemma fixed_digits_length (p : nat) (n : Z) : length (fixed_digits p n) = p.
Proof.
  revert n; induction p as [|p IH]; intros n; simpl; [reflexivity|].
  rewrite length_app, IH. simpl. lia.
Qed.

Lemma fixed_digits_isdigit (p : nat) (n : Z) : forallb isdigit (fixed_digits p n) = true.
Proof.
  revert n; induction p as [|p IH]; intros n; simpl; [reflexivity|].
  rewrite forallb_app, IH. cbn [forallb andb].
  now rewrite digit_char_isdigit by apply mod10_range.
Qed.

(** The leading digit of a fixed-width rendering. *)
Lemma fixed_digits_head (q : nat) (n : Z) :
  fixed_digits (S q) n
  = digit_char ((n / 10 ^ Z.of_nat q) mod 10) :: fixed_digits q n.
Proof.
  revert n; induction q as [|q IH]; intros n.
  - simpl. now rewrite Z.div_1_r.
  - change (fixed_digits (S (S q)) n)
      with (fixed_digits (S q) (n / 10) ++ [digit_char (n mod 10)]).
    rewrite IH. simpl app. f_equal.
    rewrite Z.div_div by lia.
    replace (10 * 10 ^ Z.of_nat q)%Z with (10 ^ Z.of_nat (S q))%Z; [reflexivity|].
    rewrite Nat2Z.inj_succ, Z.pow_succ_r by lia. reflexivity.
Qed.

Lemma strip_zeros_nonzero (c : ascii) (s : text) :
  Ascii.eqb c (digit_char 0) = false -> strip_zeros (c :: s) = c :: s.
Proof. intros H. simpl. destruct s; [reflexivity|]. now rewrite H. Qed.

Lemma strip_zeros_zero (s : text) :
  s <> [] -> strip_zeros (digit_char 0 :: s) = strip_zeros s.
Proof. destruct s; [congruence|]. reflexivity. Qed.

Lemma fixed_digits_nonnil (p : nat) (n : Z) : p <> 0 -> fixed_digits p n <> [].
Proof.
  intros Hp E. apply (f_equal (@length ascii)) in E.
  rewrite fixed_digits_length in E. simpl in E. lia.
Qed.

(** Extra width only adds leading zeros, which are stripped. *)
Lemma strip_fixed_wider (p k : nat) (n : Z) :
  p <> 0 -> (0 <= n < 10 ^ Z.of_nat p)%Z ->
  strip_zeros (fixed_digits (k + p) n) = strip_zeros (fixed_digits p n).
Proof.
  intros Hp Hn. induction k as [|k IH]; [reflexivity|].
  change (S k + p) with (S (k + p)). rewrite fixed_digits_head.
  assert (Hlt : (n < 10 ^ Z.of_nat (k + p))%Z).
  { apply Z.lt_le_trans with (10 ^ Z.of_nat p)%Z; [lia|].
    apply Z.pow_le_mono_r; lia. }
  rewrite Z.div_small by lia. rewrite Z.mod_0_l by lia.
  rewrite strip_zeros_zero by (apply fixed_digits_nonnil; lia). exact IH.
Qed.

Lemma lt_pow10_log2 (n : Z) : (0 <= n)%Z -> (n < 10 ^ Z.of_nat (S (Z.to_nat (Z.log2 n))))%Z.
Proof.
  intros Hn. destruct (Z.eq_dec n 0%Z) as [->|Hz]; [reflexivity|].
  pose proof (Z.log2_nonneg n) as Hl.
  rewrite Nat2Z.inj_succ, Z2Nat.id by lia.
  apply Z.lt_le_trans with (2 ^ Z.succ (Z.log2 n))%Z.
  - apply Z.log2_spec. lia.
  - apply Z.pow_le_mono_l. lia.
Qed.

(** [dec_digits] does not depend on the width it starts from. *)
Lemma dec_digits_fixed (p : nat) (n : Z) :
  p <> 0 -> (0 <= n < 10 ^ Z.of_nat p)%Z ->
  dec_digits n = strip_zeros (fixed_digits p n).
Proof.
  intros Hp Hn. unfold dec_digits.
  set (q := S (Z.to_nat (Z.log2 n))).
  assert (Hq : (0 <= n < 10 ^ Z.of_nat q)%Z) by (split; [lia | apply lt_pow10_log2; lia]).
  destruct (Nat.le_ge_cases p q) as [Hle|Hle].
  - replace q with ((q - p) + p) by lia. now apply strip_fixed_wider.
  - symmetry. replace p with ((p - q) + q) by lia. apply strip_fixed_wider; [subst q; lia|exact Hq].
Qed.

(** A number with exactly [q + 1] digits prints as its fixed rendering. *)
Lemma dec_digits_exact (q : nat) (n : Z) :
  (10 ^ Z.of_nat q <= n < 10 ^ Z.of_nat (S q))%Z ->
  dec_digits n = fixed_digits (S q) n.
Proof.
  intros Hn.
  assert (H0 : (0 < 10 ^ Z.of_nat q)%Z) by (apply Z.pow_pos_nonneg; lia).
  rewrite (dec_digits_fixed (S q)) by lia.
  rewrite fixed_digits_head. apply strip_zeros_nonzero.
  assert (Hd : (1 <= n / 10 ^ Z.of_nat q < 10)%Z).
  { split.
    - apply Z.div_le_lower_bound; lia.
    - apply Z.div_lt_upper_bound; [lia|].
      rewrite Nat2Z.inj_succ, Z.pow_succ_r in Hn by lia. lia. }
  rewrite Z.mod_small by lia.
  destruct (Ascii.eqb _ _) eqn:E; [|reflexivity].
  apply digit_char_zero in E; lia.
Qed.

(** ** Account ids *)

Lemma gen_candidate_format (r : N) :
  snprintf ACCID_LEN (lit "ACC" ++ fmt_d (1000 + Z.of_N r mod 9000))
  = lit "ACC" ++ fixed_digits 4 (1000 + Z.of_N r mod 9000).
Proof.
  pose proof (Z.mod_pos_bound (Z.of_N r) 9000 ltac:(lia)) as Hm.
  set (n := (1000 + Z.of_N r mod 9000)%Z) in *.
  unfold fmt_d. replace (n <? 0)%Z with false by (symmetry; apply Z.ltb_ge; lia).
  rewrite (dec_digits_exact 3) by (change (10 ^ Z.of_nat 3)%Z with 1000%Z;
                                   change (10 ^ Z.of_nat 4)%Z with 10000%Z; lia).
  unfold snprintf. apply firstn_all2.
  rewrite length_app, fixed_digits_length. simpl. lia.
Qed.

Lemma gen_loop_spec (db : DB) (rnd : nat -> N) (tries pos : nat) :
  match gen_loop rnd db tries pos with
  | (Some aid, pos') =>
      pos < pos' <= pos + tries
      /\ acc_id_format aid
      /\ account_index db aid = None
  | (None, pos') => pos' = pos + tries
  end.
Proof.
  revert pos; induction tries as [|t IH]; intros pos; [simpl; lia|].
  cbn [gen_loop]. rewrite gen_candidate_format.
  destruct (account_index db _) eqn:Ha.
  - specialize (IH (S pos)). destruct (gen_loop rnd db t (S pos)) as [[aid|] pos'].
    + destruct IH as (H1 & H2 & H3). repeat split; auto; lia.
    + lia.
  - repeat split; [lia | lia | | exact Ha].
    eexists. split; [reflexivity|].
    split; [apply fixed_digits_length | apply fixed_digits_isdigit].
Qed.

Lemma account_index_None_ids (db : DB) (aid : text) :
  account_index db aid = None -> forall a, In a (accounts db) -> id a <> aid.
Proof.
  intros H a Ha E. unfold account_index in H.
  rewrite find_index_None in H. specialize (H a Ha). simpl in H.
  rewrite E, streq_refl in H. discriminate.
Qed.

Lemma check_owners_not_genid (joint : bool) (os : list text) (lu e : text) :
  check_owners joint os lu = Some e -> e <> msg "ERR Could not generate account id".
Proof.
  unfold check_owners.
  destruct (Nat.eqb _ 0); [intros [= <-] E; vm_compute in E; discriminate E|].
  destruct (negb joint).
  - destruct (negb (Nat.eqb _ 1)); [intros [= <-] E; vm_compute in E; discriminate E|].
    destruct (negb (streq _ _)); [intros [= <-] E; vm_compute in E; discriminate E|].
    discriminate.
  - destruct (negb (existsb _ _)); [intros [= <-] E; vm_compute in E; discriminate E|].
    discriminate.
Qed.

Lemma gen_loop_step (db : DB) (rnd : nat -> N) (tries pos : nat) :
  gen_loop rnd db (S tries) pos
  = if taken db (gen_candidate rnd pos) then gen_loop rnd db tries (S pos)
    else (Some (gen_candidate rnd pos), S pos).
Proof.
  cbn [gen_loop]. unfold taken, gen_candidate.
  now destruct (account_index db _).
Qed.

(** The loop returns the first candidate that is not taken. *)
Lemma gen_loop_first (db : DB) (rnd : nat -> N) (tries pos k : nat) :
  k < tries ->
  (forall j, j < k -> taken db (gen_candidate rnd (pos + j)) = true) ->
  taken db (gen_candidate rnd (pos + k)) = false ->
  gen_loop rnd db tries pos = (Some (gen_candidate rnd (pos + k)), S (pos + k)).
Proof.
  revert pos k; induction tries as [|t IH]; intros pos k Hk Hbefore Hfree; [lia|].
  rewrite gen_loop_step. destruct k as [|k].
  - rewrite Nat.add_0_r in *. now rewrite Hfree.
  - pose proof (Hbefore 0 ltac:(lia)) as H0. rewrite Nat.add_0_r in H0. rewrite H0.
    replace (pos + S k) with (S pos + k) in * by lia.
    apply IH; [lia| |exact Hfree].
    intros j Hj. specialize (Hbefore (S j) ltac:(lia)).
    now replace (pos + S j) with (S pos + j) in Hbefore by lia.
Qed.

(** When every candidate is taken the loop gives up after [tries] rounds. *)
Lemma gen_loop_exhausted (db : DB) (rnd : nat -> N) (tries pos : nat) :
  (forall j, j < tries -> taken db (gen_candidate rnd (pos + j)) = true) ->
  gen_loop rnd db tries pos = (None, pos + tries).
Proof.
  revert pos; induction tries as [|t IH]; intros pos Hall.
  - cbn. now rewrite Nat.add_0_r.
  - rewrite gen_loop_step.
    pose proof (Hall 0 ltac:(lia)) as H0. rewrite Nat.add_0_r in H0. rewrite H0.
    rewrite IH; [f_equal; lia|].
    intros j Hj. specialize (Hall (S j) ltac:(lia)).
    now replace (pos + S j) with (S pos + j) in Hall by lia.
Qed.

(** Every result of the loop is one of the two above. *)
Lemma gen_loop_cases (db : DB) (rnd : nat -> N) (tries pos : nat) :
  (exists k, k < tries
             /\ (forall j, j < k -> taken db (gen_candidate rnd (pos + j)) = true)
             /\ taken db (gen_candidate rnd (pos + k)) = false
             /\ gen_loop rnd db tries pos
                = (Some (gen_candidate rnd (pos + k)), S (pos + k)))
  \/ ((forall j, j < tries -> taken db (gen_candidate rnd (pos + j)) = true)
      /\ gen_loop rnd db tries pos = (None, pos + tries)).
Proof.
  revert pos; induction tries as [|t IH]; intros pos.
  - right. split; [intros j Hj; lia|]. cbn. now rewrite Nat.add_0_r.
  - destruct (taken db (gen_candidate rnd pos)) eqn:E0.
    + destruct (IH (S pos)) as [(k & Hk & Hb & Hf & _)|(Hall & _)].
      * left. exists (S k).
        assert (Hb' : forall j, j < S k -> taken db (gen_candidate rnd (pos + j)) = true).
        { intros [|j] Hj; [now rewrite Nat.add_0_r|].
          replace (pos + S j) with (S pos + j) by lia. apply Hb. lia. }
        assert (Hf' : taken db (gen_candidate rnd (pos + S k)) = false)
          by (now replace (pos + S k) with (S pos + k) by lia).
        repeat split; [lia | exact Hb' | exact Hf'|].
        apply gen_loop_first; [lia | exact Hb' | exact Hf'].
      * right.
        assert (Hall' : forall j, j < S t -> taken db (gen_candidate rnd (pos + j)) = true).
        { intros [|j] Hj; [now rewrite Nat.add_0_r|].
          replace (pos + S j) with (S pos + j) by lia. apply Hall. lia. }
        split; [exact Hall'|]. now apply gen_loop_exhausted.
    + left. exists 0. rewrite Nat.add_0_r.
      repeat split; [lia | intros j Hj; lia | exact E0|].
      rewrite gen_loop_step. now rewrite E0.
Qed.

Lemma gen_candidate_number (rnd : nat -> N) (k : nat) :
  gen_candidate rnd k = lit "ACC" ++ fmt_d (1000 + Z.of_N (rnd k) mod 9000)
  /\ (1000 <= 1000 + Z.of_N (rnd k) mod 9000 <= 9999)%Z
  /\ acc_id_format (gen_candidate rnd k).
Proof.
  pose proof (Z.mod_pos_bound (Z.of_N (rnd k)) 9000 ltac:(lia)) as Hm.
  pose proof (gen_candidate_format (rnd k)) as E. fold (gen_candidate rnd k) in E.
  split; [|split; [lia|]].
  - rewrite E. f_equal. unfold fmt_d.
    replace (1000 + Z.of_N (rnd k) mod 9000 <? 0)%Z with false
      by (symmetry; apply Z.ltb_ge; lia).
    symmetry. apply (dec_digits_exact 3).
    change (10 ^ Z.of_nat 3)%Z with 1000%Z. change (10 ^ Z.of_nat 4)%Z with 10000%Z. lia.
  - rewrite E. eexists. split; [reflexivity|].
    split; [apply fixed_digits_length | apply fixed_digits_isdigit].
Qed.

(** C8: every round of [gen_account_id] makes a candidate "ACC" followed by
    the four decimal digits of 1000 + rand() % 9000 and looks it up in the
    snapshot.  The function returns the first candidate that is the id of
    no account, having called rand() once per round; when the candidates of
    all [GEN_TRIES] = 10000 rounds are taken it fails, and these are its
    only two results, so it makes at most 10000 attempts.  An id it returns
    differs from every id of the snapshot.  CREATE_ACCOUNT answers "ERR
    Could not generate account id", without saving, exactly when the
    generation failed (and the checks before it passed); the account it
    creates carries the generated id, and the reply names it. *)
Theorem gen_account_id_bounded_fresh :
  forall (rnd : nat -> N) (pos : nat) (store : text),
    (snd (gen_account_id rnd (db_load_locked store) pos) <= pos + GEN_TRIES)
    /\ (forall aid, fst (gen_account_id rnd (db_load_locked store) pos) = Some aid ->
          acc_id_format aid
          /\ account_index (db_load_locked store) aid = None
          /\ forall a, In a (accounts (db_load_locked store)) -> id a <> aid)
    /\ (forall lu ty csv,
          lu <> [] -> parse_type ty <> None ->
          length (accounts (db_load_locked store)) < MAX_ACCOUNTS ->
          fst (gen_account_id rnd (db_load_locked store) pos) = None ->
          cmd_create_account rnd pos store lu ty csv
          = (Reply (msg "ERR Could not generate account id"), pos + GEN_TRIES))
    /\ (forall lu ty csv,
          reply_of (fst (cmd_create_account rnd pos store lu ty csv))
          = msg "ERR Could not generate account id" ->
          fst (gen_account_id rnd (db_load_locked store) pos) = None
          /\ store_after store (fst (cmd_create_account rnd pos store lu ty csv)) = store)
    /\ (forall lu ty csv resp db',
          fst (cmd_create_account rnd pos store lu ty csv) = Saved resp db' ->
          exists a, accounts db' = accounts (db_load_locked store) ++ [a]
                    /\ acc_id_format (id a)
                    /\ forall b, In b (accounts (db_load_locked store)) -> id b <> id a)
    /\ (forall k,
          gen_candidate rnd k = lit "ACC" ++ fmt_d (1000 + Z.of_N (rnd k) mod 9000)
          /\ (1000 <= 1000 + Z.of_N (rnd k) mod 9000 <= 9999)%Z
          /\ acc_id_format (gen_candidate rnd k))
    /\ (forall k,
          k < GEN_TRIES ->
          (forall j, j < k ->
             account_index (db_load_locked store) (gen_candidate rnd (pos + j)) <> None) ->
          account_index (db_load_locked store) (gen_candidate rnd (pos + k)) = None ->
          gen_account_id rnd (db_load_locked store) pos
          = (Some (gen_candidate rnd (pos + k)), S (pos + k)))
    /\ ((forall j, j < GEN_TRIES ->
            account_index (db_load_locked store) (gen_candidate rnd (pos + j)) <> None) ->
        gen_account_id rnd (db_load_locked store) pos = (None, pos + GEN_TRIES))
    /\ (forall aid pos',
          gen_account_id rnd (db_load_locked store) pos = (Some aid, pos') ->
          exists k, k < GEN_TRIES /\ aid = gen_candidate rnd (pos + k) /\ pos' = S (pos + k)
                    /\ forall j, j < k ->
                         account_index (db_load_locked store)
                                       (gen_candidate rnd (pos + j)) <> None)
    /\ (forall pos',
          gen_account_id rnd (db_load_locked store) pos = (None, pos') ->
          forall j, j < GEN_TRIES ->
            account_index (db_load_locked store) (gen_candidate rnd (pos + j)) <> None)
    /\ (forall lu ty csv resp db',
          fst (cmd_create_account rnd pos store lu ty csv) = Saved resp db' ->
          exists aid a,
            fst (gen_account_id rnd (db_load_locked store) pos) = Some aid
            /\ accounts db' = accounts (db_load_locked store) ++ [a]
            /\ id a = aid
            /\ resp = lit "OK Created " ++ aid ++ nl ++ lit "END" ++ nl).
Proof.
  intros rnd pos store.
  assert (T : forall aid, taken (db_load_locked store) aid = true
                          <-> account_index (db_load_locked store) aid <> None).
  { intros aid. unfold taken. destruct (account_index _ aid); split; congruence. }
  assert (F : forall aid, taken (db_load_locked store) aid = false
                          <-> account_index (db_load_locked store) aid = None).
  { intros aid. unfold taken. destruct (account_index _ aid); split; congruence. }
  assert (Hexact :
    (forall k,
        k < GEN_TRIES ->
        (forall j, j < k ->
           account_index (db_load_locked store) (gen_candidate rnd (pos + j)) <> None) ->
        account_index (db_load_locked store) (gen_candidate rnd (pos + k)) = None ->
        gen_account_id rnd (db_load_locked store) pos
        = (Some (gen_candidate rnd (pos + k)), S (pos + k)))
    /\ ((forall j, j < GEN_TRIES ->
            account_index (db_load_locked store) (gen_candidate rnd (pos + j)) <> None) ->
        gen_account_id rnd (db_load_locked store) pos = (None, pos + GEN_TRIES))
    /\ (forall aid pos',
          gen_account_id rnd (db_load_locked store) pos = (Some aid, pos') ->
          exists k, k < GEN_TRIES /\ aid = gen_candidate rnd (pos + k) /\ pos' = S (pos + k)
                    /\ forall j, j < k ->
                         account_index (db_load_locked store)
                                       (gen_candidate rnd (pos + j)) <> None)
    /\ (forall pos',
          gen_account_id rnd (db_load_locked store) pos = (None, pos') ->
          forall j, j < GEN_TRIES ->
            account_index (db_load_locked store) (gen_candidate rnd (pos + j)) <> None)).
  { unfold gen_account_id. split; [|split; [|split]].
    - intros k Hk Hb Hf. apply gen_loop_first; [exact Hk| |now apply F].
      intros j Hj. apply T. now apply Hb.
    - intros Hall. apply gen_loop_exhausted. intros j Hj. apply T. now apply Hall.
    - intros aid pos' E.
      destruct (gen_loop_cases (db_load_locked store) rnd GEN_TRIES pos)
        as [(k & Hk & Hb & _ & E')|(_ & E')]; rewrite E' in E; [|discriminate].
      injection E as <- <-. exists k. repeat split; [exact Hk|].
      intros j Hj. apply T. now apply Hb.
    - intros pos' E.
      destruct (gen_loop_cases (db_load_locked store) rnd GEN_TRIES pos)
        as [(k & _ & _ & _ & E')|(Hall & _)]; [rewrite E' in E; discriminate|].
      intros j Hj. apply T. now apply Hall. }
  destruct Hexact as (X1 & X2 & X3 & X4).
  pose proof (gen_loop_spec (db_load_locked store) rnd GEN_TRIES pos) as Hg.
  fold (gen_account_id rnd (db_load_locked store) pos) in Hg.
  assert (Hcreate : forall lu ty csv resp db',
            fst (cmd_create_account rnd pos store lu ty csv) = Saved resp db' ->
            exists aid a,
              fst (gen_account_id rnd (db_load_locked store) pos) = Some aid
              /\ accounts db' = accounts (db_load_locked store) ++ [a]
              /\ id a = aid
              /\ resp = lit "OK Created " ++ aid ++ nl ++ lit "END" ++ nl).
  { intros lu ty csv resp db'. unfold cmd_create_account.
    destruct lu; [discriminate|].
    destruct (parse_type ty); [|discriminate].
    destruct (Nat.leb _ _); [discriminate|].
    destruct (gen_account_id rnd (db_load_locked store) pos) as [[aid|] p1];
      [|discriminate].
    destruct Hg as (_ & Hfmt & _).
    destruct (parse_owners _ _ _); [|discriminate].
    destruct (check_owners _ _ _); [discriminate|]. cbn [fst]. intros [= <- <-].
    exists aid. eexists. split; [reflexivity|]. split; [reflexivity|].
    split; [reflexivity|].
    destruct Hfmt as (ds & -> & Hl & _).
    unfold snprintf. apply firstn_all2. rewrite !length_app, Hl. cbn. lia. }
  destruct (gen_account_id rnd (db_load_locked store) pos) as [[aid|] pos'] eqn:Eg;
    simpl fst; simpl snd.
  - destruct Hg as (H1 & H2 & H3). split; [lia|].
    split; [|split; [|split; [|split; [|split; [|split; [|split; [|split; [|split]]]]]]]];
      auto using gen_candidate_number.
    + intros aid' [= <-]. repeat split; auto. now apply account_index_None_ids.
    + intros; discriminate.
    + intros lu ty csv. unfold cmd_create_account.
      destruct lu; [closed_neq|].
      destruct (parse_type ty); [|closed_neq].
      destruct (Nat.leb _ _); [closed_neq|].
      rewrite Eg. destruct (parse_owners _ _ _); [|closed_neq].
      destruct (check_owners _ _ _) eqn:Ec; simpl.
      * intros E. exfalso. eapply check_owners_not_genid; eauto.
      * intros E. exfalso. revert E. unfold snprintf. simpl. discriminate.
    + intros lu ty csv resp db'. unfold cmd_create_account.
      destruct lu; [discriminate|].
      destruct (parse_type ty); [|discriminate].
      destruct (Nat.leb _ _); [discriminate|].
      rewrite Eg. destruct (parse_owners _ _ _); [|discriminate].
      destruct (check_owners _ _ _); [discriminate|]. simpl. intros [= <- <-].
      eexists. split; [reflexivity|]. simpl. split; [exact H2|].
      now apply account_index_None_ids.
  - split; [lia|].
    split; [|split; [|split; [|split; [|split; [|split; [|split; [|split; [|split]]]]]]]];
      auto using gen_candidate_number.
    + intros; discriminate.
    + intros lu ty csv Hlu Hty Hn _. unfold cmd_create_account.
      destruct lu; [congruence|]. destruct (parse_type ty); [|congruence].
      apply Nat.leb_gt in Hn. rewrite Hn, Eg. now rewrite Hg.
    + intros lu ty csv _. split; [reflexivity|].
      unfold cmd_create_account.
      destruct lu; [reflexivity|]. destruct (parse_type ty); [|reflexivity].
      destruct (Nat.leb _ _); [reflexivity|]. now rewrite Eg.
    + intros lu ty csv resp db'. unfold cmd_create_account.
      destruct lu; [discriminate|]. destruct (parse_type ty); [|discriminate].
      destruct (Nat.leb _ _); [discriminate|]. rewrite Eg. discriminate.
Qed.

(** With ACC1000 in the store and a rand() that returns 0, 1, 2, ..., the
    first candidate ACC1000 is taken and the second, ACC1001, is returned
    after two calls of rand(). *)
Lemma gen_account_id_bounded_fresh_witness :
  gen_account_id seq_rand (db_load_locked store_alice) 0 = (Some (lit "ACC1001"), 2)
  /\ account_index (db_load_locked store_alice) (gen_candidate seq_rand 0) = Some 0.
Proof.
  split; [|vm_compute; reflexivity].
  change (lit "ACC1001") with (gen_candidate seq_rand (0 + 1)).
  refine (proj1 (proj2 (proj2 (proj2 (proj2 (proj2 (proj2
            (gen_account_id_bounded_fresh seq_rand 0 store_alice))))))) 1 _ _ _).
  - unfold GEN_TRIES. lia.
  - intros j Hj. assert (j = 0) by lia. subst j. vm_compute. discriminate.
  - vm_compute. reflexivity.
Defined.

(** With one account ACC1000 in the store and a rand() that keeps returning
    0, all 10000 attempts collide and CREATE_ACCOUNT gives up. *)
Lemma gen_account_id_exhausted_example :
  handle_line no_rand (conn_alice store_acc1000) (L "CREATE_ACCOUNT IND alice")
  = (msg "ERR Could not generate account id",
     {| loggedUser := lit "alice"; store := store_acc1000; rand_pos := GEN_TRIES |}, true).
Proof. vm_compute. reflexivity. Qed.

(** ** Characters *)

Lemma isspace_facts (c : ascii) :
  isspace c = true ->
  isdigit c = false /\ Ascii.eqb c dot = false /\ Ascii.eqb c minus = false
  /\ Ascii.eqb c plus = false /\ Ascii.eqb (tolower c) (ch "e") = false
  /\ is_ch "i" c = false /\ Ascii.eqb c zero = false.
Proof. ascii_cases c; intros _; repeat split. Qed.

Lemma isdigit_facts (c : ascii) :
  isdigit c = true ->
  token_char c = true /\ Ascii.eqb c dot = false /\ Ascii.eqb c minus = false
  /\ Ascii.eqb c plus = false /\ is_ch "n" c = false /\ is_ch "i" c = false
  /\ is_ch "x" c = false /\ Ascii.eqb c comma = false
  /\ Ascii.eqb c newline = false /\ Ascii.eqb c zero = false.
Proof. ascii_cases c; intros _; repeat split. Qed.

Lemma token_char_facts (c : ascii) :
  token_char c = true ->
  isspace c = false /\ Ascii.eqb c zero = false /\ Ascii.eqb c newline = false
  /\ Ascii.eqb c carriage = false.
Proof. ascii_cases c; intros _; repeat split. Qed.

(** ** Lines *)

Lemma token_char_not_nul (t : text) :
  forallb token_char t = true -> forallb not_nul t = true.
Proof.
  induction t as [|c t IH]; simpl; [reflexivity|]. intros H.
  apply andb_true_iff in H as [H1 H2].
  destruct (token_char_facts c H1) as (_ & Hz & _). unfold not_nul at 1.
  rewrite Hz. simpl. now apply IH.
Qed.

Lemma token_char_not_nl (t : text) :
  forallb token_char t = true -> forallb not_nl t = true.
Proof.
  induction t as [|c t IH]; simpl; [reflexivity|]. intros H.
  apply andb_true_iff in H as [H1 H2].
  destruct (token_char_facts c H1) as (_ & _ & Hn & _). unfold not_nl at 1.
  rewrite Hn. simpl. now apply IH.
Qed.

Lemma cstr_no_nul (s : text) : forallb not_nul s = true -> cstr s = s.
Proof.
  induction s as [|c s IH]; simpl; [reflexivity|]. intros H.
  apply andb_true_iff in H as [H1 H2]. unfold not_nul in H1.
  destruct (Ascii.eqb c zero); [discriminate|]. now rewrite IH.
Qed.

Lemma cstr_not_nul (s : text) : forallb not_nul (cstr s) = true.
Proof.
  induction s as [|c s IH]; simpl; [reflexivity|].
  destruct (Ascii.eqb c zero) eqn:E; [reflexivity|].
  simpl. unfold not_nul at 1. now rewrite E.
Qed.

Lemma trim_newline_nl (s : text) : trim_newline (s ++ nl) = trim_newline s.
Proof.
  induction s as [|c s IH]; [reflexivity|].
  change ((c :: s) ++ nl) with (c :: (s ++ nl)). simpl. now rewrite IH.
Qed.

Lemma trim_newline_token (b t : text) :
  t <> [] -> forallb token_char t = true -> trim_newline (b ++ t) = b ++ t.
Proof.
  intros Ht Hc. induction b as [|c b IH].
  - simpl. clear Ht. induction t as [|c t IH]; [reflexivity|].
    simpl in Hc. apply andb_true_iff in Hc as [H1 H2].
    destruct (token_char_facts c H1) as (_ & _ & Hn & Hr).
    simpl. rewrite (IH H2). destruct t; [|reflexivity].
    now rewrite Hn, Hr.
  - change ((c :: b) ++ t) with (c :: (b ++ t)). simpl. rewrite IH.
    destruct (b ++ t) eqn:E; [|reflexivity].
    apply app_eq_nil in E as [_ E]. contradiction.
Qed.

(** [trim_newline] keeps a prefix. *)
Lemma trim_newline_prefix (s : text) : exists t, s = trim_newline s ++ t.
Proof.
  induction s as [|c s (t & IH)]; [now exists []|]. simpl.
  destruct (trim_newline s) as [|d u] eqn:E.
  - destruct (_ || _); [now exists (c :: s)|]. exists s. reflexivity.
  - exists t. simpl. now rewrite IH at 1.
Qed.

Lemma fgets_line (n : nat) (body rest : text) :
  forallb not_nl body = true -> length body < n ->
  fgets n (body ++ newline :: rest) = (body ++ [newline], rest).
Proof.
  revert n; induction body as [|c body IH]; intros n Hb Hn.
  - destruct n; [simpl in Hn; lia|]. reflexivity.
  - destruct n; [simpl in Hn; lia|]. simpl in Hb, Hn |- *.
    apply andb_true_iff in Hb as [H1 H2]. unfold not_nl in H1.
    destruct (Ascii.eqb c newline); [discriminate|].
    rewrite (IH n H2) by lia. reflexivity.
Qed.

(** A text made of whole lines reads back as these lines. *)
Lemma read_lines_concat (n fuel : nat) (bodies : list text) :
  Forall (fun b => forallb not_nl b = true /\ length b < n) bodies ->
  length bodies <= fuel ->
  read_lines fuel n (concat (map (fun b => b ++ nl) bodies))
  = map (fun b => b ++ nl) bodies.
Proof.
  revert fuel; induction bodies as [|b bodies IH]; intros fuel Hb Hf.
  - destruct fuel; reflexivity.
  - destruct fuel; [simpl in Hf; lia|].
    inversion Hb as [|? ? (H1 & H2) H3]; subst.
    cbn [map concat]. rewrite <- app_assoc.
    pose proof (fgets_line n b (concat (map (fun b0 => b0 ++ nl) bodies)) H1 H2) as E.
    change (b ++ nl ++ concat (map (fun b0 => b0 ++ nl) bodies))
      with (b ++ newline :: concat (map (fun b0 => b0 ++ nl) bodies)).
    destruct (b ++ newline :: concat (map (fun b0 => b0 ++ nl) bodies)) eqn:E0.
    { destruct b; discriminate. }
    cbn [read_lines]. rewrite E. f_equal. apply IH; [exact H3 | simpl in Hf; lia].
Qed.

(** ** Scanning *)

Lemma scan_lit_app (l s r : text) : scan_lit l s = Some r -> s = l ++ r.
Proof.
  revert s; induction l as [|c l IH]; intros s; simpl.
  - now intros [= ->].
  - destruct s as [|d s]; [discriminate|].
    destruct (Ascii.eqb c d) eqn:E; [|discriminate].
    apply Ascii.eqb_eq in E; subst d. intros H. now rewrite (IH _ H).
Qed.

Lemma scan_lit_prefix (l r : text) : scan_lit l (l ++ r) = Some r.
Proof. induction l as [|c l IH]; simpl; [reflexivity|]. now rewrite Ascii.eqb_refl. Qed.

Lemma skip_ws_suffix (s : text) : exists w, s = w ++ skip_ws s.
Proof.
  induction s as [|c s (w & IH)]; [now exists []|]. simpl.
  destruct (isspace c); [|now exists []].
  exists (c :: w). simpl. now rewrite IH at 1.
Qed.

Lemma skip_ws_token (t r : text) :
  t <> [] -> forallb token_char t = true -> skip_ws (sp ++ t ++ r) = t ++ r.
Proof.
  intros Ht Hc. destruct t as [|c t]; [contradiction|].
  simpl in Hc. apply andb_true_iff in Hc as [H1 _].
  destruct (token_char_facts c H1) as (Hs & _).
  change (sp ++ (c :: t) ++ r) with (ch " " :: c :: t ++ r).
  cbn [skip_ws]. change (isspace (ch " ")) with true. cbv iota. now rewrite Hs.
Qed.

Lemma take_word_token (n : nat) (t r : text) :
  forallb token_char t = true -> length t <= n -> delimited r ->
  take_word n (t ++ r) = (t, r).
Proof.
  revert n; induction t as [|c t IH]; intros n Hc Hn Hr.
  - simpl. destruct n; [reflexivity|].
    destruct Hr as [->|(c & r' & -> & Hs)]; [reflexivity|]. simpl. now rewrite Hs.
  - destruct n; [simpl in Hn; lia|]. simpl in Hc, Hn |- *.
    apply andb_true_iff in Hc as [H1 H2].
    destruct (token_char_facts c H1) as (Hs & _). rewrite Hs.
    rewrite (IH n H2) by (auto; lia). reflexivity.
Qed.

Lemma tokenb_spec (n : nat) (t : text) :
  tokenb n t = true <-> t <> [] /\ length t <= n /\ forallb token_char t = true.
Proof.
  unfold tokenb. rewrite !andb_true_iff, negb_true_iff, Nat.eqb_neq, Nat.leb_le.
  destruct t; simpl; intuition (try congruence; try lia).
Qed.

(** A [%<n>s] conversion reads back a token that was printed after a space. *)
Lemma scan_s_token (n : nat) (t r : text) :
  tokenb n t = true -> delimited r -> scan_s n (sp ++ t ++ r) = Some (t, r).
Proof.
  intros Ht Hr. apply tokenb_spec in Ht as (H1 & H2 & H3).
  unfold scan_s. rewrite skip_ws_token by assumption.
  rewrite take_word_token by assumption. destruct t; [contradiction|reflexivity].
Qed.

Lemma delimited_sp (r : text) : delimited (sp ++ r).
Proof. right. exists (ch " "), r. split; reflexivity. Qed.

Lemma delimited_nil : delimited [].
Proof. now left. Qed.

(** What a [%<n>s] conversion returns is a token, when the line has no NUL. *)
Lemma scan_s_sound (n : nat) (s w r : text) :
  forallb not_nul s = true -> scan_s n s = Some (w, r) ->
  tokenb n w = true /\ forallb not_nul r = true.
Proof.
  intros Hs. unfold scan_s.
  destruct (take_word n (skip_ws s)) as [w' r'] eqn:Hw.
  destruct (take_word_spec _ _ _ _ Hw) as (H1 & H2 & H3).
  destruct (skip_ws_suffix s) as (pre & Hp).
  rewrite Hp, H1, !forallb_app in Hs.
  apply andb_true_iff in Hs as [_ Hs]. apply andb_true_iff in Hs as [Hs1 Hs2].
  destruct w' as [|c w']; [discriminate|]. intros [= <- <-].
  split; [|exact Hs2]. apply tokenb_spec. repeat split; [discriminate | exact H2 |].
  clear - H3 Hs1. induction (c :: w') as [|d l IH]; [reflexivity|].
  simpl in *. apply andb_true_iff in H3 as [A1 A2]. apply andb_true_iff in Hs1 as [B1 B2].
  unfold token_char. unfold not_nul in B1. rewrite A1, B1. simpl. now apply IH.
Qed.

(** ** Loaded snapshots are well formed *)

Lemma forallb_firstn {A : Type} (P : A -> bool) (n : nat) (l : list A) :
  forallb P l = true -> forallb P (firstn n l) = true.
Proof.
  revert n; induction l as [|x l IH]; intros [|n]; simpl; auto.
  intros H. apply andb_true_iff in H as [H1 H2]. now rewrite H1, IH.
Qed.

Lemma forallb_rev {A : Type} (P : A -> bool) (l : list A) :
  forallb P (rev l) = forallb P l.
Proof.
  induction l as [|x l IH]; [reflexivity|]. simpl.
  rewrite forallb_app, IH. simpl. rewrite andb_true_r. apply andb_comm.
Qed.

Lemma strtok_loop_sound (cur s : text) :
  forallb token_char cur = true -> no_comma cur = true ->
  forallb token_char s = true ->
  Forall strtok_ok (strtok_loop comma cur s).
Proof.
  revert cur; induction s as [|c s IH]; intros cur Hc Hn Hs; simpl.
  - destruct cur as [|d cur]; [constructor|]. constructor; [|constructor].
    unfold strtok_ok, no_comma in *. rewrite !forallb_rev.
    repeat split; auto. intros E. apply (f_equal (@length ascii)) in E.
    rewrite length_rev in E. discriminate.
  - simpl in Hs. apply andb_true_iff in Hs as [Hs1 Hs2].
    destruct (Ascii.eqb c comma) eqn:E.
    + destruct cur as [|d cur]; [now apply IH|].
      constructor; [|now apply IH].
      unfold strtok_ok, no_comma in *. rewrite !forallb_rev.
      repeat split; auto. intros E'. apply (f_equal (@length ascii)) in E'.
      rewrite length_rev in E'. discriminate.
    + apply IH; auto.
      * simpl. now rewrite Hs1.
      * unfold no_comma in *. simpl. now rewrite E.
Qed.

Lemma strtok_all_sound (s : text) :
  forallb token_char s = true -> Forall strtok_ok (strtok_all s).
Proof. intros H. now apply strtok_loop_sound. Qed.

Lemma ownerb_trunc (t : text) : strtok_ok t -> ownerb (strncpy_term USERNAME_LEN t) = true.
Proof.
  intros (H1 & H2 & H3). unfold ownerb, strncpy_term, USERNAME_LEN.
  change (32 - 1) with 31. apply andb_true_iff. split.
  - apply tokenb_spec. repeat split.
    + destruct t; [contradiction|discriminate].
    + apply firstn_le_length.
    + now apply forallb_firstn.
  - now apply forallb_firstn.
Qed.

Lemma load_owners_sound (toks : list text) (idx count : Z) :
  Forall strtok_ok toks ->
  forallb ownerb (load_owners toks idx count) = true
  /\ (Z.of_nat (length (load_owners toks idx count)) <= Z.max 0 (count - idx))%Z.
Proof.
  intros H; revert idx; induction H as [|t toks Ht Hts IH]; intros idx; simpl.
  - split; [reflexivity|lia].
  - destruct (idx <? count)%Z eqn:E; [|split; [reflexivity|simpl; lia]].
    apply Z.ltb_lt in E. destruct (IH (idx + 1)%Z) as (H1 & H2).
    split; [simpl; now rewrite ownerb_trunc, H1|]. simpl length. lia.
Qed.

Lemma tokenb_token_char (n : nat) (t : text) :
  tokenb n t = true -> forallb token_char t = true.
Proof. intros H. now apply tokenb_spec in H. Qed.

Lemma tokenb_strncpy (t : text) : tokenb 31 t = true -> strncpy 32 t = t.
Proof. intros H. apply tokenb_spec in H as (_ & H & _). apply strncpy_short. lia. Qed.

Lemma line_not_nul (buf : text) : forallb not_nul (trim_newline (cstr buf)) = true.
Proof.
  pose proof (cstr_not_nul buf) as H.
  destruct (trim_newline_prefix (cstr buf)) as (t & E).
  rewrite E, forallb_app in H. now apply andb_true_iff in H as [H _].
Qed.

Lemma scan_lit_not_nul (l s r : text) :
  forallb not_nul s = true -> scan_lit l s = Some r -> forallb not_nul r = true.
Proof.
  intros H E. apply scan_lit_app in E. rewrite E, forallb_app in H.
  now apply andb_true_iff in H.
Qed.

Lemma span_digits_app (s d r : text) : span_digits s = (d, r) -> s = d ++ r.
Proof.
  revert d r; induction s as [|c s IH]; intros d r; simpl.
  - now intros [= <- <-].
  - destruct (isdigit c); [|now intros [= <- <-]].
    destruct (span_digits s) as [d' r'] eqn:E. intros [= <- <-].
    simpl. now rewrite (IH _ _ eq_refl).
Qed.

Lemma scan_d_not_nul (s r : text) (k : Z) :
  forallb not_nul s = true -> scan_d s = Some (k, r) -> forallb not_nul r = true.
Proof.
  intros H. unfold scan_d.
  destruct (skip_ws_suffix s) as (w & Hw). rewrite Hw, forallb_app in H.
  apply andb_true_iff in H as [_ H].
  assert (H2 : forallb not_nul (snd (scan_sign (skip_ws s))) = true).
  { unfold scan_sign. destruct (skip_ws s) as [|c t]; [reflexivity|].
    simpl in H. apply andb_true_iff in H as [H1 H2].
    destruct (Ascii.eqb c minus); [exact H2|].
    destruct (Ascii.eqb c plus); [exact H2|]. simpl. now rewrite H1. }
  destruct (scan_sign (skip_ws s)) as [neg s2]. simpl in H2.
  destruct (span_digits s2) as [ds r'] eqn:E. apply span_digits_app in E.
  rewrite E, forallb_app in H2. apply andb_true_iff in H2 as [_ H2].
  destruct ds; [discriminate|]. now intros [= _ <-].
Qed.

Lemma wf_db_spec (db : DB) :
  wf_db db = true <->
  forallb wf_user (users db) = true /\ forallb wf_account (accounts db) = true
  /\ length (users db) <= MAX_USERS /\ length (accounts db) <= MAX_ACCOUNTS.
Proof.
  unfold wf_db. rewrite !andb_true_iff, !Nat.leb_le. tauto.
Qed.

Lemma load_line_wf (db : DB) (buf : text) :
  wf_db db = true -> wf_db (load_line db buf) = true.
Proof.
  intros Hwf. unfold load_line.
  pose proof (line_not_nul buf) as Hl.
  destruct (trim_newline (cstr buf)) as [|c0 l0] eqn:El; [exact Hwf|].
  set (line := c0 :: l0) in *.
  pose proof Hwf as Hwf'. apply wf_db_spec in Hwf' as (Hu & Ha & Hnu & Hna).
  destruct (starts_with (lit "USER ") line).
  - destruct (Nat.leb MAX_USERS (length (users db))) eqn:Hfull; [exact Hwf|].
    destruct (sscanf_user line) as [[u p]|] eqn:Es; [|exact Hwf].
    unfold sscanf_user in Es.
    destruct (scan_lit (lit "USER") line) as [r0|] eqn:E0; [|discriminate].
    pose proof (scan_lit_not_nul _ _ _ Hl E0) as H0.
    destruct (scan_s 31 r0) as [[u' r1]|] eqn:E1; [|discriminate].
    destruct (scan_s_sound _ _ _ _ H0 E1) as (Tu & H1).
    destruct (scan_s 31 r1) as [[p' r2]|] eqn:E2; [|discriminate].
    destruct (scan_s_sound _ _ _ _ H1 E2) as (Tp & _).
    injection Es as <- <-.
    unfold USERNAME_LEN, PASS_LEN. rewrite !tokenb_strncpy by assumption.
    apply wf_db_spec. cbn [users accounts]. apply Nat.leb_gt in Hfull.
    repeat split; [| exact Ha | rewrite length_app; simpl; lia | exact Hna].
    rewrite forallb_app, Hu. cbn [forallb]. unfold wf_user. cbn [username password].
    now rewrite Tu, Tp.
  - destruct (starts_with (lit "ACC ") line); [|exact Hwf].
    destruct (Nat.leb MAX_ACCOUNTS (length (accounts db))) eqn:Hfull; [exact Hwf|].
    destruct (sscanf_acc line) as [[[[[[[i ty] n] csv] b0] b1] b2]|] eqn:Es; [|exact Hwf].
    unfold sscanf_acc in Es.
    destruct (scan_lit (lit "ACC") line) as [r0|] eqn:E0; [|discriminate].
    pose proof (scan_lit_not_nul _ _ _ Hl E0) as H0.
    destruct (scan_s 31 r0) as [[i' r1]|] eqn:E1; [|discriminate].
    destruct (scan_s_sound _ _ _ _ H0 E1) as (Ti & H1).
    destruct (scan_s 15 r1) as [[ty' r2]|] eqn:E2; [|discriminate].
    destruct (scan_s_sound _ _ _ _ H1 E2) as (_ & H2).
    destruct (scan_d r2) as [[n' r3]|] eqn:E3; [|discriminate].
    pose proof (scan_d_not_nul _ _ _ H2 E3) as H3.
    destruct (scan_s 255 r3) as [[csv' r4]|] eqn:E4; [|discriminate].
    destruct (scan_s_sound _ _ _ _ H3 E4) as (Tc & _).
    destruct (scan_lf r4) as [[x0 r5]|]; [|discriminate].
    destruct (scan_lf r5) as [[x1 r6]|]; [|discriminate].
    destruct (scan_lf r6) as [[x2 r7]|]; [|discriminate].
    injection Es as <- <- <- <- <- <- <-.
    set (count := if (Z.of_nat MAX_OWNERS <? n')%Z then Z.of_nat MAX_OWNERS else n').
    assert (Hcount : (count <= 5)%Z).
    { subst count. unfold MAX_OWNERS. destruct (_ <? _)%Z eqn:E; [lia|].
      apply Z.ltb_ge in E. lia. }
    assert (Htok : Forall strtok_ok (strtok_all (strncpy_term 256 csv'))).
    { apply strtok_all_sound. unfold strncpy_term. apply forallb_firstn.
      eapply tokenb_token_char; eauto. }
    destruct (load_owners_sound _ 0 count Htok) as (Ho1 & Ho2).
    unfold ACCID_LEN. rewrite tokenb_strncpy by assumption.
    apply wf_db_spec. cbn [users accounts]. apply Nat.leb_gt in Hfull.
    repeat split; [exact Hu | | exact Hnu | rewrite length_app; simpl; lia].
    rewrite forallb_app, Ha. cbn [forallb]. unfold wf_account. cbn [id owners].
    rewrite Ti, Ho1.
    replace (Nat.leb _ MAX_OWNERS) with true; [reflexivity|].
    symmetry; apply Nat.leb_le; unfold MAX_OWNERS; lia.
Qed.

Lemma fold_load_wf (ls : list text) (db : DB) :
  wf_db db = true -> wf_db (fold_left load_line ls db) = true.
Proof.
  revert db; induction ls as [|l ls IH]; intros db H; simpl; [exact H|].
  apply IH. now apply load_line_wf.
Qed.

(** Whatever the store holds, the snapshot loaded from it is well formed. *)
Lemma db_load_wf (store : text) : wf_db (db_load_locked store) = true.
Proof. unfold db_load_locked. now apply fold_load_wf. Qed.

(** ** CREATE_ACCOUNT *)

Lemma user_index_registered (db : DB) (tok : text) (i : nat) :
  user_index db tok = Some i ->
  exists u, In u (users db) /\ username u = tok.
Proof.
  intros H. destruct (find_index_Some _ _ zero_user _ H) as (H1 & H2 & _).
  exists (nth i (users db) zero_user). split; [now apply nth_In|].
  now apply streq_eq in H2.
Qed.

Lemma registered_short (db : DB) (tok : text) (i : nat) :
  wf_db db = true -> user_index db tok = Some i ->
  strncpy_term USERNAME_LEN tok = tok.
Proof.
  intros Hwf H. destruct (user_index_registered _ _ _ H) as (u & Hu & <-).
  apply wf_db_spec in Hwf as (Hus & _).
  rewrite forallb_forall in Hus. specialize (Hus u Hu).
  unfold wf_user in Hus. apply andb_true_iff in Hus as [Ht _].
  apply tokenb_spec in Ht as (_ & Hl & _).
  unfold strncpy_term, USERNAME_LEN. apply firstn_all2. simpl. lia.
Qed.

(** The owner-parsing loop keeps the first [MAX_OWNERS - count] tokens, all
    of them registered, or fails on the first of these that is not. *)
Lemma parse_owners_spec (db : DB) (toks : list text) (count : nat) :
  wf_db db = true ->
  match parse_owners db toks count with
  | Some os =>
      os = firstn (MAX_OWNERS - count) toks
      /\ forall t, In t os -> user_index db t <> None
  | None =>
      exists t, In t (firstn (MAX_OWNERS - count) toks) /\ user_index db t = None
  end.
Proof.
  intros Hwf. revert count; induction toks as [|tok toks IH]; intros count.
  - simpl. rewrite firstn_nil. split; [reflexivity | intros t []].
  - cbn [parse_owners]. destruct (Nat.ltb count MAX_OWNERS) eqn:Hc.
    + apply Nat.ltb_lt in Hc.
      replace (MAX_OWNERS - count) with (S (MAX_OWNERS - S count)) by lia.
      cbn [firstn].
      destruct (user_index db tok) as [i|] eqn:Hi.
      * specialize (IH (S count)).
        destruct (parse_owners db toks (S count)) as [os|]; cbn [option_map].
        -- destruct IH as (-> & H2). rewrite (registered_short _ _ _ Hwf Hi).
           split; [reflexivity|]. intros t [<-|Ht]; [congruence | now apply H2].
        -- destruct IH as (t & H1 & H2). exists t. split; [now right | exact H2].
      * exists tok. split; [now left | exact Hi].
    + apply Nat.ltb_ge in Hc.
      replace (MAX_OWNERS - count) with 0 by lia. simpl. split; [reflexivity | intros t []].
Qed.

Lemma check_owners_None (joint : bool) (os : list text) (lu : text) :
  check_owners joint os lu = None ->
  os <> [] /\ In lu os /\ (joint = false -> os = [lu]).
Proof.
  unfold check_owners. destruct os as [|o os]; [discriminate|]. cbn [length Nat.eqb].
  destruct joint; cbn [negb].
  - destruct (existsb _ _) eqn:E; [|discriminate]. intros _.
    split; [discriminate|]. split; [|discriminate].
    apply existsb_exists in E as (x & Hx & E). apply streq_eq in E. now subst.
  - destruct os as [|o' os]; [|discriminate]. cbn [length Nat.eqb negb nth].
    destruct (streq o lu) eqn:E; [|discriminate]. apply streq_eq in E; subst o.
    intros _. split; [discriminate|]. split; [now left | reflexivity].
Qed.


(** What a created account looks like. *)
Lemma create_account_saved (rnd : nat -> N) (pos : nat)
    (store lu ty csv resp : text) (db' : DB) (pos' : nat) :
  cmd_create_account rnd pos store lu ty csv = (Saved resp db', pos') ->
  exists a,
    db' = {| users := users (db_load_locked store);
             accounts := accounts (db_load_locked store) ++ [a] |}
    /\ lu <> []
    /\ parse_type ty = Some (isJoint a)
    /\ bal a = zero_balances
    /\ account_index (db_load_locked store) (id a) = None
    /\ owners a = firstn MAX_OWNERS (strtok_all (strncpy_term 256 csv))
    /\ owners a <> []
    /\ In lu (owners a)
    /\ (forall o, In o (owners a) -> user_index (db_load_locked store) o <> None)
    /\ (isJoint a = false -> owners a = [lu]).
Proof.
  unfold cmd_create_account.
  destruct lu as [|c0 lu0]; [discriminate|].
  destruct (parse_type ty) as [joint|]; [|discriminate].
  destruct (Nat.leb _ _); [discriminate|].
  pose proof (gen_loop_spec (db_load_locked store) rnd GEN_TRIES pos) as Hg.
  fold (gen_account_id rnd (db_load_locked store) pos) in Hg.
  destruct (gen_account_id _ _ _) as [[aid|] p1]; [|discriminate].
  destruct Hg as (_ & _ & Hfresh).
  pose proof (parse_owners_spec (db_load_locked store)
                (strtok_all (strncpy_term 256 csv)) 0 (db_load_wf store)) as Hp.
  destruct (parse_owners _ _ 0) as [os|]; [|discriminate].
  destruct Hp as (Hos & Hreg). rewrite Nat.sub_0_r in Hos.
  destruct (check_owners joint os (c0 :: lu0)) eqn:Hc; [discriminate|].
  apply check_owners_None in Hc as (H1 & H2 & H3).
  intros [= <- <- <-]. eexists. split; [reflexivity|]. cbn [isJoint bal id owners].
  repeat split; auto; congruence.
Qed.




(** ** Printed numbers read back *)

Lemma digits_val_snoc (ds : text) (c : ascii) :
  digits_val (ds ++ [c]) = (10 * digits_val ds + digit_val c)%Z.
Proof. unfold digits_val. now rewrite fold_left_app. Qed.

Lemma digits_val_from (ds : text) (v : Z) :
  fold_left (fun v c => 10 * v + digit_val c)%Z ds v
  = (v * 10 ^ Z.of_nat (length ds) + digits_val ds)%Z.
Proof.
  unfold digits_val. revert v; induction ds as [|c ds IH]; intros v.
  - simpl. lia.
  - cbn [fold_left length]. rewrite IH, (IH (10 * 0 + digit_val c)%Z).
    rewrite Nat2Z.inj_succ, Z.pow_succ_r by lia. lia.
Qed.

Lemma digits_val_app (a b : text) :
  digits_val (a ++ b) = (digits_val a * 10 ^ Z.of_nat (length b) + digits_val b)%Z.
Proof. unfold digits_val at 1. rewrite fold_left_app. apply digits_val_from. Qed.

Lemma digits_val_fixed (p : nat) (n : Z) :
  digits_val (fixed_digits p n) = (n mod 10 ^ Z.of_nat p)%Z.
Proof.
  revert n; induction p as [|p IH]; intros n.
  - simpl. now rewrite Z.mod_1_r.
  - cbn [fixed_digits]. rewrite digits_val_snoc, IH.
    rewrite digit_val_char by apply mod10_range.
    rewrite Nat2Z.inj_succ, Z.pow_succ_r by lia.
    assert (0 < 10 ^ Z.of_nat p)%Z by (apply Z.pow_pos_nonneg; lia).
    rewrite (Z.rem_mul_r n 10 (10 ^ Z.of_nat p)) by lia. lia.
Qed.

Lemma digits_val_strip (s : text) : digits_val (strip_zeros s) = digits_val s.
Proof.
  induction s as [|c s IH]; [reflexivity|].
  destruct s as [|d s]; [reflexivity|].
  change (strip_zeros (c :: d :: s))
    with (if Ascii.eqb c (digit_char 0) then strip_zeros (d :: s) else c :: d :: s).
  destruct (Ascii.eqb c (digit_char 0)) eqn:E; [|reflexivity].
  apply Ascii.eqb_eq in E; subst c. rewrite IH.
  change (digit_char 0 :: d :: s) with ([digit_char 0] ++ d :: s).
  rewrite digits_val_app. change (digits_val [digit_char 0]) with 0%Z. lia.
Qed.

Lemma digits_val_dec (n : Z) : (0 <= n)%Z -> digits_val (dec_digits n) = n.
Proof.
  intros Hn. unfold dec_digits. rewrite digits_val_strip, digits_val_fixed.
  apply Z.mod_small. split; [lia | now apply lt_pow10_log2].
Qed.

Lemma strip_zeros_isdigit (s : text) :
  forallb isdigit s = true -> forallb isdigit (strip_zeros s) = true.
Proof.
  induction s as [|c s IH]; [reflexivity|]. intros H.
  destruct s as [|d s]; [exact H|].
  change (strip_zeros (c :: d :: s))
    with (if Ascii.eqb c (digit_char 0) then strip_zeros (d :: s) else c :: d :: s).
  destruct (Ascii.eqb c (digit_char 0)); [|exact H].
  apply IH. cbn [forallb] in H. now apply andb_true_iff in H as [_ H].
Qed.

Lemma strip_zeros_nonnil (s : text) : s <> [] -> strip_zeros s <> [].
Proof.
  induction s as [|c s IH]; [congruence|]. intros _.
  destruct s as [|d s]; [discriminate|].
  change (strip_zeros (c :: d :: s))
    with (if Ascii.eqb c (digit_char 0) then strip_zeros (d :: s) else c :: d :: s).
  destruct (Ascii.eqb c (digit_char 0)); [|discriminate].
  apply IH. discriminate.
Qed.

Lemma dec_digits_isdigit (n : Z) : forallb isdigit (dec_digits n) = true.
Proof. apply strip_zeros_isdigit, fixed_digits_isdigit. Qed.

Lemma dec_digits_nonnil (n : Z) : dec_digits n <> [].
Proof. apply strip_zeros_nonnil, fixed_digits_nonnil. lia. Qed.

Lemma span_digits_digits (ds r : text) :
  forallb isdigit ds = true ->
  match r with [] => True | c :: _ => isdigit c = false end ->
  span_digits (ds ++ r) = (ds, r).
Proof.
  intros Hd Hr. induction ds as [|c ds IH].
  - simpl. destruct r as [|c r]; [reflexivity|]. simpl. now rewrite Hr.
  - cbn [forallb] in Hd. apply andb_true_iff in Hd as [H1 H2].
    simpl. rewrite H1, (IH H2). reflexivity.
Qed.

(** *** The collecting loop on a printed numeral *)

Lemma lf_loop_digits (ds : text) (gd gdot : bool) (buf s : text) :
  forallb isdigit ds = true ->
  lf_loop false gd false gdot buf (ds ++ s)
  = lf_loop false (gd || negb (Nat.eqb (length ds) 0)) false gdot (rev ds ++ buf) s.
Proof.
  revert gd buf; induction ds as [|c ds IH]; intros gd buf Hd.
  - simpl. now rewrite orb_false_r.
  - cbn [forallb] in Hd. apply andb_true_iff in Hd as [H1 H2].
    change ((c :: ds) ++ s) with (c :: (ds ++ s)). cbn [lf_loop]. rewrite H1.
    rewrite (IH true (c :: buf) H2). cbn [length Nat.eqb negb orb].
    rewrite orb_true_r. cbn [rev]. now rewrite <- app_assoc.
Qed.

Lemma lf_loop_dot (gd : bool) (buf s : text) :
  lf_loop false gd false false buf (dot :: s)
  = lf_loop false gd false true (dot :: buf) s.
Proof. destruct gd; reflexivity. Qed.

Lemma lf_loop_stop (gd gdot : bool) (buf r : text) :
  delimited r -> lf_loop false gd false gdot buf r = (rev buf, r).
Proof.
  intros [->|(c & r' & -> & Hs)]; [reflexivity|].
  destruct (isspace_facts c Hs) as (H1 & H2 & H3 & H4 & H5 & _).
  cbn [lf_loop]. rewrite H1, H2, H5. cbn [negb andb].
  rewrite !andb_false_r. reflexivity.
Qed.

Lemma lf_loop_numeral (d1 d2 : text) (gd : bool) (buf r : text) :
  forallb isdigit d1 = true -> forallb isdigit d2 = true -> delimited r ->
  lf_loop false gd false false buf (d1 ++ dot :: d2 ++ r)
  = (rev buf ++ d1 ++ dot :: d2, r).
Proof.
  intros H1 H2 Hr.
  rewrite lf_loop_digits by exact H1. rewrite lf_loop_dot.
  rewrite lf_loop_digits by exact H2. rewrite lf_loop_stop by exact Hr.
  f_equal. rewrite rev_app_distr. cbn [rev]. rewrite rev_involutive.
  rewrite rev_app_distr, rev_involutive. rewrite <- !app_assoc. reflexivity.
Qed.

Lemma dot_facts : isdigit dot = false /\ is_ch "x" dot = false.
Proof. split; reflexivity. Qed.

(** A numeral [digits.digits] followed by white space or the end of the
    line is collected whole. *)
Lemma lf_item_numeral (d1 d2 r : text) :
  d1 <> [] -> forallb isdigit d1 = true -> forallb isdigit d2 = true -> delimited r ->
  lf_item (d1 ++ dot :: d2 ++ r) = Some (d1 ++ dot :: d2, r).
Proof.
  intros Hne H1 H2 Hr. destruct d1 as [|c d1]; [contradiction|].
  cbn [forallb] in H1. apply andb_true_iff in H1 as [Hc H1].
  destruct (isdigit_facts c Hc) as (_ & _ & _ & _ & Hn & Hi & _).
  change ((c :: d1) ++ dot :: d2 ++ r) with (c :: (d1 ++ dot :: d2 ++ r)).
  cbn [lf_item]. rewrite Hn, Hi.
  destruct (Ascii.eqb c (ch "0")) eqn:E0.
  - assert (Hx : exists x s2, d1 ++ dot :: d2 ++ r = x :: s2 /\ is_ch "x" x = false).
    { destruct d1 as [|x d1].
      - exists dot, (d2 ++ r). split; reflexivity.
      - exists x, (d1 ++ dot :: d2 ++ r). split; [reflexivity|].
        cbn [forallb] in H1. apply andb_true_iff in H1 as [Hx _].
        now destruct (isdigit_facts x Hx) as (_ & _ & _ & _ & _ & _ & Hxx & _). }
    destruct Hx as (x & s2 & Es & Hx). rewrite Es, Hx. rewrite <- Es.
    rewrite (lf_loop_numeral d1 d2 true [c] r H1 H2 Hr). reflexivity.
  - pose proof (lf_loop_numeral (c :: d1) d2 false [] r) as E.
    change ((c :: d1) ++ dot :: d2 ++ r) with (c :: (d1 ++ dot :: d2 ++ r)) in E.
    rewrite E; [reflexivity | | exact H2 | exact Hr].
    cbn [forallb]. now rewrite Hc, H1.
Qed.

Lemma strtod_buf_numeral (d1 d2 : text) :
  d1 <> [] -> forallb isdigit d1 = true -> forallb isdigit d2 = true ->
  strtod_buf (d1 ++ dot :: d2)
  = Some (dec_to_double false (digits_val (d1 ++ d2)) (- Z.of_nat (length d2))).
Proof.
  intros Hne H1 H2.
  assert (Em : strtod_mant span_digits (d1 ++ dot :: d2) = (d1, d2, [])).
  { unfold strtod_mant. rewrite span_digits_digits; [|exact H1|reflexivity].
    change (Ascii.eqb dot dot) with true. cbv iota.
    rewrite <- (app_nil_r d2) at 1. rewrite span_digits_digits; auto. }
  destruct d1 as [|c d1]; [contradiction|].
  pose proof H1 as H1'. cbn [forallb] in H1'. apply andb_true_iff in H1' as [Hc H1'].
  destruct (isdigit_facts c Hc) as (_ & _ & _ & _ & Hn & Hi & _).
  change ((c :: d1) ++ dot :: d2) with (c :: (d1 ++ dot :: d2)) in *.
  cbn [strtod_buf]. rewrite Hn, Hi.
  assert (Hhex : match d1 ++ dot :: d2 with
                 | x :: _ => Ascii.eqb c (ch "0") && is_ch "x" x = false
                 | [] => True
                 end).
  { destruct d1 as [|x d1]; simpl.
    - now rewrite andb_false_r.
    - cbn [forallb] in H1'. apply andb_true_iff in H1' as [Hx _].
      destruct (isdigit_facts x Hx) as (_ & _ & _ & _ & _ & _ & Hxx & _).
      now rewrite Hxx, andb_false_r. }
  destruct (d1 ++ dot :: d2) as [|x t] eqn:Et.
  { destruct d1; discriminate. }
  rewrite Hhex. rewrite Em.
  change ((c :: d1) ++ d2) with (c :: (d1 ++ d2)).
  cbn [strtod_exp]. now rewrite Z.sub_0_l.
Qed.

(** *** Signs *)

Lemma binary_round_aux_opp (m e : Z) (l : location) :
  SFopp (binary_round_aux prec emax false m e l) = binary_round_aux prec emax true m e l.
Proof.
  unfold binary_round_aux.
  destruct (shr_fexp prec emax m e l) as [mrs' e'].
  destruct (shr_fexp prec emax _ e' loc_Exact) as [mrs'' e''].
  destruct (shr_m mrs''); [reflexivity| |reflexivity].
  destruct (Z.leb _ _); reflexivity.
Qed.

Lemma dec_to_double_sign (s : bool) (n k : Z) :
  (if s then dopp (dec_to_double false n k) else dec_to_double false n k)
  = dec_to_double s n k.
Proof.
  destruct s; [|reflexivity]. unfold dec_to_double, dopp.
  destruct n as [|p|p]; [reflexivity| |reflexivity].
  destruct (0 <=? k)%Z.
  - unfold binary_round. destruct (shl_align _ _ _) as [mz ez].
    apply binary_round_aux_opp.
  - unfold SFdiv. destruct (SFdiv_core_binary _ _ _ _ _ _) as [[mz ez] lz].
    apply binary_round_aux_opp.
Qed.

(** *** Balances *)

Lemma round_half_even_nonneg (num den : Z) :
  (0 <= num)%Z -> (0 < den)%Z -> (0 <= round_half_even num den)%Z.
Proof.
  intros Hn Hd. unfold round_half_even.
  assert (0 <= num / den)%Z by (apply Z.div_pos; lia).
  destruct (_ ?= _)%Z; [destruct (Z.even _)| |]; lia.
Qed.

Lemma scaled_nonneg (p : nat) (m : positive) (e : Z) : (0 <= scaled p m e)%Z.
Proof.
  unfold scaled. destruct (0 <=? e)%Z eqn:E.
  - apply Z.leb_le in E.
    assert (0 < 2 ^ e)%Z by (apply Z.pow_pos_nonneg; lia).
    assert (0 < 10 ^ Z.of_nat p)%Z by (apply Z.pow_pos_nonneg; lia). nia.
  - apply Z.leb_gt in E. apply round_half_even_nonneg.
    + assert (0 < 10 ^ Z.of_nat p)%Z by (apply Z.pow_pos_nonneg; lia). nia.
    + apply Z.pow_pos_nonneg; lia.
Qed.

Lemma fmt_fixed_2 (n : Z) :
  fmt_fixed 2 n = dec_digits (n / 100) ++ dot :: fixed_digits 2 n.
Proof. reflexivity. Qed.

Lemma numeral_value (n : Z) :
  (0 <= n)%Z -> digits_val (dec_digits (n / 100) ++ fixed_digits 2 n) = n.
Proof.
  intros Hn. rewrite digits_val_app, fixed_digits_length.
  rewrite digits_val_dec by (apply Z.div_pos; lia).
  rewrite digits_val_fixed. change (10 ^ Z.of_nat 2)%Z with 100%Z.
  pose proof (Z.div_mod n 100). lia.
Qed.

Lemma forallb_digit_token (ds : text) :
  forallb isdigit ds = true -> forallb token_char ds = true.
Proof.
  induction ds as [|c ds IH]; [reflexivity|]. cbn [forallb]. intros H.
  apply andb_true_iff in H as [H1 H2].
  destruct (isdigit_facts c H1) as (Ht & _). now rewrite Ht, IH.
Qed.

Lemma fmt_fixed_2_token (n : Z) : forallb token_char (fmt_fixed 2 n) = true.
Proof.
  rewrite fmt_fixed_2, forallb_app. cbn [forallb].
  rewrite !forallb_digit_token by (apply dec_digits_isdigit || apply fixed_digits_isdigit).
  reflexivity.
Qed.

Lemma fmt_sign_token (s : bool) : forallb token_char (fmt_sign s) = true.
Proof. now destruct s. Qed.

Lemma fmt_f_2_token (x : double) :
  fmt_f 2 x <> [] /\ forallb token_char (fmt_f 2 x) = true.
Proof.
  destruct x as [s|s| |s m e]; cbn [fmt_f].
  - split; [destruct s; discriminate|].
    now rewrite forallb_app, fmt_sign_token, fmt_fixed_2_token.
  - split; [destruct s; discriminate | now destruct s].
  - split; [discriminate | reflexivity].
  - split.
    + rewrite fmt_fixed_2. destruct s; [discriminate|].
      cbn [fmt_sign app]. intros E. apply app_eq_nil in E as [_ E]. discriminate.
    + now rewrite forallb_app, fmt_sign_token, fmt_fixed_2_token.
Qed.

Lemma scan_sign_digit (c : ascii) (s : text) :
  isdigit c = true -> scan_sign (c :: s) = (false, c :: s).
Proof.
  intros H. destruct (isdigit_facts c H) as (_ & _ & Hm & Hp & _).
  unfold scan_sign. now rewrite Hm, Hp.
Qed.

(** A signed two-decimal numeral reads back as the double nearest to it. *)
Lemma scan_lf_numeral (s : bool) (n : Z) (r : text) :
  (0 <= n)%Z -> delimited r ->
  scan_lf (sp ++ (fmt_sign s ++ fmt_fixed 2 n) ++ r)
  = Some (dec_to_double s n (-2), r).
Proof.
  intros Hn Hr. rewrite fmt_fixed_2.
  set (d1 := dec_digits (n / 100)). set (d2 := fixed_digits 2 n).
  assert (H1 : forallb isdigit d1 = true) by apply dec_digits_isdigit.
  assert (H2 : forallb isdigit d2 = true) by apply fixed_digits_isdigit.
  assert (Hne : d1 <> []) by apply dec_digits_nonnil.
  assert (Es : scan_sign (skip_ws (sp ++ (fmt_sign s ++ d1 ++ dot :: d2) ++ r))
               = (s, d1 ++ dot :: d2 ++ r)).
  { destruct d1 as [|c d1]; [contradiction|].
    cbn [forallb] in H1. apply andb_true_iff in H1 as [Hc _].
    destruct (isdigit_facts c Hc) as (Ht & _).
    destruct (token_char_facts c Ht) as (Hs & _).
    destruct s.
    - change (skip_ws (sp ++ (fmt_sign true ++ (c :: d1) ++ dot :: d2) ++ r))
        with (minus :: ((c :: d1) ++ dot :: d2) ++ r).
      rewrite <- app_assoc. reflexivity.
    - change (sp ++ (fmt_sign false ++ (c :: d1) ++ dot :: d2) ++ r)
        with (ch " " :: c :: (d1 ++ dot :: d2) ++ r).
      cbn [skip_ws]. change (isspace (ch " ")) with true. cbv iota. rewrite Hs.
      rewrite scan_sign_digit by exact Hc.
      change (c :: (d1 ++ dot :: d2) ++ r) with (((c :: d1) ++ dot :: d2) ++ r).
      now rewrite <- app_assoc. }
  unfold scan_lf. rewrite Es.
  rewrite lf_item_numeral by assumption.
  rewrite strtod_buf_numeral by assumption.
  subst d1 d2. rewrite numeral_value by exact Hn. rewrite fixed_digits_length.
  change (- Z.of_nat 2)%Z with (-2)%Z. now rewrite dec_to_double_sign.
Qed.

Lemma scan_lf_inf (s : bool) (r : text) :
  delimited r ->
  scan_lf (sp ++ (fmt_sign s ++ lit "inf") ++ r) = Some (S754_infinity s, r).
Proof.
  intros [->|(c & r' & -> & Hs)]; [now destruct s|].
  destruct s; destruct c as [[] [] [] [] [] [] [] []];
    try discriminate Hs; reflexivity.
Qed.

(** The rounding of a saved balance: the balance printed with [%.2f] after
    a space and read with [%lf] is the balance rounded to two decimals. *)
Lemma scan_lf_fmt2 (x : double) (r : text) :
  delimited r -> scan_lf (sp ++ fmt_f 2 x ++ r) = Some (round2 x, r).
Proof.
  intros Hr. destruct x as [s|s| |s m e]; cbn [fmt_f round2].
  - rewrite (scan_lf_numeral s 0 r) by (auto; lia). now destruct s.
  - now apply scan_lf_inf.
  - reflexivity.
  - apply scan_lf_numeral; [apply scaled_nonneg | exact Hr].
Qed.

(** ** Saving and loading *)

Lemma scan_d_count (k : nat) (r : text) :
  k <= 5 -> scan_d (sp ++ fmt_d (Z.of_nat k) ++ sp ++ r) = Some (Z.of_nat k, sp ++ r).
Proof.
  intros H. do 6 (destruct k as [|k]; [reflexivity|]). lia.
Qed.

Lemma strtok_loop_run (t cur s : text) :
  no_comma t = true ->
  strtok_loop comma cur (t ++ s) = strtok_loop comma (rev t ++ cur) s.
Proof.
  revert cur; induction t as [|c t IH]; intros cur H; [reflexivity|].
  unfold no_comma in H. cbn [forallb] in H. apply andb_true_iff in H as [H1 H2].
  apply negb_true_iff in H1.
  change ((c :: t) ++ s) with (c :: (t ++ s)). cbn [strtok_loop]. rewrite H1.
  rewrite IH by exact H2. cbn [rev]. now rewrite <- app_assoc.
Qed.

Lemma ownerb_spec (o : text) :
  ownerb o = true -> o <> [] /\ length o <= 31 /\ forallb token_char o = true
                     /\ no_comma o = true.
Proof.
  unfold ownerb. intros H. apply andb_true_iff in H as [H1 H2].
  apply tokenb_spec in H1 as (A & B & C). auto.
Qed.

Lemma strtok_loop_token (o s : text) :
  o <> [] -> no_comma o = true ->
  strtok_loop comma [] (o ++ comma :: s) = o :: strtok_loop comma [] s.
Proof.
  intros Hne Hc. rewrite strtok_loop_run by exact Hc. rewrite app_nil_r.
  cbn [strtok_loop]. rewrite Ascii.eqb_refl.
  destruct (rev o) eqn:E.
  - apply (f_equal (@rev ascii)) in E. rewrite rev_involutive in E. contradiction.
  - now rewrite <- E, rev_involutive.
Qed.

Lemma strtok_owners (os : list text) :
  forallb ownerb os = true -> strtok_all (owners_csv os) = os.
Proof.
  unfold strtok_all. induction os as [|o os IH]; [reflexivity|].
  cbn [forallb]. intros H. apply andb_true_iff in H as [H1 H2].
  apply ownerb_spec in H1 as (Hne & _ & _ & Hc).
  destruct os as [|o' os].
  - cbn [owners_csv]. rewrite <- (app_nil_r o) at 1.
    rewrite strtok_loop_run by exact Hc. rewrite app_nil_r. cbn [strtok_loop].
    destruct (rev o) eqn:E.
    + apply (f_equal (@rev ascii)) in E. rewrite rev_involutive in E. contradiction.
    + now rewrite <- E, rev_involutive.
  - change (owners_csv (o :: o' :: os)) with (o ++ comma :: owners_csv (o' :: os)).
    rewrite strtok_loop_token by assumption. now rewrite IH.
Qed.

Lemma load_owners_all (toks : list text) (idx : Z) :
  load_owners toks idx (idx + Z.of_nat (length toks))
  = map (strncpy_term USERNAME_LEN) toks.
Proof.
  revert idx; induction toks as [|t toks IH]; intros idx; [reflexivity|].
  cbn [load_owners length map].
  replace (idx <? idx + Z.of_nat (S (length toks)))%Z with true
    by (symmetry; apply Z.ltb_lt; lia).
  f_equal. rewrite <- (IH (idx + 1)%Z). f_equal. lia.
Qed.

Lemma owners_trunc (os : list text) :
  forallb ownerb os = true -> map (strncpy_term USERNAME_LEN) os = os.
Proof.
  induction os as [|o os IH]; [reflexivity|]. cbn [forallb map]. intros H.
  apply andb_true_iff in H as [H1 H2]. apply ownerb_spec in H1 as (_ & Hl & _).
  rewrite IH by exact H2. f_equal.
  unfold strncpy_term, USERNAME_LEN. apply firstn_all2. simpl. lia.
Qed.

Lemma owners_csv_length (os : list text) :
  forallb ownerb os = true -> length (owners_csv os) <= 32 * length os.
Proof.
  induction os as [|o os IH]; [simpl; lia|]. cbn [forallb]. intros H.
  apply andb_true_iff in H as [H1 H2]. apply ownerb_spec in H1 as (_ & Hl & _).
  specialize (IH H2). destruct os as [|o' os].
  - cbn [owners_csv length]. lia.
  - change (owners_csv (o :: o' :: os)) with (o ++ comma :: owners_csv (o' :: os)).
    rewrite length_app. cbn [length] in *. lia.
Qed.

Lemma owners_csv_token (os : list text) :
  forallb ownerb os = true -> forallb token_char (owners_csv os) = true.
Proof.
  induction os as [|o os IH]; [reflexivity|]. cbn [forallb]. intros H.
  apply andb_true_iff in H as [H1 H2]. apply ownerb_spec in H1 as (_ & _ & Ht & _).
  specialize (IH H2). destruct os as [|o' os]; [exact Ht|].
  change (owners_csv (o :: o' :: os)) with (o ++ comma :: owners_csv (o' :: os)).
  rewrite forallb_app, Ht. cbn [forallb]. now rewrite IH.
Qed.

Lemma owners_csv_nil (os : list text) :
  forallb ownerb os = true -> owners_csv os = [] -> os = [].
Proof.
  destruct os as [|o os]; [reflexivity|]. cbn [forallb]. intros H.
  apply andb_true_iff in H as [H1 _]. apply ownerb_spec in H1 as (Hne & _).
  destruct os; cbn [owners_csv]; [congruence|].
  intros E. apply app_eq_nil in E as [E _]. congruence.
Qed.

Lemma csv_field_cases (os : list text) :
  forallb ownerb os = true ->
  (os = [] /\ csv_field os = lit "-")
  \/ (owners_csv os <> [] /\ csv_field os = owners_csv os).
Proof.
  intros H. unfold csv_field. destruct (owners_csv os) eqn:E.
  - left. split; [now apply owners_csv_nil | reflexivity].
  - right. split; [discriminate | reflexivity].
Qed.

Lemma csv_field_token (os : list text) :
  forallb ownerb os = true -> length os <= 5 -> tokenb 255 (csv_field os) = true.
Proof.
  intros H Hl.
  pose proof (owners_csv_length os H). pose proof (owners_csv_token os H).
  destruct (csv_field_cases os H) as [(_ & ->)|(Hne & ->)]; [reflexivity|].
  apply tokenb_spec. repeat split; [exact Hne | lia | assumption].
Qed.

(** The owners read back from the csv field of a saved account. *)
Lemma csv_field_owners (os : list text) :
  forallb ownerb os = true -> length os <= 5 ->
  load_owners (strtok_all (strncpy_term 256 (csv_field os))) 0
              (if (Z.of_nat MAX_OWNERS <? Z.of_nat (length os))%Z
               then Z.of_nat MAX_OWNERS else Z.of_nat (length os))
  = os.
Proof.
  intros H Hl.
  replace (Z.of_nat MAX_OWNERS <? Z.of_nat (length os))%Z with false
    by (symmetry; apply Z.ltb_ge; unfold MAX_OWNERS; lia).
  assert (Ht : strncpy_term 256 (csv_field os) = csv_field os).
  { pose proof (csv_field_token os H Hl) as T. apply tokenb_spec in T as (_ & T & _).
    unfold strncpy_term. apply firstn_all2. simpl. lia. }
  rewrite Ht.
  destruct (csv_field_cases os H) as [(-> & ->)|(Hne & ->)]; [reflexivity|].
  rewrite strtok_owners by exact H.
  pose proof (load_owners_all os 0) as El. rewrite Z.add_0_l in El.
  rewrite El. now apply owners_trunc.
Qed.

Lemma type_name_token (a : Account) : tokenb 15 (type_name a) = true.
Proof. unfold type_name. now destruct (isJoint a). Qed.

Lemma type_name_joint (a : Account) : streq (type_name a) (lit "JOINT") = isJoint a.
Proof. unfold type_name. now destruct (isJoint a). Qed.

Lemma user_line_body (u : User) : user_line u = user_body u ++ nl.
Proof. unfold user_line, user_body. now rewrite <- !app_assoc. Qed.

Lemma acc_line_body (a : Account) : acc_line a = acc_body a ++ nl.
Proof.
  unfold acc_line, acc_body, csv_field, type_name. cbv zeta.
  rewrite <- !app_assoc. reflexivity.
Qed.

Lemma wf_user_spec (u : User) :
  wf_user u = true -> tokenb 31 (username u) = true /\ tokenb 31 (password u) = true.
Proof. unfold wf_user. intros H. now apply andb_true_iff in H. Qed.

Lemma wf_account_spec (a : Account) :
  wf_account a = true ->
  tokenb 31 (id a) = true /\ forallb ownerb (owners a) = true /\ length (owners a) <= 5.
Proof.
  unfold wf_account. rewrite !andb_true_iff, Nat.leb_le. unfold MAX_OWNERS. tauto.
Qed.

Lemma user_body_token (u : User) :
  wf_user u = true -> forallb token_char (password u) = true /\ password u <> []
                      /\ forallb not_nul (user_body u) = true
                      /\ forallb not_nl (user_body u) = true
                      /\ length (user_body u) <= 68.
Proof.
  intros H. apply wf_user_spec in H as (Hu & Hp).
  apply tokenb_spec in Hu as (U1 & U2 & U3). apply tokenb_spec in Hp as (P1 & P2 & P3).
  unfold user_body. repeat split; auto.
  - rewrite !forallb_app, (token_char_not_nul (username u)),
      (token_char_not_nul (password u)) by assumption. reflexivity.
  - rewrite !forallb_app, (token_char_not_nl (username u)),
      (token_char_not_nl (password u)) by assumption. reflexivity.
  - rewrite !length_app. simpl. lia.
Qed.

Lemma fmt_d_count_token (k : nat) :
  k <= 5 -> forallb token_char (fmt_d (Z.of_nat k)) = true.
Proof. intros H. do 6 (destruct k as [|k]; [reflexivity|]). lia. Qed.

Lemma acc_body_chars (a : Account) :
  wf_account a = true ->
  forallb token_char (List.filter (fun c => negb (Ascii.eqb c (ch " "))) (acc_body a)) = true.
Proof.
  intros H. apply wf_account_spec in H as (Hi & Ho & Hl).
  apply tokenb_spec in Hi as (_ & _ & Hi).
  pose proof (csv_field_token _ Ho Hl) as Hc. apply tokenb_spec in Hc as (_ & _ & Hc).
  pose proof (tokenb_token_char _ _ (type_name_token a)) as Ht.
  pose proof (fmt_d_count_token _ Hl) as Hd.
  destruct (fmt_f_2_token (b_usd (bal a))) as (_ & F0).
  destruct (fmt_f_2_token (b_eur (bal a))) as (_ & F1).
  destruct (fmt_f_2_token (b_gbp (bal a))) as (_ & F2).
  assert (Hf : forall t, forallb token_char t = true ->
                 forallb token_char (List.filter (fun c => negb (Ascii.eqb c (ch " "))) t) = true).
  { intros t. induction t as [|c t IH]; [reflexivity|]. cbn [forallb List.filter]. intros E.
    apply andb_true_iff in E as [E1 E2].
    destruct (negb _); [cbn [forallb]; now rewrite E1, IH | now apply IH]. }
  unfold acc_body, ownerCount. rewrite !List.filter_app, !forallb_app.
  rewrite (Hf (id a)), (Hf (type_name a)), (Hf (fmt_d _)), (Hf (csv_field _)),
    (Hf (fmt_f 2 (b_usd _))), (Hf (fmt_f 2 (b_eur _))), (Hf (fmt_f 2 (b_gbp _)))
    by assumption.
  reflexivity.
Qed.

Lemma filter_token_not (P : ascii -> bool) (t : text) :
  (forall c, token_char c = true -> P c = true) -> P (ch " ") = true ->
  forallb token_char (List.filter (fun c => negb (Ascii.eqb c (ch " "))) t) = true ->
  forallb P t = true.
Proof.
  intros HP Hsp. induction t as [|c t IH]; [reflexivity|]. cbn [List.filter forallb].
  destruct (Ascii.eqb c (ch " ")) eqn:E; cbn [negb].
  - apply Ascii.eqb_eq in E; subst c. intros H. now rewrite Hsp, IH.
  - cbn [forallb]. intros H. apply andb_true_iff in H as [H1 H2].
    now rewrite (HP c H1), IH.
Qed.

Lemma acc_body_not_nul (a : Account) :
  wf_account a = true -> forallb not_nul (acc_body a) = true.
Proof.
  intros H. apply filter_token_not; [| reflexivity | now apply acc_body_chars].
  intros c Hc. destruct (token_char_facts c Hc) as (_ & Hz & _).
  unfold not_nul. now rewrite Hz.
Qed.

Lemma acc_body_not_nl (a : Account) :
  wf_account a = true -> forallb not_nl (acc_body a) = true.
Proof.
  intros H. apply filter_token_not; [| reflexivity | now apply acc_body_chars].
  intros c Hc. destruct (token_char_facts c Hc) as (_ & _ & Hn & _).
  unfold not_nl. now rewrite Hn.
Qed.

Lemma sscanf_user_body (u : User) :
  wf_user u = true -> sscanf_user (user_body u) = Some (username u, password u).
Proof.
  intros H. apply wf_user_spec in H as (Tu & Tp).
  unfold sscanf_user, user_body.
  change (lit "USER " ++ username u ++ sp ++ password u)
    with (lit "USER" ++ sp ++ username u ++ (sp ++ password u)).
  rewrite scan_lit_prefix.
  rewrite scan_s_token by (auto using delimited_sp).
  replace (sp ++ password u) with (sp ++ password u ++ []) by now rewrite app_nil_r.
  rewrite scan_s_token by (auto using delimited_nil). reflexivity.
Qed.

Lemma sscanf_acc_body (a : Account) :
  wf_account a = true ->
  sscanf_acc (acc_body a)
  = Some (id a, type_name a, Z.of_nat (length (owners a)), csv_field (owners a),
          round2 (b_usd (bal a)), round2 (b_eur (bal a)), round2 (b_gbp (bal a))).
Proof.
  intros H. apply wf_account_spec in H as (Ti & Ho & Hl).
  unfold sscanf_acc, acc_body, ownerCount.
  match goal with
  | |- context [scan_lit _ (lit "ACC " ++ ?X)] =>
      change (lit "ACC " ++ X) with (lit "ACC" ++ sp ++ X)
  end.
  rewrite scan_lit_prefix.
  rewrite scan_s_token by (auto using delimited_sp).
  rewrite scan_s_token by (auto using delimited_sp, type_name_token).
  rewrite scan_d_count by exact Hl.
  rewrite scan_s_token by (auto using delimited_sp, csv_field_token).
  rewrite scan_lf_fmt2 by apply delimited_sp.
  rewrite scan_lf_fmt2 by apply delimited_sp.
  replace (sp ++ fmt_f 2 (b_gbp (bal a)))
    with (sp ++ fmt_f 2 (b_gbp (bal a)) ++ []) by now rewrite app_nil_r.
  rewrite scan_lf_fmt2 by apply delimited_nil. reflexivity.
Qed.

Lemma load_line_user (db : DB) (u : User) :
  wf_user u = true -> length (users db) < MAX_USERS ->
  load_line db (user_line u) = {| users := users db ++ [u]; accounts := accounts db |}.
Proof.
  intros Hw Hn. destruct (user_body_token u Hw) as (Pt & Pne & Hnul & Hnl & _).
  pose proof (sscanf_user_body u Hw) as Es.
  apply wf_user_spec in Hw as (Tu & Tp).
  unfold load_line. rewrite user_line_body.
  rewrite cstr_no_nul by (rewrite forallb_app, Hnul; reflexivity).
  rewrite trim_newline_nl.
  assert (Et : trim_newline (user_body u) = user_body u).
  { unfold user_body. rewrite !app_assoc. now apply trim_newline_token. }
  rewrite Et, Es.
  apply Nat.leb_gt in Hn. rewrite Hn.
  unfold USERNAME_LEN, PASS_LEN. rewrite !tokenb_strncpy by assumption.
  unfold user_body. destruct u. reflexivity.
Qed.

Lemma load_line_acc (db : DB) (a : Account) :
  wf_account a = true -> length (accounts db) < MAX_ACCOUNTS ->
  load_line db (acc_line a)
  = {| users := users db; accounts := accounts db ++ [round2_account a] |}.
Proof.
  intros Hw Hn.
  pose proof (sscanf_acc_body a Hw) as Es.
  pose proof (acc_body_not_nul a Hw) as Hnul.
  pose proof Hw as Hw'. apply wf_account_spec in Hw' as (Ti & Ho & Hl).
  unfold load_line. rewrite acc_line_body.
  rewrite cstr_no_nul by (rewrite forallb_app, Hnul; reflexivity).
  rewrite trim_newline_nl.
  assert (Et : trim_newline (acc_body a) = acc_body a).
  { destruct (fmt_f_2_token (b_gbp (bal a))) as (F1 & F2).
    unfold acc_body. rewrite !app_assoc. now apply trim_newline_token. }
  rewrite Et, Es.
  apply Nat.leb_gt in Hn. rewrite Hn.
  unfold ACCID_LEN. rewrite tokenb_strncpy by assumption.
  rewrite type_name_joint, csv_field_owners by assumption.
  unfold acc_body. destruct a as [i j o [b0 b1 b2]]. reflexivity.
Qed.

Lemma fold_load_users (us : list User) (db : DB) :
  forallb wf_user us = true -> length (users db) + length us <= MAX_USERS ->
  fold_left load_line (map user_line us) db
  = {| users := users db ++ us; accounts := accounts db |}.
Proof.
  revert db; induction us as [|u us IH]; intros db Hw Hn.
  - simpl. rewrite app_nil_r. now destruct db.
  - cbn [forallb] in Hw. apply andb_true_iff in Hw as [H1 H2].
    cbn [map fold_left length] in *.
    rewrite load_line_user by (auto; lia).
    rewrite IH; [|exact H2|cbn [users]; rewrite length_app; simpl; lia].
    cbn [users accounts]. now rewrite <- app_assoc.
Qed.

Lemma fold_load_accounts (acs : list Account) (db : DB) :
  forallb wf_account acs = true -> length (accounts db) + length acs <= MAX_ACCOUNTS ->
  fold_left load_line (map acc_line acs) db
  = {| users := users db; accounts := accounts db ++ map round2_account acs |}.
Proof.
  revert db; induction acs as [|a acs IH]; intros db Hw Hn.
  - simpl. rewrite app_nil_r. now destruct db.
  - cbn [forallb] in Hw. apply andb_true_iff in Hw as [H1 H2].
    cbn [map fold_left length] in *.
    rewrite load_line_acc by (auto; lia).
    rewrite IH; [|exact H2|cbn [accounts]; rewrite length_app; simpl; lia].
    cbn [users accounts]. now rewrite <- app_assoc.
Qed.

Lemma length_concat_ge (bodies : list text) :
  length bodies <= length (concat (map (fun b => b ++ nl) bodies)).
Proof.
  induction bodies as [|b bodies IH]; [simpl; lia|].
  cbn [map concat length]. rewrite !length_app. simpl. lia.
Qed.

(** The store a well-formed snapshot is saved to, read line by line. *)
Lemma read_lines_saved (db : DB) :
  wf_db db = true -> lines_fit db = true ->
  read_lines (length (db_save_locked db)) LINE_MAX (db_save_locked db)
  = map user_line (users db) ++ map acc_line (accounts db).
Proof.
  intros Hwf Hfit. apply wf_db_spec in Hwf as (Hu & Ha & _ & _).
  set (bodies := map user_body (users db) ++ map acc_body (accounts db)).
  assert (El : map user_line (users db) ++ map acc_line (accounts db)
               = map (fun b => b ++ nl) bodies).
  { subst bodies. rewrite map_app, !map_map. f_equal; apply map_ext; intros x.
    - apply user_line_body.
    - apply acc_line_body. }
  assert (Es : db_save_locked db = concat (map (fun b => b ++ nl) bodies)).
  { unfold db_save_locked. rewrite <- El. now rewrite concat_app. }
  rewrite Es, El. apply read_lines_concat; [|apply length_concat_ge].
  subst bodies. apply List.Forall_app. split; apply List.Forall_forall; intros b Hb.
  - apply in_map_iff in Hb as (u & <- & Hin).
    rewrite forallb_forall in Hu. specialize (Hu u Hin).
    destruct (user_body_token u Hu) as (_ & _ & _ & Hnl & Hlen).
    split; [exact Hnl|]. unfold LINE_MAX. lia.
  - apply in_map_iff in Hb as (a & <- & Hin).
    rewrite forallb_forall in Ha. specialize (Ha a Hin).
    split; [now apply acc_body_not_nl|].
    unfold lines_fit in Hfit. rewrite forallb_forall in Hfit.
    specialize (Hfit a Hin). apply Nat.leb_le in Hfit.
    rewrite acc_line_body, length_app in Hfit. change (length nl) with 1 in Hfit. lia.
Qed.

(** Saving a well-formed snapshot whose records fit on a line and loading
    the result gives the snapshot back, balances rounded. *)
Lemma save_load_wf (db : DB) :
  wf_db db = true -> lines_fit db = true ->
  db_load_locked (db_save_locked db) = round2_db db.
Proof.
  intros Hwf Hfit. unfold db_load_locked. rewrite read_lines_saved by assumption.
  apply wf_db_spec in Hwf as (Hu & Ha & Hnu & Hna).
  rewrite fold_left_app.
  rewrite fold_load_users by (auto; simpl; lia).
  rewrite fold_load_accounts by (auto; simpl; lia).
  reflexivity.
Qed.

(** X26: for the snapshot loaded from any store, provided each of its
    account records prints on a line of at most 1023 characters (what the
    line buffer of the loader takes), saving it and loading the result gives
    the same users and the same accounts (ids, kinds, owners), in the same
    order, with every balance replaced by its two-decimal rounding: the
    double that [%lf] reads from what [%.2f] printed. *)
Theorem save_load_roundtrip :
  forall store : text,
    lines_fit (db_load_locked store) = true ->
    db_load_locked (db_save_locked (db_load_locked store))
    = round2_db (db_load_locked store)
    /\ users (db_load_locked (db_save_locked (db_load_locked store)))
       = users (db_load_locked store)
    /\ map (fun a => (id a, isJoint a, owners a))
           (accounts (db_load_locked (db_save_locked (db_load_locked store))))
       = map (fun a => (id a, isJoint a, owners a)) (accounts (db_load_locked store))
    /\ (forall x, scan_lf (sp ++ fmt_f 2 x) = Some (round2 x, [])).
Proof.
  intros store Hfit.
  pose proof (save_load_wf _ (db_load_wf store) Hfit) as E.
  split; [exact E|]. rewrite E. split; [reflexivity|]. split.
  - unfold round2_db. cbn [accounts]. rewrite map_map. apply map_ext.
    intros a. reflexivity.
  - intros x. replace (sp ++ fmt_f 2 x) with (sp ++ fmt_f 2 x ++ []) by now rewrite app_nil_r.
    apply scan_lf_fmt2, delimited_nil.
Qed.

Lemma save_load_roundtrip_witness :
  db_load_locked (db_save_locked (db_load_locked store_alice))
  = round2_db (db_load_locked store_alice).
Proof.
  destruct (save_load_roundtrip store_alice) as (H & _); [vm_compute; reflexivity|].
  exact H.
Defined.

(** C6 fails on the code: [db_save_locked] prints an account on one line
    of any length, and [db_load_locked] reads lines through a buffer of 1024
    bytes.  The snapshot loaded from [store_e308] (a joint account of three
    owners with names of 31 characters, holding 1e308 in each currency) is
    saved on a line of 1055 characters; the loader takes the first 1023 and
    finds a GBP balance of 1e280, while the two-decimal rounding of 1e308
    is 1e308 itself; users, ids and owners read back as they were.  A
    client gets there with eight commands that are all answered OK: after
    the third deposit of 1e308 the store reads back with 1e280 GBP. *)
Theorem save_load_cuts_long_record :
  map (fun a => length (acc_line a)) (accounts (db_load_locked store_e308)) = [1055]
  /\ map (fun a => b_gbp (bal a)) (accounts (db_load_locked store_e308))
     = [dec_to_double false 1 308]
  /\ round2 (dec_to_double false 1 308) = dec_to_double false 1 308
  /\ map (fun a => b_gbp (bal a))
         (accounts (db_load_locked (db_save_locked (db_load_locked store_e308))))
     = [dec_to_double false 1 280]
  /\ db_load_locked (db_save_locked (db_load_locked store_e308))
     <> round2_db (db_load_locked store_e308)
  /\ users (db_load_locked (db_save_locked (db_load_locked store_e308)))
     = users (db_load_locked store_e308)
  /\ map account_key
         (accounts (db_load_locked (db_save_locked (db_load_locked store_e308))))
     = map account_key (accounts (db_load_locked store_e308))
  /\ fst (handleClient no_rand {| loggedUser := []; store := []; rand_pos := 0 |}
                       session_huge)
     = [msg "OK Registered"; msg "OK Registered"; msg "OK Registered";
        msg "OK Logged in"; lit "OK Created ACC1000" ++ nl ++ lit "END" ++ nl;
        msg "OK Done"; msg "OK Done"; msg "OK Done"]
  /\ map (fun a => b_gbp (bal a)) (accounts (db_load_locked store_huge))
     = [dec_to_double false 1 280].
Proof.
  assert (E : map (fun a => b_gbp (bal a))
                  (accounts (db_load_locked (db_save_locked (db_load_locked store_e308))))
              = [dec_to_double false 1 280]) by (vm_compute; reflexivity).
  split; [vm_compute; reflexivity|]. split; [vm_compute; reflexivity|].
  split; [vm_compute; reflexivity|]. split; [exact E|]. split.
  - intros H. rewrite H in E. vm_compute in E. discriminate E.
  - split; [vm_compute; reflexivity|]. split; [vm_compute; reflexivity|].
    split; vm_compute; reflexivity.
Qed.

(** ** Balances stay non-negative when amounts are numbers *)

Lemma nonneg_spec (x : double) :
  nonneg x = match x with
             | S754_zero _ => true
             | S754_infinity s | S754_finite s _ _ => negb s
             | S754_nan => false
             end.
Proof. destruct x as [s|s| |s m e]; try destruct s; reflexivity. Qed.

Lemma shr_1_nonneg (mrs : shr_record) : (0 <= shr_m mrs)%Z -> (0 <= shr_m (shr_1 mrs))%Z.
Proof.
  destruct mrs as [m r s]. simpl.
  destruct m as [|p|p]; simpl; [lia| |lia]. destruct p; simpl; lia.
Qed.

Lemma iter_pos_shr_1_nonneg (p : positive) (mrs : shr_record) :
  (0 <= shr_m mrs)%Z -> (0 <= shr_m (SpecFloat.iter_pos shr_1 p mrs))%Z.
Proof.
  revert mrs; induction p as [p IH|p IH|]; intros mrs H; simpl.
  - apply IH, IH, shr_1_nonneg, H.
  - apply IH, IH, H.
  - apply shr_1_nonneg, H.
Qed.

Lemma shr_record_of_loc_m (m : Z) (l : location) : shr_m (shr_record_of_loc m l) = m.
Proof. destruct l as [|[]]; reflexivity. Qed.

Lemma shr_fexp_nonneg (m e : Z) (l : location) :
  (0 <= m)%Z -> (0 <= shr_m (fst (shr_fexp prec emax m e l)))%Z.
Proof.
  intros H. unfold shr_fexp, shr.
  destruct (fexp prec emax (Zdigits2 m + e) - e)%Z; simpl;
    try (rewrite shr_record_of_loc_m; exact H).
  apply iter_pos_shr_1_nonneg. now rewrite shr_record_of_loc_m.
Qed.

Lemma round_nearest_even_nonneg (m : Z) (l : location) :
  (0 <= m)%Z -> (0 <= round_nearest_even m l)%Z.
Proof. intros H. destruct l as [|[]]; simpl; try lia. destruct (Z.even m); lia. Qed.

(** Rounding a non-negative mantissa with a positive sign gives +0, a
    positive number or +infinity. *)
Lemma binary_round_aux_nonneg (m e : Z) (l : location) :
  (0 <= m)%Z -> nonneg (binary_round_aux prec emax false m e l) = true.
Proof.
  intros H. unfold binary_round_aux.
  pose proof (shr_fexp_nonneg m e l H) as H1.
  destruct (shr_fexp prec emax m e l) as [mrs' e']. simpl in H1.
  pose proof (shr_fexp_nonneg _ e' loc_Exact
                (round_nearest_even_nonneg _ (loc_of_shr_record mrs') H1)) as H2.
  destruct (shr_fexp prec emax _ e' loc_Exact) as [mrs'' e'']. simpl in H2.
  destruct (shr_m mrs''); [reflexivity| |lia].
  destruct (Z.leb _ _); reflexivity.
Qed.

Lemma binary_round_nonneg (m : positive) (e : Z) :
  nonneg (binary_round prec emax false m e) = true.
Proof.
  unfold binary_round. destruct (shl_align _ _ _) as [mz ez].
  apply binary_round_aux_nonneg. lia.
Qed.

Lemma binary_normalize_nonneg (m e : Z) :
  (0 <= m)%Z -> nonneg (binary_normalize prec emax m e false) = true.
Proof.
  intros H. destruct m as [|p|p]; [reflexivity | apply binary_round_nonneg | lia].
Qed.

Lemma dadd_nonneg (x y : double) :
  nonneg x = true -> nonneg y = true -> nonneg (dadd x y) = true.
Proof.
  rewrite (nonneg_spec x), (nonneg_spec y).
  destruct x as [sx|sx| |sx mx ex], y as [sy|sy| |sy my ey]; try discriminate;
    try (destruct sx; try discriminate); try (destruct sy; try discriminate);
    intros _ _; try reflexivity.
  unfold dadd, SFadd. apply binary_normalize_nonneg. unfold cond_Zopp. lia.
Qed.

Lemma dmul_nonneg (x y : double) :
  nonneg x = true -> nonneg y = true -> is_finite x = true -> is_finite y = true ->
  nonneg (dmul x y) = true.
Proof.
  rewrite (nonneg_spec x), (nonneg_spec y).
  destruct x as [sx|sx| |sx mx ex], y as [sy|sy| |sy my ey]; try discriminate;
    try (destruct sx; try discriminate); try (destruct sy; try discriminate);
    intros _ _ _ _; try reflexivity.
  unfold dmul, SFmul. apply binary_round_aux_nonneg. lia.
Qed.

(** *** Subtraction of a smaller number *)

Lemma digits2_pos_bounds (m : positive) :
  (2 ^ (Zpos (digits2_pos m) - 1) <= Zpos m < 2 ^ Zpos (digits2_pos m))%Z.
Proof.
  induction m as [m IH|m IH|]; cbn [digits2_pos]; [| |simpl; lia].
  - rewrite Pos2Z.inj_succ.
    replace (Z.succ (Zpos (digits2_pos m)) - 1)%Z with (Z.succ (Zpos (digits2_pos m) - 1))%Z by lia.
    rewrite !Z.pow_succ_r by lia. lia.
  - rewrite Pos2Z.inj_succ.
    replace (Z.succ (Zpos (digits2_pos m)) - 1)%Z with (Z.succ (Zpos (digits2_pos m) - 1))%Z by lia.
    rewrite !Z.pow_succ_r by lia. lia.
Qed.

Lemma iter_xO (m d : positive) : Zpos (Pos.iter xO m d) = (Zpos m * 2 ^ Zpos d)%Z.
Proof.
  induction d as [|d IH] using Pos.peano_ind.
  - simpl. lia.
  - rewrite Pos.iter_succ, Pos2Z.inj_succ, Z.pow_succ_r by lia.
    rewrite Pos2Z.inj_xO, IH. lia.
Qed.

Lemma shl_align_value (m : positive) (e e' : Z) :
  (e' <= e)%Z -> Zpos (fst (shl_align m e e')) = (Zpos m * 2 ^ (e - e'))%Z.
Proof.
  intros H. unfold shl_align. destruct (e' - e)%Z as [|p|p] eqn:E; simpl fst.
  - replace (e - e')%Z with 0%Z by lia. simpl. lia.
  - lia.
  - rewrite iter_xO. f_equal. f_equal. lia.
Qed.

Lemma canonical_facts (m : positive) (e : Z) :
  canonical_mantissa prec emax m e = true ->
  (Zpos (digits2_pos m) <= 53)%Z /\ (-1074 <= e)%Z
  /\ ((-1074 < e)%Z -> Zpos (digits2_pos m) = 53%Z).
Proof.
  unfold canonical_mantissa, fexp, SpecFloat.emin, emax, prec. intros H.
  apply Z.eqb_eq in H. lia.
Qed.

Lemma dsub_nonneg (x y : double) :
  valid x = true -> valid y = true ->
  nonneg x = true -> dle y d_zero = false -> is_finite y = true ->
  dlt x y = false ->
  nonneg (dsub x y) = true.
Proof.
  intros Vx Vy. rewrite (nonneg_spec x).
  destruct x as [sx|sx| |sx mx ex], y as [sy|sy| |sy my ey]; try discriminate;
    try (destruct sx; try discriminate); try (destruct sy; try discriminate);
    intros _ _ _ Hlt; try reflexivity; try discriminate.
  unfold dsub, SFsub. apply binary_normalize_nonneg. unfold cond_Zopp.
  unfold valid, valid_binary, bounded in Vx, Vy.
  apply andb_true_iff in Vx as [Cx _]. apply andb_true_iff in Vy as [Cy _].
  destruct (canonical_facts _ _ Cx) as (Dx & Ex & Nx).
  destruct (canonical_facts _ _ Cy) as (Dy & Ey & Ny).
  pose proof (digits2_pos_bounds mx) as Bx. pose proof (digits2_pos_bounds my) as By.
  unfold dlt, SFltb, SFcompare in Hlt.
  rewrite !shl_align_value by lia.
  destruct (Z.compare_spec ex ey) as [E|E|E]; [| discriminate |].
  - subst ey. rewrite Z.min_id, Z.sub_diag. simpl (2 ^ 0)%Z.
    rewrite Pos.compare_cont_spec in Hlt. simpl in Hlt.
    destruct (Pos.compare_spec mx my) as [C|C|C]; try discriminate; lia.
  - rewrite Z.min_r by lia. rewrite Z.sub_diag. simpl (2 ^ 0)%Z.
    specialize (Nx ltac:(lia)). rewrite Nx in Bx.
    assert (Hmy : (Zpos my < 2 ^ 53)%Z).
    { apply Z.lt_le_trans with (2 ^ Zpos (digits2_pos my))%Z; [lia|].
      apply Z.pow_le_mono_r; lia. }
    assert (H2 : (2 <= 2 ^ (ex - ey))%Z).
    { change 2%Z with (2 ^ 1)%Z at 1. apply Z.pow_le_mono_r; lia. }
    change (2 ^ (53 - 1))%Z with 4503599627370496%Z in Bx.
    change (2 ^ 53)%Z with 9007199254740992%Z in *. nia.
Qed.

(** ** Rounding gives binary64 values *)

Local Open Scope Z_scope.

Lemma Zdigits2_unique (x k : Z) :
  0 < x -> 2 ^ (k - 1) <= x < 2 ^ k -> Zdigits2 x = k.
Proof.
  intros Hx [H1 H2]. destruct x as [|p|p]; try lia. simpl.
  pose proof (digits2_pos_bounds p) as [B1 B2].
  set (d := Zpos (digits2_pos p)) in *.
  assert (0 < d) by (subst d; lia).
  destruct (Z.lt_trichotomy d k) as [L|[E|L]]; [|exact E|].
  - assert (2 ^ d <= 2 ^ (k - 1)) by (apply Z.pow_le_mono_r; lia). lia.
  - destruct (Z.le_gt_cases 0 k) as [K|K].
    + assert (2 ^ k <= 2 ^ (d - 1)) by (apply Z.pow_le_mono_r; lia). lia.
    + rewrite (Z.pow_neg_r 2 k) in H2 by lia. lia.
Qed.

Lemma Zdigits2_bounds (x : Z) :
  0 < x -> 2 ^ (Zdigits2 x - 1) <= x < 2 ^ Zdigits2 x.
Proof. intros H. destruct x as [|p|p]; try lia. apply digits2_pos_bounds. Qed.

Lemma Zdigits2_pos (x : Z) : 0 < x -> 0 < Zdigits2 x.
Proof. intros H. destruct x; simpl; lia. Qed.

Lemma Zdigits2_ge (x k : Z) : 0 < x -> 2 ^ (k - 1) <= x -> k <= Zdigits2 x.
Proof.
  intros Hx H. pose proof (Zdigits2_bounds x Hx) as [_ B].
  pose proof (Zdigits2_pos x Hx).
  destruct (Z.le_gt_cases k (Zdigits2 x)) as [L|L]; [exact L|].
  assert (2 ^ Zdigits2 x <= 2 ^ (k - 1)) by (apply Z.pow_le_mono_r; lia). lia.
Qed.

Lemma Zdigits2_mono (x y : Z) : 0 < x -> x <= y -> Zdigits2 x <= Zdigits2 y.
Proof.
  intros Hx H. apply Zdigits2_ge; [lia|].
  pose proof (Zdigits2_bounds x Hx). lia.
Qed.

Lemma Zdigits2_div_pow2 (m n : Z) :
  0 <= m -> 0 <= n ->
  (0 < m / 2 ^ n -> Zdigits2 (m / 2 ^ n) = Zdigits2 m - n)
  /\ (m / 2 ^ n = 0 -> Zdigits2 m <= n).
Proof.
  intros Hm Hn. assert (P : 0 < 2 ^ n) by (apply Z.pow_pos_nonneg; lia).
  destruct (Z.eq_dec m 0) as [->|Hz].
  { rewrite Z.div_0_l by lia. split; [lia | intros _; simpl; lia]. }
  pose proof (Zdigits2_bounds m ltac:(lia)) as [B1 B2].
  pose proof (Zdigits2_pos m ltac:(lia)) as Hd.
  set (d := Zdigits2 m) in *. split.
  - intros Hq.
    assert (Hge : 2 ^ n <= m).
    { destruct (Z.le_gt_cases (2 ^ n) m); [assumption|].
      rewrite Z.div_small in Hq by lia. lia. }
    assert (Hnd : n < d).
    { destruct (Z.lt_ge_cases n d); [assumption|].
      assert (2 ^ d <= 2 ^ n) by (apply Z.pow_le_mono_r; lia). lia. }
    apply Zdigits2_unique; [exact Hq|]. split.
    + apply Z.div_le_lower_bound; [lia|].
      rewrite <- Z.pow_add_r by lia. replace (n + (d - n - 1)) with (d - 1) by lia. lia.
    + apply Z.div_lt_upper_bound; [lia|].
      rewrite <- Z.pow_add_r by lia. replace (n + (d - n)) with d by lia. lia.
  - intros Hq. apply Z.div_small_iff in Hq; [|lia].
    destruct Hq as [Hq|Hq]; [|lia].
    destruct (Z.le_gt_cases d n); [assumption|].
    assert (2 ^ n <= 2 ^ (d - 1)) by (apply Z.pow_le_mono_r; lia). lia.
Qed.

Lemma shr_1_div2 (mrs : shr_record) : 0 <= shr_m mrs -> shr_m (shr_1 mrs) = shr_m mrs / 2.
Proof.
  destruct mrs as [m r s]. simpl. destruct m as [|p|p]; [reflexivity| |lia].
  intros _. destruct p; simpl shr_m.
  - rewrite (Pos2Z.inj_xI p). apply Z.div_unique with 1; lia.
  - rewrite (Pos2Z.inj_xO p). apply Z.div_unique with 0; lia.
  - reflexivity.
Qed.

Lemma iter_pos_shr_1_div (p : positive) (mrs : shr_record) :
  0 <= shr_m mrs ->
  shr_m (SpecFloat.iter_pos shr_1 p mrs) = shr_m mrs / 2 ^ Zpos p.
Proof.
  revert mrs; induction p as [p IH|p IH|]; intros mrs H; simpl SpecFloat.iter_pos.
  - rewrite IH by (apply iter_pos_shr_1_nonneg, shr_1_nonneg, H).
    rewrite IH by (apply shr_1_nonneg, H). rewrite shr_1_div2 by exact H.
    assert (0 < 2 ^ Zpos p) by (apply Z.pow_pos_nonneg; lia).
    rewrite !Z.div_div by lia. f_equal.
    rewrite (Pos2Z.inj_xI p), Z.pow_add_r, Z.pow_mul_r by lia.
    change (2 ^ 2) with 4. change (2 ^ 1) with 2.
    replace (4 ^ Zpos p) with (2 ^ Zpos p * 2 ^ Zpos p); [lia|].
    rewrite <- Z.pow_mul_l. reflexivity.
  - rewrite IH by (apply iter_pos_shr_1_nonneg, H). rewrite IH by exact H.
    assert (0 < 2 ^ Zpos p) by (apply Z.pow_pos_nonneg; lia).
    rewrite Z.div_div by lia. f_equal.
    rewrite (Pos2Z.inj_xO p), Z.pow_mul_r by lia. change (2 ^ 2) with 4.
    rewrite <- Z.pow_mul_l. reflexivity.
  - rewrite shr_1_div2 by exact H. reflexivity.
Qed.

Lemma fexp64_spec (e : Z) : fexp64 e = Z.max (e - 53) (-1074).
Proof. reflexivity. Qed.

(** After the shift of [shr_fexp] the mantissa and the exponent are
    canonical: this is what the two shifts of [binary_round_aux] rely on. *)
Lemma shr_fexp_spec (m e : Z) (l : location) :
  0 <= m -> e <= fexp64 (Zdigits2 m + e) ->
  0 <= shr_m (fst (shr_fexp prec emax m e l))
  /\ (0 < shr_m (fst (shr_fexp prec emax m e l)) ->
      fexp64 (Zdigits2 (shr_m (fst (shr_fexp prec emax m e l)))
              + snd (shr_fexp prec emax m e l))
      = snd (shr_fexp prec emax m e l))
  /\ (shr_m (fst (shr_fexp prec emax m e l)) = 0 ->
      snd (shr_fexp prec emax m e l) = -1074).
Proof.
  intros Hm Hpre. split; [now apply shr_fexp_nonneg|].
  unfold shr_fexp, shr. fold (fexp64 (Zdigits2 m + e)).
  rewrite (fexp64_spec (Zdigits2 m + e)) in *.
  assert (Hd : 0 <= Zdigits2 m) by (destruct m; simpl; lia).
  destruct (Z.max (Zdigits2 m + e - 53) (-1074) - e) as [|p|p] eqn:En; simpl fst; simpl snd.
  - rewrite shr_record_of_loc_m. split.
    + intros _. rewrite fexp64_spec. lia.
    + intros ->. simpl in *. lia.
  - rewrite iter_pos_shr_1_div by (rewrite shr_record_of_loc_m; exact Hm).
    rewrite shr_record_of_loc_m.
    destruct (Zdigits2_div_pow2 m (Zpos p) Hm ltac:(lia)) as (D1 & D2). split.
    + intros Hq. rewrite (D1 Hq), fexp64_spec. lia.
    + intros Hq. specialize (D2 Hq). lia.
  - lia.
Qed.

Lemma round_nearest_even_ge (m : Z) (l : location) :
  m <= round_nearest_even m l <= m + 1.
Proof. destruct l as [|[]]; simpl; try lia. destruct (Z.even m); lia. Qed.

(** The IEEE rounding step returns a binary64 value, provided the mantissa
    it starts from has at least the digits of the format. *)
Lemma binary_round_aux_valid (s : bool) (m e : Z) (l : location) :
  0 <= m -> e <= fexp64 (Zdigits2 m + e) ->
  valid (binary_round_aux prec emax s m e l) = true.
Proof.
  intros Hm Hpre. unfold binary_round_aux.
  destruct (shr_fexp_spec m e l Hm Hpre) as (A1 & A2 & A3).
  destruct (shr_fexp prec emax m e l) as [mrs' e']. simpl fst in *; simpl snd in *.
  set (m1 := round_nearest_even (shr_m mrs') (loc_of_shr_record mrs')).
  pose proof (round_nearest_even_ge (shr_m mrs') (loc_of_shr_record mrs')) as Hr.
  fold m1 in Hr.
  assert (Hm1 : 0 <= m1) by lia.
  assert (Hpre1 : e' <= fexp64 (Zdigits2 m1 + e')).
  { destruct (Z.eq_dec (shr_m mrs') 0) as [Hz|Hz].
    - rewrite (A3 Hz), fexp64_spec. lia.
    - specialize (A2 ltac:(lia)).
      pose proof (Zdigits2_mono (shr_m mrs') m1 ltac:(lia) ltac:(lia)).
      rewrite fexp64_spec in *. lia. }
  destruct (shr_fexp_spec m1 e' loc_Exact Hm1 Hpre1) as (B1 & B2 & B3).
  destruct (shr_fexp prec emax m1 e' loc_Exact) as [mrs'' e''].
  simpl fst in *; simpl snd in *.
  destruct (shr_m mrs'') as [|p|p] eqn:Ep; [reflexivity| |lia].
  destruct (Z.leb e'' (emax - prec)) eqn:El; [|reflexivity].
  unfold valid, valid_binary, bounded, canonical_mantissa.
  rewrite El, andb_true_r. apply Z.eqb_eq. apply (B2 ltac:(lia)).
Qed.

Lemma Zdigits2_mul_pow2 (m : positive) (k : Z) :
  0 <= k -> Zdigits2 (Zpos m * 2 ^ k) = Zpos (digits2_pos m) + k.
Proof.
  intros Hk. pose proof (digits2_pos_bounds m) as [B1 B2].
  assert (P : 0 < 2 ^ k) by (apply Z.pow_pos_nonneg; lia).
  apply Zdigits2_unique; [nia|]. split.
  - replace (Zpos (digits2_pos m) + k - 1) with ((Zpos (digits2_pos m) - 1) + k) by lia.
    rewrite Z.pow_add_r by lia. nia.
  - rewrite Z.pow_add_r by lia. nia.
Qed.

Lemma binary_round_valid (s : bool) (m : positive) (e : Z) :
  valid (binary_round prec emax s m e) = true.
Proof.
  unfold binary_round.
  set (t := fexp prec emax (Zpos (digits2_pos m) + e)).
  assert (Ht : t = fexp64 (Zpos (digits2_pos m) + e)) by reflexivity.
  destruct (shl_align m e t) as [mz ez] eqn:Es.
  apply binary_round_aux_valid; [lia|].
  unfold shl_align in Es. destruct (t - e) as [|p|p] eqn:E; injection Es as <- <-.
  - simpl Zdigits2. rewrite <- Ht. lia.
  - simpl Zdigits2. rewrite <- Ht. lia.
  - rewrite iter_xO, Zdigits2_mul_pow2 by lia.
    replace (Zpos (digits2_pos m) + Zpos p + t) with (Zpos (digits2_pos m) + e) by lia.
    rewrite <- Ht. lia.
Qed.

Lemma binary_normalize_valid (m e : Z) (sz : bool) :
  valid (binary_normalize prec emax m e sz) = true.
Proof. destruct m; [reflexivity | apply binary_round_valid | apply binary_round_valid]. Qed.

Lemma dadd_valid (x y : double) :
  valid x = true -> valid y = true -> valid (dadd x y) = true.
Proof.
  intros Vx Vy. unfold dadd, SFadd.
  destruct x as [sx|sx| |sx mx ex], y as [sy|sy| |sy my ey];
    try reflexivity; try assumption;
    try (destruct sx, sy; reflexivity).
  apply binary_normalize_valid.
Qed.

Lemma dsub_valid (x y : double) :
  valid x = true -> valid y = true -> valid (dsub x y) = true.
Proof.
  intros Vx Vy. unfold dsub, SFsub.
  destruct x as [sx|sx| |sx mx ex], y as [sy|sy| |sy my ey];
    try reflexivity; try assumption;
    try (destruct sx, sy; reflexivity).
  apply binary_normalize_valid.
Qed.

Lemma dmul_valid (x y : double) :
  valid x = true -> valid y = true -> valid (dmul x y) = true.
Proof.
  intros Vx Vy. unfold dmul, SFmul.
  destruct x as [sx|sx| |sx mx ex], y as [sy|sy| |sy my ey]; try reflexivity.
  apply binary_round_aux_valid; [lia|].
  unfold valid, valid_binary, bounded in Vx, Vy.
  apply andb_true_iff in Vx as [Cx _]. apply andb_true_iff in Vy as [Cy _].
  destruct (canonical_facts _ _ Cx) as (Dx & Ex & Nx).
  destruct (canonical_facts _ _ Cy) as (Dy & Ey & Ny).
  pose proof (digits2_pos_bounds mx) as [Bx _]. pose proof (digits2_pos_bounds my) as [By _].
  assert (HD : Zpos (digits2_pos mx) + Zpos (digits2_pos my) - 1
               <= Zdigits2 (Zpos (mx * my))).
  { apply Zdigits2_ge; [lia|]. rewrite Pos2Z.inj_mul.
    replace (Zpos (digits2_pos mx) + Zpos (digits2_pos my) - 1 - 1)
      with ((Zpos (digits2_pos mx) - 1) + (Zpos (digits2_pos my) - 1)) by lia.
    rewrite Z.pow_add_r by lia.
    assert (0 < 2 ^ (Zpos (digits2_pos mx) - 1)) by (apply Z.pow_pos_nonneg; lia).
    assert (0 < 2 ^ (Zpos (digits2_pos my) - 1)) by (apply Z.pow_pos_nonneg; lia). nia. }
  rewrite fexp64_spec.
  destruct (Z.eq_dec ex (-1074)), (Z.eq_dec ey (-1074));
    try specialize (Nx ltac:(lia)); try specialize (Ny ltac:(lia)); lia.
Qed.

Lemma dopp_valid (x : double) : valid x = true -> valid (dopp x) = true.
Proof. now destruct x. Qed.

(** *** Decimal strings *)

Lemma Zdigits2_div (a b : Z) :
  0 < a -> 0 < b -> Zdigits2 a - Zdigits2 b <= Zdigits2 (a / b).
Proof.
  intros Ha Hb.
  pose proof (Zdigits2_bounds a Ha) as [A1 A2]. pose proof (Zdigits2_bounds b Hb) as [B1 B2].
  pose proof (Zdigits2_pos a Ha). pose proof (Zdigits2_pos b Hb).
  set (da := Zdigits2 a) in *. set (db := Zdigits2 b) in *.
  assert (Hq : 0 <= a / b) by (apply Z.div_pos; lia).
  destruct (Z.le_gt_cases da db) as [L|L].
  { destruct (a / b); simpl; lia. }
  assert (Hlow : 2 ^ (da - db - 1) <= a / b).
  { apply Z.div_le_lower_bound; [lia|].
    assert (b * 2 ^ (da - db - 1) <= 2 ^ db * 2 ^ (da - db - 1)).
    { apply Z.mul_le_mono_nonneg_r; [apply Z.pow_nonneg|]; lia. }
    rewrite <- Z.pow_add_r in H1 by lia.
    replace (db + (da - db - 1)) with (da - 1) in H1 by lia. lia. }
  assert (0 < 2 ^ (da - db - 1)) by (apply Z.pow_pos_nonneg; lia).
  apply Zdigits2_ge; lia.
Qed.

Lemma SFdiv_int_valid (s : bool) (p q : positive) :
  valid (SFdiv prec emax (S754_finite s p 0) (S754_finite false q 0)) = true.
Proof.
  unfold SFdiv, SFdiv_core_binary.
  set (d1 := Zdigits2 (Zpos p)). set (d2 := Zdigits2 (Zpos q)).
  rewrite !Z.add_0_r, Z.sub_0_r.
  set (e' := Z.min (fexp prec emax (d1 - d2)) 0).
  assert (He' : e' = Z.min (fexp64 (d1 - d2)) 0) by reflexivity.
  assert (Hs : 0 <= 0 - e') by lia.
  set (m' := match 0 - e' with
             | 0 => Zpos p
             | Zpos _ => Z.shiftl (Zpos p) (0 - e')
             | Zneg _ => 0
             end).
  assert (Hm' : m' = Zpos p * 2 ^ (0 - e')).
  { subst m'. destruct (0 - e') as [|k|k] eqn:E; [simpl; lia| |lia].
    rewrite Z.shiftl_mul_pow2 by lia. reflexivity. }
  assert (Hd1 : Zdigits2 m' = d1 + (0 - e')).
  { rewrite Hm'. apply Zdigits2_mul_pow2. lia. }
  assert (Hpos : 0 < m').
  { rewrite Hm'. assert (0 < 2 ^ (0 - e')) by (apply Z.pow_pos_nonneg; lia). nia. }
  pose proof (Zdigits2_div m' (Zpos q) Hpos ltac:(lia)) as Hq.
  unfold Z.div in Hq. destruct (Z.div_eucl m' (Zpos q)) as [qq rr] eqn:Ed.
  simpl fst in Hq.
  assert (Hqq : 0 <= qq).
  { pose proof (Z.div_pos m' (Zpos q) ltac:(lia) ltac:(lia)) as H.
    unfold Z.div in H. now rewrite Ed in H. }
  apply binary_round_aux_valid; [exact Hqq|].
  fold d2 in Hq. rewrite Hd1 in Hq. rewrite fexp64_spec in *. lia.
Qed.

Lemma dec_to_double_valid (s : bool) (n k : Z) : valid (dec_to_double s n k) = true.
Proof.
  unfold dec_to_double. destruct n as [|p|p]; [reflexivity| |reflexivity].
  destruct (0 <=? k); [apply binary_round_valid | apply SFdiv_int_valid].
Qed.

Lemma bin_to_double_valid (s : bool) (n k : Z) : valid (bin_to_double s n k) = true.
Proof.
  unfold bin_to_double. destruct n; [reflexivity | apply binary_round_valid | reflexivity].
Qed.

Lemma strtod_buf_valid (buf : text) (v : double) :
  strtod_buf buf = Some v -> valid v = true.
Proof.
  unfold strtod_buf. destruct buf as [|c b1]; [discriminate|].
  destruct (is_ch "n" c); [now intros [= <-]|].
  destruct (is_ch "i" c); [now intros [= <-]|].
  match goal with
  | |- match ?h with Some _ => _ | None => _ end = _ -> _ =>
      assert (Hh : forall w, h = Some w -> valid w = true); [|destruct h as [w|] eqn:Eh]
  end.
  - intros w. destruct b1 as [|x b2]; [discriminate|].
    destruct (_ && _); [|discriminate].
    destruct (strtod_mant span_xdigits b2) as [[d1 d2] r].
    destruct (d1 ++ d2); [discriminate|]. intros [= <-]. apply bin_to_double_valid.
  - intros [= <-]. now apply Hh.
  - destruct (strtod_mant span_digits (c :: b1)) as [[d1 d2] r].
    destruct (d1 ++ d2); [discriminate|]. intros [= <-]. apply dec_to_double_valid.
Qed.

(** Every double a [%lf] conversion stores is a binary64 value. *)
Lemma scan_lf_valid (s r : text) (v : double) :
  scan_lf s = Some (v, r) -> valid v = true.
Proof.
  unfold scan_lf. destruct (scan_sign (skip_ws s)) as [neg s1].
  destruct (lf_item s1) as [[buf rest]|]; [|discriminate].
  destruct (strtod_buf buf) as [w|] eqn:E; [|discriminate].
  apply strtod_buf_valid in E. intros [= <- _].
  destruct neg; [now apply dopp_valid | exact E].
Qed.

Local Close Scope Z_scope.

(** ** Balances stay non-negative when the amount is a number *)

Lemma load_line_valid (db : DB) (buf : text) :
  db_valid db = true -> db_valid (load_line db buf) = true.
Proof.
  intros H. unfold load_line.
  destruct (trim_newline (cstr buf)) as [|c0 l0] eqn:El; [exact H|].
  destruct (starts_with (lit "USER ") (c0 :: l0)).
  { destruct (Nat.leb MAX_USERS (length (users db))); [exact H|].
    destruct (sscanf_user (c0 :: l0)) as [[u p]|]; exact H. }
  destruct (starts_with (lit "ACC ") (c0 :: l0)); [|exact H].
  destruct (Nat.leb MAX_ACCOUNTS (length (accounts db))); [exact H|].
  destruct (sscanf_acc (c0 :: l0)) as [[[[[[[i ty] n] csv] b0] b1] b2]|] eqn:Es; [|exact H].
  unfold db_valid. cbn [accounts]. rewrite forallb_app. fold (db_valid db). rewrite H.
  cbn [forallb bal balances_valid b_usd b_eur b_gbp]. rewrite andb_true_r.
  unfold sscanf_acc in Es.
  destruct (scan_lit (lit "ACC") (c0 :: l0)) as [r0|]; [|discriminate].
  destruct (scan_s 31 r0) as [[i' r1]|]; [|discriminate].
  destruct (scan_s 15 r1) as [[ty' r2]|]; [|discriminate].
  destruct (scan_d r2) as [[n' r3]|]; [|discriminate].
  destruct (scan_s 255 r3) as [[csv' r4]|]; [|discriminate].
  destruct (scan_lf r4) as [[x0 r5]|] eqn:E0; [|discriminate].
  destruct (scan_lf r5) as [[x1 r6]|] eqn:E1; [|discriminate].
  destruct (scan_lf r6) as [[x2 r7]|] eqn:E2; [|discriminate].
  injection Es as _ _ _ _ <- <- <-.
  apply scan_lf_valid in E0, E1, E2. unfold balances_valid. cbn [b_usd b_eur b_gbp].
  now rewrite E0, E1, E2.
Qed.

Lemma fold_load_valid (ls : list text) (db : DB) :
  db_valid db = true -> db_valid (fold_left load_line ls db) = true.
Proof.
  revert db; induction ls as [|l ls IH]; intros db H; [exact H|].
  cbn [fold_left]. apply IH, load_line_valid, H.
Qed.

(** Every balance of a loaded snapshot is a binary64 value. *)
Lemma db_load_valid (store : text) : db_valid (db_load_locked store) = true.
Proof. unfold db_load_locked. now apply fold_load_valid. Qed.

Lemma account_at_forallb (P : Account -> bool) (db : DB) (idx : nat) :
  forallb P (accounts db) = true -> idx < length (accounts db) ->
  P (account_at db idx) = true.
Proof.
  intros H Hi. rewrite forallb_forall in H. apply H. unfold account_at.
  now apply nth_In.
Qed.

Lemma set_account_forallb (P : Account -> bool) (db : DB) (idx : nat) (a : Account) :
  forallb P (accounts db) = true -> P a = true ->
  forallb P (accounts (set_account db idx a)) = true.
Proof.
  intros H Ha. unfold set_account. cbn [accounts].
  revert idx; induction (accounts db) as [|x l IH]; intros idx; [reflexivity|].
  cbn [forallb] in H. apply andb_true_iff in H as [Hx Hl].
  destruct idx as [|idx]; cbn.
  - now rewrite Ha, Hl.
  - rewrite Hx. now apply IH.
Qed.

Lemma bal_set_nonneg (b : Balances) (c : Currency) (v : double) :
  balances_nonneg b = true -> nonneg v = true -> balances_nonneg (bal_set b c v) = true.
Proof.
  unfold balances_nonneg. intros H Hv.
  apply andb_true_iff in H as [H H3]. apply andb_true_iff in H as [H1 H2].
  destruct c; cbn; now rewrite ?H1, ?H2, ?H3, ?Hv.
Qed.

Lemma bal_get_nonneg (b : Balances) (c : Currency) :
  balances_nonneg b = true -> nonneg (bal_get b c) = true.
Proof.
  unfold balances_nonneg. intros H.
  apply andb_true_iff in H as [H H3]. apply andb_true_iff in H as [H1 H2].
  now destruct c.
Qed.

Lemma bal_get_valid (b : Balances) (c : Currency) :
  balances_valid b = true -> valid (bal_get b c) = true.
Proof.
  unfold balances_valid. intros H.
  apply andb_true_iff in H as [H H3]. apply andb_true_iff in H as [H1 H2].
  now destruct c.
Qed.

Lemma rate_number (from to : Currency) :
  nonneg (rate from to) = true /\ is_finite (rate from to) = true.
Proof. destruct from, to; vm_compute; split; reflexivity. Qed.

Lemma positive_amount (amount : double) :
  dle amount d_zero = false -> is_finite amount = true -> nonneg amount = true.
Proof. destruct amount as [[]|[]| |[] m e]; try discriminate; reflexivity. Qed.

(** X1: when every balance of the store is >= 0 and the amount of a
    DEPOSIT, WITHDRAW or EXCHANGE is a number (a binary64 value that is
    neither NaN nor an infinity), every balance of the snapshot the command
    saves is >= 0: a deposit adds a positive amount, a withdrawal and the
    source side of an exchange take no more than the balance, and the
    converted amount is a product of two non-negative numbers. *)
Theorem finite_amount_keeps_nonneg :
  forall (store lu accid : text) (amount : double),
    db_nonneg (db_load_locked store) = true ->
    valid amount = true -> is_finite amount = true ->
    (forall op curS resp db',
        cmd_deposit_withdraw store lu op accid curS amount = Saved resp db' ->
        db_nonneg db' = true)
    /\ (forall fromS toS resp db',
        cmd_exchange store lu accid fromS toS amount = Saved resp db' ->
        db_nonneg db' = true).
Proof.
  intros store lu accid amount Hnn Hv Hf.
  pose proof (db_load_valid store) as Hval.
  set (db := db_load_locked store) in *.
  split.
  - intros op curS resp db'. unfold cmd_deposit_withdraw. fold db.
    destruct lu as [|c0 l0]; [discriminate|].
    destruct (dle amount d_zero) eqn:Ea; [discriminate|].
    destruct (parse_currency curS) as [cur|]; [|discriminate].
    destruct (account_index db accid) as [idx|] eqn:Ei; [|discriminate].
    destruct (negb (is_owner (account_at db idx) (c0 :: l0))); [discriminate|].
    pose proof (account_index_lt _ _ _ Ei) as Hlt.
    pose proof (account_at_forallb _ db idx Hnn Hlt) as Hb.
    pose proof (account_at_forallb _ db idx Hval Hlt) as Hvb.
    cbv beta in Hb, Hvb.
    destruct (streq op (lit "DEPOSIT")).
    + intros [= _ <-]. apply set_account_forallb; [exact Hnn|]. cbn [with_bal bal].
      apply bal_set_nonneg; [exact Hb|].
      apply dadd_nonneg; [now apply bal_get_nonneg | now apply positive_amount].
    + destruct (streq op (lit "WITHDRAW")); [|discriminate].
      destruct (dlt (bal_get (bal (account_at db idx)) cur) amount) eqn:El; [discriminate|].
      intros [= _ <-]. apply set_account_forallb; [exact Hnn|]. cbn [with_bal bal].
      apply bal_set_nonneg; [exact Hb|].
      apply dsub_nonneg; auto using bal_get_valid, bal_get_nonneg.
  - intros fromS toS resp db'. unfold cmd_exchange. fold db.
    destruct lu as [|c0 l0]; [discriminate|].
    destruct (dle amount d_zero) eqn:Ea; [discriminate|].
    destruct (parse_currency fromS) as [from|]; [|discriminate].
    destruct (parse_currency toS) as [to|]; [|discriminate].
    destruct (cur_eqb from to); [discriminate|].
    destruct (account_index db accid) as [idx|] eqn:Ei; [|discriminate].
    destruct (negb (is_owner (account_at db idx) (c0 :: l0))); [discriminate|].
    destruct (dlt (bal_get (bal (account_at db idx)) from) amount) eqn:El; [discriminate|].
    pose proof (account_index_lt _ _ _ Ei) as Hlt.
    pose proof (account_at_forallb _ db idx Hnn Hlt) as Hb.
    pose proof (account_at_forallb _ db idx Hval Hlt) as Hvb.
    cbv beta in Hb, Hvb.
    intros [= _ <-]. apply set_account_forallb; [exact Hnn|]. cbn [with_bal bal].
    assert (H1 : balances_nonneg
                   (bal_set (bal (account_at db idx)) from
                      (dsub (bal_get (bal (account_at db idx)) from) amount)) = true).
    { apply bal_set_nonneg; [exact Hb|].
      apply dsub_nonneg; auto using bal_get_valid, bal_get_nonneg. }
    apply bal_set_nonneg; [exact H1|].
    apply dadd_nonneg; [now apply bal_get_nonneg|].
    destruct (rate_number from to) as [R1 R2].
    apply dmul_nonneg; auto using positive_amount.
Qed.

Lemma finite_amount_keeps_nonneg_witness :
  exists resp db',
    cmd_exchange store_alice (lit "alice") (lit "ACC1000") (lit "USD") (lit "EUR")
                 (dec_to_double false 25 0) = Saved resp db'
    /\ db_nonneg db' = true.
Proof.
  destruct (finite_amount_keeps_nonneg store_alice (lit "alice") (lit "ACC1000")
              (dec_to_double false 25 0)) as [_ H].
  - vm_compute; reflexivity.
  - vm_compute; reflexivity.
  - vm_compute; reflexivity.
  - destruct (cmd_exchange store_alice (lit "alice") (lit "ACC1000") (lit "USD") (lit "EUR")
                (dec_to_double false 25 0)) as [r|r d] eqn:E.
    + vm_compute in E. discriminate E.
    + exists r, d. split; [reflexivity|]. apply (H _ _ _ _ E).
Defined.

(** ** What the loader guarantees *)

Lemma tokenb_length (n : nat) (t : text) : tokenb n t = true -> 1 <= length t <= n.
Proof.
  intros H. apply tokenb_spec in H as (H1 & H2 & _).
  destruct t; [congruence | cbn [length] in *; lia].
Qed.

Lemma no_comma_spec (t : text) : no_comma t = true -> ~ In comma t.
Proof.
  unfold no_comma. intros H Hin. rewrite forallb_forall in H.
  specialize (H _ Hin). now rewrite Ascii.eqb_refl in H.
Qed.

(** X2: whatever the store file holds, the snapshot [db_load_locked] builds
    has at most MAX_USERS users and MAX_ACCOUNTS accounts; every user name,
    password and account id has 1 to 31 characters; every account has at
    most MAX_OWNERS owners, each a name of 1 to 31 characters without a
    comma. *)
Theorem loaded_snapshot_bounds :
  forall store : text,
    length (users (db_load_locked store)) <= MAX_USERS
    /\ length (accounts (db_load_locked store)) <= MAX_ACCOUNTS
    /\ (forall u, In u (users (db_load_locked store)) ->
          1 <= length (username u) <= 31 /\ 1 <= length (password u) <= 31)
    /\ (forall a, In a (accounts (db_load_locked store)) ->
          1 <= length (id a) <= 31
          /\ length (owners a) <= MAX_OWNERS
          /\ forall o, In o (owners a) -> 1 <= length o <= 31 /\ ~ In comma o).
Proof.
  intros store. pose proof (db_load_wf store) as H.
  apply wf_db_spec in H as (Hu & Ha & Hnu & Hna).
  split; [exact Hnu|]. split; [exact Hna|]. split.
  - intros u Hin. rewrite forallb_forall in Hu.
    destruct (wf_user_spec u (Hu u Hin)) as [H1 H2].
    split; now apply tokenb_length.
  - intros a Hin. rewrite forallb_forall in Ha.
    destruct (wf_account_spec a (Ha a Hin)) as (H1 & H2 & H3).
    split; [now apply tokenb_length|]. split; [exact H3|].
    intros o Ho. rewrite forallb_forall in H2. specialize (H2 o Ho).
    unfold ownerb in H2. apply andb_true_iff in H2 as [T C].
    split; [now apply tokenb_length | now apply no_comma_spec].
Qed.

(** ** DEPOSIT and WITHDRAW *)

(** X3: a DEPOSIT or a WITHDRAW that passes the checks (logged-in owner,
    amount not <= 0, known currency, existing account and, for WITHDRAW, a
    balance not below the amount) answers "OK Done" and saves a snapshot in
    which that one balance is the binary64 sum (difference) of the old
    balance and the amount; the other two balances, the account's id, kind
    and owners, every other account and the users are as loaded. *)
Theorem deposit_withdraw_updates_snapshot :
  forall (store lu accid curS : text) (amount : double) (cur : Currency) (idx : nat),
    lu <> [] ->
    dle amount d_zero = false ->
    parse_currency curS = Some cur ->
    account_index (db_load_locked store) accid = Some idx ->
    is_owner (account_at (db_load_locked store) idx) lu = true ->
    (exists db',
        cmd_deposit_withdraw store lu (lit "DEPOSIT") accid curS amount
        = Saved (msg "OK Done") db'
        /\ users db' = users (db_load_locked store)
        /\ length (accounts db') = length (accounts (db_load_locked store))
        /\ (forall j, j <> idx -> account_at db' j = account_at (db_load_locked store) j)
        /\ id (account_at db' idx) = accid
        /\ isJoint (account_at db' idx) = isJoint (account_at (db_load_locked store) idx)
        /\ owners (account_at db' idx) = owners (account_at (db_load_locked store) idx)
        /\ bal_get (bal (account_at db' idx)) cur
           = dadd (bal_get (bal (account_at (db_load_locked store) idx)) cur) amount
        /\ (forall c, cur_eqb c cur = false ->
              bal_get (bal (account_at db' idx)) c
              = bal_get (bal (account_at (db_load_locked store) idx)) c))
    /\ (dlt (bal_get (bal (account_at (db_load_locked store) idx)) cur) amount = false ->
        exists db',
          cmd_deposit_withdraw store lu (lit "WITHDRAW") accid curS amount
          = Saved (msg "OK Done") db'
          /\ users db' = users (db_load_locked store)
          /\ length (accounts db') = length (accounts (db_load_locked store))
          /\ (forall j, j <> idx -> account_at db' j = account_at (db_load_locked store) j)
          /\ id (account_at db' idx) = accid
          /\ isJoint (account_at db' idx) = isJoint (account_at (db_load_locked store) idx)
          /\ owners (account_at db' idx) = owners (account_at (db_load_locked store) idx)
          /\ bal_get (bal (account_at db' idx)) cur
             = dsub (bal_get (bal (account_at (db_load_locked store) idx)) cur) amount
          /\ (forall c, cur_eqb c cur = false ->
                bal_get (bal (account_at db' idx)) c
                = bal_get (bal (account_at (db_load_locked store) idx)) c)).
Proof.
  intros store lu accid curS amount cur idx Hlu Hamt Hc Hidx Hown.
  set (db := db_load_locked store) in *.
  set (a := account_at db idx) in *.
  assert (Hlt : idx < length (accounts db)) by (eapply account_index_lt; eauto).
  assert (Hid : id a = accid) by (subst a; now apply account_index_id).
  destruct lu as [|c0 lu0]; [congruence|].
  split.
  - eexists. split.
    { unfold cmd_deposit_withdraw. rewrite Hamt, Hc. fold db. rewrite Hidx. fold a.
      rewrite Hown. reflexivity. }
    repeat split.
    + unfold set_account; cbn [accounts]. apply length_insert.
    + intros j Hj. now apply account_at_set_other.
    + rewrite account_at_set_same by exact Hlt. exact Hid.
    + now rewrite account_at_set_same.
    + now rewrite account_at_set_same.
    + rewrite account_at_set_same by exact Hlt. cbn [with_bal bal]. apply bal_get_set_same.
    + intros c Hne. rewrite account_at_set_same by exact Hlt. cbn [with_bal bal].
      now apply bal_get_set_other.
  - intros Hbal. eexists. split.
    { unfold cmd_deposit_withdraw. rewrite Hamt, Hc. fold db. rewrite Hidx. fold a.
      rewrite Hown, Hbal. reflexivity. }
    repeat split.
    + unfold set_account; cbn [accounts]. apply length_insert.
    + intros j Hj. now apply account_at_set_other.
    + rewrite account_at_set_same by exact Hlt. exact Hid.
    + now rewrite account_at_set_same.
    + now rewrite account_at_set_same.
    + rewrite account_at_set_same by exact Hlt. cbn [with_bal bal]. apply bal_get_set_same.
    + intros c Hne. rewrite account_at_set_same by exact Hlt. cbn [with_bal bal].
      now apply bal_get_set_other.
Qed.

Lemma deposit_withdraw_updates_snapshot_witness :
  exists db',
    cmd_deposit_withdraw store_alice (lit "alice") (lit "WITHDRAW") (lit "ACC1000")
                         (lit "USD") (dec_to_double false 2550 (-2))
    = Saved (msg "OK Done") db'
    /\ fmt_f 2 (bal_get (bal (account_at db' 0)) CUR_USD) = lit "74.50".
Proof.
  destruct (deposit_withdraw_updates_snapshot store_alice (lit "alice") (lit "ACC1000")
              (lit "USD") (dec_to_double false 2550 (-2)) CUR_USD 0) as [_ H];
    try (vm_compute; congruence).
  destruct H as (db' & H & _ & _ & _ & _ & _ & _ & H1 & _); [vm_compute; reflexivity|].
  exists db'. split; [exact H|]. rewrite H1. vm_compute; reflexivity.
Defined.

(** ** The snapshots the commands save *)

Lemma acc_id_format_token (aid : text) :
  acc_id_format aid -> tokenb 31 aid = true /\ length aid = 7.
Proof.
  intros (ds & -> & Hl & Hd). split.
  - apply tokenb_spec. split; [discriminate|]. split.
    + rewrite length_app, Hl. cbn. lia.
    + rewrite forallb_app. apply andb_true_iff. split; [reflexivity|].
      rewrite forallb_forall in *. intros c Hc. now apply isdigit_facts, Hd.
  - rewrite length_app, Hl. reflexivity.
Qed.

Lemma sscanf_kw2_token (kw : string) (n1 n2 : nat) (line a b : text) :
  forallb not_nul line = true -> sscanf_kw2 kw n1 n2 line = Some (a, b) ->
  tokenb n1 a = true /\ tokenb n2 b = true.
Proof.
  intros Hl. unfold sscanf_kw2.
  destruct (scan_lit (lit kw) line) as [r0|] eqn:E0; [|discriminate].
  pose proof (scan_lit_not_nul _ _ _ Hl E0) as H0.
  destruct (scan_s n1 r0) as [[a' r1]|] eqn:E1; [|discriminate].
  destruct (scan_s_sound _ _ _ _ H0 E1) as [Ta H1].
  destruct (scan_s n2 r1) as [[b' r2]|] eqn:E2; [|discriminate].
  destruct (scan_s_sound _ _ _ _ H1 E2) as [Tb _].
  now intros [= <- <-].
Qed.

Lemma register_saved (store u p resp : text) (db' : DB) :
  cmd_register store u p = Saved resp db' ->
  resp = msg "OK Registered"
  /\ user_index (db_load_locked store) u = None
  /\ length (users (db_load_locked store)) < MAX_USERS
  /\ db' = {| users := users (db_load_locked store)
                        ++ [ {| username := strncpy USERNAME_LEN u;
                                password := strncpy PASS_LEN p |} ];
              accounts := accounts (db_load_locked store) |}.
Proof.
  unfold cmd_register.
  destruct (user_index (db_load_locked store) u); [discriminate|].
  destruct (Nat.leb MAX_USERS (length (users (db_load_locked store)))) eqn:E; [discriminate|].
  apply Nat.leb_gt in E. intros [= <- <-]. auto.
Qed.

Lemma register_saved_wf (store u p resp : text) (db' : DB) :
  tokenb 31 u = true -> tokenb 31 p = true ->
  cmd_register store u p = Saved resp db' -> wf_db db' = true.
Proof.
  intros Tu Tp H. apply register_saved in H as (_ & _ & Hn & ->).
  pose proof (db_load_wf store) as Hwf. apply wf_db_spec in Hwf as (Hu & Ha & _ & Hna).
  apply wf_db_spec. cbn [users accounts]. rewrite forallb_app, length_app, Hu.
  unfold PASS_LEN, USERNAME_LEN. rewrite !tokenb_strncpy by assumption.
  cbn [forallb length]. unfold wf_user. cbn [username password]. rewrite Tu, Tp.
  repeat split; auto. lia.
Qed.

Lemma registered_token (db : DB) (o : text) :
  wf_db db = true -> user_index db o <> None -> tokenb 31 o = true.
Proof.
  intros Hwf H. destruct (user_index db o) as [i|] eqn:E; [|congruence].
  destruct (user_index_registered _ _ _ E) as (u & Hu & <-).
  apply wf_db_spec in Hwf as (Hus & _). rewrite forallb_forall in Hus.
  now destruct (wf_user_spec u (Hus u Hu)).
Qed.

Lemma create_account_reply (rnd : nat -> N) (pos : nat)
    (store lu ty csv resp : text) (db' : DB) (pos' : nat) :
  cmd_create_account rnd pos store lu ty csv = (Saved resp db', pos') ->
  exists a,
    accounts db' = accounts (db_load_locked store) ++ [a]
    /\ acc_id_format (id a)
    /\ resp = lit "OK Created " ++ id a ++ nl ++ lit "END" ++ nl.
Proof.
  unfold cmd_create_account.
  destruct lu as [|c0 lu0]; [discriminate|].
  destruct (parse_type ty) as [joint|]; [|discriminate].
  destruct (Nat.leb _ _); [discriminate|].
  pose proof (gen_loop_spec (db_load_locked store) rnd GEN_TRIES pos) as Hg.
  fold (gen_account_id rnd (db_load_locked store) pos) in Hg.
  destruct (gen_account_id _ _ _) as [[aid|] p1]; [|discriminate].
  destruct Hg as (_ & Hfmt & _).
  destruct (parse_owners _ _ 0) as [os|]; [|discriminate].
  destruct (check_owners joint os (c0 :: lu0)); [discriminate|].
  intros [= <- <- <-]. eexists. split; [reflexivity|]. cbn [id].
  split; [exact Hfmt|].
  destruct (acc_id_format_token aid Hfmt) as [_ Hl].
  unfold snprintf. apply firstn_all2. rewrite !length_app, Hl. cbn. lia.
Qed.

Lemma strtok_loop_no_comma (cur s : text) :
  no_comma cur = true -> Forall (fun t => no_comma t = true) (strtok_loop comma cur s).
Proof.
  revert cur; induction s as [|c s IH]; intros cur Hc; cbn [strtok_loop].
  - destruct cur; constructor; [|constructor].
    unfold no_comma in *. now rewrite forallb_rev.
  - destruct (Ascii.eqb c comma) eqn:E.
    + destruct cur as [|d cur]; [now apply IH|].
      constructor; [|now apply IH]. unfold no_comma in *. now rewrite forallb_rev.
    + apply IH. unfold no_comma in *. cbn [forallb]. now rewrite E, Hc.
Qed.

Lemma Forall_firstn_list {A : Type} (P : A -> Prop) (n : nat) (l : list A) :
  Forall P l -> Forall P (firstn n l).
Proof.
  intros H. revert n; induction H; intros [|n]; cbn; constructor; auto.
Qed.

Lemma create_saved_wf (rnd : nat -> N) (pos : nat)
    (store lu ty csv resp : text) (db' : DB) (pos' : nat) :
  cmd_create_account rnd pos store lu ty csv = (Saved resp db', pos') ->
  wf_db db' = true.
Proof.
  intros H. pose proof (create_account_reply _ _ _ _ _ _ _ _ _ H) as (a0 & Ha0 & Hfmt & _).
  pose proof H as Hlim.
  apply create_account_saved in H
    as (a & -> & _ & _ & _ & _ & Hos & Hne & _ & Hreg & _).
  cbn [accounts] in Ha0. apply app_inv_head in Ha0. injection Ha0 as <-.
  pose proof (db_load_wf store) as Hwf.
  pose proof Hwf as Hwf'. apply wf_db_spec in Hwf' as (Hu & Ha & Hnu & Hna).
  apply wf_db_spec. cbn [users accounts]. rewrite forallb_app, length_app, Ha.
  cbn [forallb length]. split; [exact Hu|].
  assert (Hown : forallb ownerb (owners a) = true).
  { apply forallb_forall. intros o Ho. unfold ownerb.
    rewrite (registered_token _ o Hwf (Hreg o Ho)). cbn [andb].
    pose proof (strtok_loop_no_comma [] (strncpy_term 256 csv) eq_refl) as Hc.
    fold (strtok_all (strncpy_term 256 csv)) in Hc.
    apply (Forall_firstn_list _ MAX_OWNERS) in Hc. rewrite <- Hos in Hc.
    rewrite List.Forall_forall in Hc. now apply Hc. }
  assert (Hlen : length (owners a) <= MAX_OWNERS).
  { rewrite Hos. apply firstn_le_length. }
  split.
  - unfold wf_account. rewrite (proj1 (acc_id_format_token _ Hfmt)), Hown.
    cbn [andb]. rewrite andb_true_r. now apply Nat.leb_le.
  - split; [exact Hnu|].
    unfold cmd_create_account in Hlim. destruct lu; [discriminate|].
    destruct (parse_type ty); [|discriminate].
    destruct (Nat.leb MAX_ACCOUNTS (length (accounts (db_load_locked store)))) eqn:E;
      [discriminate|].
    apply Nat.leb_gt in E. lia.
Qed.

Lemma set_account_wf (db : DB) (idx : nat) (b : Balances) :
  wf_db db = true -> idx < length (accounts db) ->
  wf_db (set_account db idx (with_bal (account_at db idx) b)) = true.
Proof.
  intros Hwf Hlt. apply wf_db_spec in Hwf as (Hu & Ha & Hnu & Hna).
  apply wf_db_spec. split; [exact Hu|]. split.
  - apply set_account_forallb; [exact Ha|].
    exact (account_at_forallb wf_account db idx Ha Hlt).
  - unfold set_account. cbn [users accounts]. rewrite length_insert. auto.
Qed.

Lemma deposit_withdraw_saved_wf (store lu op accid curS resp : text)
    (amount : double) (db' : DB) :
  cmd_deposit_withdraw store lu op accid curS amount = Saved resp db' ->
  wf_db db' = true.
Proof.
  unfold cmd_deposit_withdraw.
  destruct lu as [|c0 l0]; [discriminate|].
  destruct (dle amount d_zero); [discriminate|].
  destruct (parse_currency curS) as [cur|]; [|discriminate].
  destruct (account_index (db_load_locked store) accid) as [idx|] eqn:Ei; [|discriminate].
  destruct (negb _); [discriminate|].
  pose proof (account_index_lt _ _ _ Ei) as Hlt.
  destruct (streq op (lit "DEPOSIT")).
  - intros [= _ <-]. apply set_account_wf; [apply db_load_wf | exact Hlt].
  - destruct (streq op (lit "WITHDRAW")); [|discriminate].
    destruct (dlt _ _); [discriminate|].
    intros [= _ <-]. apply set_account_wf; [apply db_load_wf | exact Hlt].
Qed.

Lemma exchange_saved_wf (store lu accid fromS toS resp : text)
    (amount : double) (db' : DB) :
  cmd_exchange store lu accid fromS toS amount = Saved resp db' ->
  wf_db db' = true.
Proof.
  unfold cmd_exchange.
  destruct lu as [|c0 l0]; [discriminate|].
  destruct (dle amount d_zero); [discriminate|].
  destruct (parse_currency fromS) as [from|]; [|discriminate].
  destruct (parse_currency toS) as [to|]; [|discriminate].
  destruct (cur_eqb from to); [discriminate|].
  destruct (account_index (db_load_locked store) accid) as [idx|] eqn:Ei; [|discriminate].
  destruct (negb _); [discriminate|].
  destruct (dlt _ _); [discriminate|].
  pose proof (account_index_lt _ _ _ Ei) as Hlt.
  intros [= _ <-]. apply set_account_wf; [apply db_load_wf | exact Hlt].
Qed.

(** X4: whatever line a client sends, the store afterwards is either the
    store as it was, or the text [db_save_locked] writes from a snapshot that
    keeps the limits of the data model: at most MAX_USERS users and
    MAX_ACCOUNTS accounts, names, passwords and ids of 1 to 31 characters
    without white space, at most MAX_OWNERS owners per account. *)
Theorem handler_store_invariant :
  forall (rnd : nat -> N) (c : Conn) (buf : text),
    store (snd (fst (handle_line rnd c buf))) = store c
    \/ exists db',
         wf_db db' = true
         /\ length (users db') <= MAX_USERS
         /\ length (accounts db') <= MAX_ACCOUNTS
         /\ store (snd (fst (handle_line rnd c buf))) = db_save_locked db'.
Proof.
  intros rnd c buf.
  assert (W : forall db', wf_db db' = true ->
                wf_db db' = true /\ length (users db') <= MAX_USERS
                /\ length (accounts db') <= MAX_ACCOUNTS).
  { intros db' H. split; [exact H|]. now apply wf_db_spec in H as (_ & _ & ? & ?). }
  pose proof (line_not_nul buf) as Hnn.
  unfold handle_line.
  destruct (trim_newline (cstr buf)) as [|c0 line] eqn:El; [now left|].
  destruct (scan_s 31 (c0 :: line)) as [[cmd r]|] eqn:Es; [|now left].
  destruct (streq cmd (lit "HELP")); [now left|].
  destruct (streq cmd (lit "RATES")); [now left|].
  destruct (streq cmd (lit "REGISTER")).
  { destruct (sscanf_kw2 "REGISTER" 31 31 _) as [[u p]|] eqn:Ep; [|now left].
    destruct (sscanf_kw2_token _ _ _ _ _ _ Hnn Ep) as [Tu Tp].
    destruct (cmd_register (store c) u p) as [e|resp db'] eqn:E; [now left|].
    right. exists db'. cbn.
    destruct (W db' (register_saved_wf _ _ _ _ _ Tu Tp E)) as (? & ? & ?). auto. }
  destruct (streq cmd (lit "LOGIN")).
  { destruct (sscanf_kw2 "LOGIN" 31 31 _) as [[u p]|]; [|now left].
    destruct (cmd_login _ _ _ _). now left. }
  destruct (streq cmd (lit "CREATE_ACCOUNT")).
  { destruct (sscanf_kw2 "CREATE_ACCOUNT" 15 255 _) as [[ty csv]|]; [|now left].
    destruct (cmd_create_account rnd (rand_pos c) (store c) (loggedUser c) ty csv)
      as [[e|resp db'] pos'] eqn:E; [now left|].
    right. exists db'. cbn.
    destruct (W db' (create_saved_wf _ _ _ _ _ _ _ _ _ E)) as (? & ? & ?). auto. }
  destruct (streq cmd (lit "LIST_ACCOUNTS")); [now left|].
  destruct (streq cmd (lit "BALANCES")).
  { destruct (sscanf_balances _); now left. }
  destruct (streq cmd (lit "DEPOSIT") || streq cmd (lit "WITHDRAW")).
  { destruct (sscanf_depwd _) as [[[[op accid] curS] amount]|]; [|now left].
    destruct (cmd_deposit_withdraw (store c) (loggedUser c) op accid curS amount)
      as [e|resp db'] eqn:E; [now left|].
    right. exists db'. cbn.
    destruct (W db' (deposit_withdraw_saved_wf _ _ _ _ _ _ _ _ E)) as (? & ? & ?). auto. }
  destruct (streq cmd (lit "EXCHANGE")).
  { destruct (sscanf_exchange _) as [[[[accid fromS] toS] amount]|]; [|now left].
    destruct (cmd_exchange (store c) (loggedUser c) accid fromS toS amount)
      as [e|resp db'] eqn:E; [now left|].
    right. exists db'. cbn.
    destruct (W db' (exchange_saved_wf _ _ _ _ _ _ _ _ E)) as (? & ? & ?). auto. }
  destruct (streq cmd (lit "QUIT")); now left.
Qed.

(** ** Commands in sequence *)

Lemma find_index_app_None {A : Type} (p : A -> bool) (l l' : list A) :
  find_index p l = None ->
  find_index p (l ++ l') = option_map (fun i => length l + i) (find_index p l').
Proof.
  induction l as [|x l IH]; cbn [find_index app length].
  - intros _. now destruct (find_index p l').
  - destruct (p x); [discriminate|].
    destruct (find_index p l) as [i|]; [discriminate|]. intros _.
    rewrite IH by reflexivity. now destruct (find_index p l').
Qed.

Lemma find_index_app_Some {A : Type} (p : A -> bool) (l l' : list A) (i : nat) :
  find_index p l = Some i -> find_index p (l ++ l') = Some i.
Proof.
  revert i; induction l as [|x l IH]; intros i; cbn [find_index app]; [discriminate|].
  destruct (p x); [auto|].
  destruct (find_index p l) as [j|]; [|discriminate].
  now rewrite (IH j eq_refl).
Qed.

Lemma find_index_map {A B : Type} (p : B -> bool) (f : A -> B) (l : list A) :
  find_index p (map f l) = find_index (fun x => p (f x)) l.
Proof.
  induction l as [|x l IH]; [reflexivity|]. cbn [map find_index]. now rewrite IH.
Qed.

Lemma nth_app_last {A : Type} (l : list A) (x d : A) : nth (length l) (l ++ [x]) d = x.
Proof. induction l; cbn; auto. Qed.

Lemma register_reload (store u p resp : text) (db' : DB) :
  tokenb 31 u = true -> tokenb 31 p = true ->
  lines_fit (db_load_locked store) = true ->
  cmd_register store u p = Saved resp db' ->
  users (db_load_locked (store_after store (cmd_register store u p)))
  = users (db_load_locked store) ++ [ {| username := u; password := p |} ]
  /\ user_index (db_load_locked store) u = None.
Proof.
  intros Tu Tp Hfit H. rewrite H. cbn [store_after].
  pose proof (register_saved_wf _ _ _ _ _ Tu Tp H) as Hwf.
  apply register_saved in H as (_ & Hnone & _ & ->).
  rewrite save_load_wf; [|exact Hwf|exact Hfit].
  cbn [round2_db users]. unfold USERNAME_LEN, PASS_LEN.
  now rewrite !tokenb_strncpy.
Qed.

(** X5: after a successful REGISTER of a name and a password (each a word
    of 1 to 31 characters, as the handler's [%31s] reads them) on a store
    whose account records fit the loader's line buffer, LOGIN with that
    name and password succeeds, LOGIN with that name and another password
    answers "ERR Wrong password", a second REGISTER of the name answers
    "ERR User already exists", and LOGIN under any other name answers as it
    did before. *)
Theorem register_then_login :
  forall (store u p resp : text) (db' : DB),
    tokenb 31 u = true -> tokenb 31 p = true ->
    lines_fit (db_load_locked store) = true ->
    cmd_register store u p = Saved resp db' ->
    (forall lu,
        cmd_login (store_after store (cmd_register store u p)) u p lu
        = (msg "OK Logged in", u))
    /\ (forall lu p', p' <> p ->
          cmd_login (store_after store (cmd_register store u p)) u p' lu
          = (msg "ERR Wrong password", lu))
    /\ (forall p',
          cmd_register (store_after store (cmd_register store u p)) u p'
          = Reply (msg "ERR User already exists"))
    /\ (forall v q lu, v <> u ->
          cmd_login (store_after store (cmd_register store u p)) v q lu
          = cmd_login store v q lu).
Proof.
  intros store u p resp db' Tu Tp Hfit H.
  destruct (register_reload _ _ _ _ _ Tu Tp Hfit H) as [Hus Hnone].
  set (store' := store_after store (cmd_register store u p)) in *.
  assert (Hidx : user_index (db_load_locked store') u
                 = Some (length (users (db_load_locked store)))).
  { unfold user_index in *. rewrite Hus, find_index_app_None by exact Hnone.
    cbn [find_index username]. rewrite streq_refl. cbn. f_equal. lia. }
  assert (Hat : user_at (db_load_locked store') (length (users (db_load_locked store)))
                = {| username := u; password := p |}).
  { unfold user_at. rewrite Hus. apply nth_app_last. }
  split; [|split; [|split]].
  - intros lu. unfold cmd_login. rewrite Hidx, Hat. cbn [password].
    rewrite streq_refl. cbn [negb]. unfold USERNAME_LEN. now rewrite tokenb_strncpy.
  - intros lu p' Hne. unfold cmd_login. rewrite Hidx, Hat. cbn [password].
    assert (E : streq p p' = false) by (apply streq_neq; congruence).
    now rewrite E.
  - intros p'. unfold cmd_register. now rewrite Hidx.
  - intros v q lu Hne. unfold cmd_login, user_index, user_at. rewrite Hus.
    destruct (find_index (fun x => streq (username x) v) (users (db_load_locked store)))
      as [i|] eqn:E.
    + rewrite (find_index_app_Some _ _ _ _ E).
      destruct (find_index_Some _ _ zero_user _ E) as (Hlt & _).
      now rewrite app_nth1 by exact Hlt.
    + rewrite find_index_app_None by exact E. cbn [find_index username].
      assert (E' : streq u v = false) by (apply streq_neq; congruence).
      now rewrite E'.
Qed.

Lemma register_then_login_witness :
  cmd_login (store_after store_alice (cmd_register store_alice (lit "carol") (lit "pw3")))
            (lit "carol") (lit "pw3") []
  = (msg "OK Logged in", lit "carol").
Proof.
  destruct (cmd_register store_alice (lit "carol") (lit "pw3")) as [r|r d] eqn:E.
  - vm_compute in E. discriminate E.
  - rewrite <- E.
    refine (proj1 (register_then_login store_alice (lit "carol") (lit "pw3") r d
                     _ _ _ E) []); vm_compute; reflexivity.
Defined.

(** *** A new account *)

Lemma fmt_d_count_length (k : nat) : k <= 5 -> length (fmt_d (Z.of_nat k)) = 1.
Proof.
  intros H. do 6 (destruct k as [|k]; [reflexivity|]). lia.
Qed.

Lemma new_account_line_fits (a : Account) :
  wf_account a = true -> bal a = zero_balances ->
  Nat.leb (length (acc_line a)) LINE_MAX = true.
Proof.
  intros Hwf Hb. destruct (wf_account_spec a Hwf) as (Tid & Hos & Hlen).
  apply tokenb_length in Tid.
  pose proof (owners_csv_length _ Hos) as Hcsv.
  apply Nat.leb_le. unfold acc_line. rewrite Hb.
  change (fmt_f 2 (b_usd zero_balances)) with (lit "0.00").
  change (fmt_f 2 (b_eur zero_balances)) with (lit "0.00").
  change (fmt_f 2 (b_gbp zero_balances)) with (lit "0.00").
  rewrite !length_app. unfold ownerCount. rewrite fmt_d_count_length by exact Hlen.
  assert (length (match owners_csv (owners a) with
                  | [] => lit "-" | _ :: _ => owners_csv (owners a) end) <= 160).
  { destruct (owners_csv (owners a)) eqn:E; [cbn; lia | lia]. }
  assert (length (if isJoint a then lit "JOINT" else lit "IND") <= 5)
    by (destruct (isJoint a); cbn; lia).
  change (length (lit "ACC ")) with 4. change (length sp) with 1.
  change (length (lit "0.00")) with 4. change (length nl) with 1.
  unfold LINE_MAX. lia.
Qed.

Lemma is_owner_In (a : Account) (o : text) : In o (owners a) -> is_owner a o = true.
Proof.
  intros H. unfold is_owner. apply existsb_exists. exists o. split; [exact H|].
  apply streq_refl.
Qed.

Lemma is_owner_not_In (a : Account) (o : text) : ~ In o (owners a) -> is_owner a o = false.
Proof.
  intros H. unfold is_owner. destruct (existsb _ _) eqn:E; [|reflexivity].
  apply existsb_exists in E as (x & Hx & Hs). apply streq_eq in Hs. now subst x.
Qed.

(** X6: after a successful CREATE_ACCOUNT on a store whose account records
    fit the loader's line buffer, the reply names the new id (ACC and four
    digits); on the store the command wrote, BALANCES on that id answers
    every owner of the new account, the caller among them, with three
    balances of 0.00, and answers anyone else who is logged in with
    "ERR Not an owner". *)
Theorem created_account_opens_empty :
  forall (rnd : nat -> N) (pos : nat) (store lu ty csv resp : text)
         (db' : DB) (pos' : nat),
    lines_fit (db_load_locked store) = true ->
    cmd_create_account rnd pos store lu ty csv = (Saved resp db', pos') ->
    exists aid,
      acc_id_format aid
      /\ resp = lit "OK Created " ++ aid ++ nl ++ lit "END" ++ nl
      /\ In lu (firstn MAX_OWNERS (strtok_all (strncpy_term 256 csv)))
      /\ (forall o, In o (firstn MAX_OWNERS (strtok_all (strncpy_term 256 csv))) ->
            cmd_balances (db_save_locked db') o aid
            = lit "OK " ++ aid ++ lit " balances: USD=0.00 EUR=0.00 GBP=0.00"
              ++ nl ++ lit "END" ++ nl)
      /\ (forall x, x <> [] ->
            ~ In x (firstn MAX_OWNERS (strtok_all (strncpy_term 256 csv))) ->
            cmd_balances (db_save_locked db') x aid = msg "ERR Not an owner").
Proof.
  intros rnd pos store lu ty csv resp db' pos' Hfit H.
  pose proof (create_saved_wf _ _ _ _ _ _ _ _ _ H) as Hwf.
  destruct (create_account_reply _ _ _ _ _ _ _ _ _ H) as (a0 & Ha0 & Hfmt & Hresp).
  apply create_account_saved in H
    as (a & -> & _ & _ & Hbal & Hfresh & Hos & Hne & Hlu & Hreg & _).
  cbn [accounts] in Ha0. apply app_inv_head in Ha0. injection Ha0 as <-.
  exists (id a). split; [exact Hfmt|]. split; [exact Hresp|].
  rewrite <- Hos. split; [exact Hlu|].
  set (db := db_load_locked store) in *.
  assert (Hwa : wf_account a = true).
  { apply wf_db_spec in Hwf as (_ & Hacc & _). cbn [accounts] in Hacc.
    rewrite forallb_app in Hacc. apply andb_true_iff in Hacc as [_ Hacc].
    cbn in Hacc. now rewrite andb_true_r in Hacc. }
  assert (Hfit' : lines_fit {| users := users db; accounts := accounts db ++ [a] |} = true).
  { unfold lines_fit in *. cbn [accounts]. rewrite forallb_app, Hfit. cbn [forallb andb].
    now rewrite new_account_line_fits. }
  pose proof (save_load_wf _ Hwf Hfit') as Hload.
  assert (Hidx : account_index
                   (db_load_locked
                      (db_save_locked {| users := users db; accounts := accounts db ++ [a] |}))
                   (id a) = Some (length (accounts db))).
  { rewrite Hload. unfold account_index, round2_db. cbn [accounts].
    rewrite find_index_map. cbn [round2_account with_bal id].
    unfold account_index in Hfresh. rewrite find_index_app_None by exact Hfresh.
    cbn [find_index]. rewrite streq_refl. cbn. f_equal. lia. }
  assert (Hat : account_at
                  (db_load_locked
                     (db_save_locked {| users := users db; accounts := accounts db ++ [a] |}))
                  (length (accounts db)) = round2_account a).
  { rewrite Hload. unfold account_at, round2_db. cbn [accounts].
    rewrite map_app. cbn [map]. rewrite <- (length_map round2_account).
    apply nth_app_last. }
  destruct (acc_id_format_token _ Hfmt) as [_ Hl7].
  split.
  - intros o Ho. unfold cmd_balances.
    assert (Hno : o <> []).
    { pose proof (registered_token db o (db_load_wf store) (Hreg o Ho)) as T.
      apply tokenb_spec in T. tauto. }
    destruct o as [|c0 o0]; [congruence|].
    rewrite Hidx, Hat.
    assert (Hown : is_owner (round2_account a) (c0 :: o0) = true)
      by (apply is_owner_In; exact Ho).
    rewrite Hown. cbn [negb round2_account with_bal id bal]. rewrite Hbal.
    change (fmt_f 2 (bal_get (round2_balances zero_balances) CUR_USD)) with (lit "0.00").
    change (fmt_f 2 (bal_get (round2_balances zero_balances) CUR_EUR)) with (lit "0.00").
    change (fmt_f 2 (bal_get (round2_balances zero_balances) CUR_GBP)) with (lit "0.00").
    unfold snprintf. rewrite firstn_all2.
    + reflexivity.
    + rewrite !length_app, Hl7. cbn. lia.
  - intros x Hx Hnot. unfold cmd_balances. destruct x as [|c0 x0]; [congruence|].
    rewrite Hidx, Hat.
    assert (Hown : is_owner (round2_account a) (c0 :: x0) = false)
      by (apply is_owner_not_In; exact Hnot).
    now rewrite Hown.
Qed.

Lemma created_account_opens_empty_witness :
  exists db',
    fst (cmd_create_account seq_rand 0 store_alice (lit "alice") (lit "JOINT")
                            (lit "bob,alice"))
    = Saved (lit "OK Created ACC1001" ++ nl ++ lit "END" ++ nl) db'
    /\ cmd_balances (db_save_locked db') (lit "bob") (lit "ACC1001")
       = lit "OK ACC1001 balances: USD=0.00 EUR=0.00 GBP=0.00" ++ nl ++ lit "END" ++ nl.
Proof.
  destruct (cmd_create_account seq_rand 0 store_alice (lit "alice") (lit "JOINT")
              (lit "bob,alice")) as [[r|r d] pos'] eqn:E.
  - vm_compute in E. discriminate E.
  - destruct (created_account_opens_empty seq_rand 0 store_alice (lit "alice")
                (lit "JOINT") (lit "bob,alice") r d pos' eq_refl E)
      as (aid & _ & Hr & _ & Hb & _).
    assert (Hr' : r = lit "OK Created ACC1001" ++ nl ++ lit "END" ++ nl).
    { vm_compute in E. now injection E as <- _ _. }
    assert (Haid : aid = lit "ACC1001").
    { rewrite Hr in Hr'.
      change (lit "OK Created ACC1001" ++ nl ++ lit "END" ++ nl)
        with (lit "OK Created " ++ lit "ACC1001" ++ (nl ++ lit "END" ++ nl)) in Hr'.
      apply app_inv_head in Hr'. now apply app_inv_tail in Hr'. }
    subst aid. exists d. cbn [fst]. split; [now rewrite Hr'|].
    apply Hb. vm_compute. auto.
Defined.

(** ** The framing of replies *)

Lemma msg_framed (s : string) : framed (msg s).
Proof. exists (lit s ++ nl). unfold msg. now rewrite <- app_assoc. Qed.

Lemma snprintf_framed (n : nat) (body : text) :
  framed (snprintf n (body ++ lit "END" ++ nl))
  \/ length (snprintf n (body ++ lit "END" ++ nl)) = n - 1.
Proof.
  unfold snprintf.
  destruct (Nat.le_gt_cases (length (body ++ lit "END" ++ nl)) (n - 1)) as [H|H].
  - left. rewrite firstn_all2 by exact H. now exists body.
  - right. apply firstn_length_le. lia.
Qed.

Lemma check_owners_framed (joint : bool) (os : list text) (lu e : text) :
  check_owners joint os lu = Some e -> framed e.
Proof.
  unfold check_owners.
  repeat match goal with
         | |- context [if ?b then _ else _] => destruct b
         end; intros [= <-] || discriminate; apply msg_framed.
Qed.

Lemma register_framed (store u p : text) : framed (reply_of (cmd_register store u p)).
Proof.
  unfold cmd_register. destruct (user_index _ _); [apply msg_framed|].
  destruct (Nat.leb _ _); apply msg_framed.
Qed.

Lemma login_framed (store u p lu : text) : framed (fst (cmd_login store u p lu)).
Proof.
  unfold cmd_login. destruct (user_index _ _); [|apply msg_framed].
  destruct (negb _); apply msg_framed.
Qed.

Lemma create_account_framed (rnd : nat -> N) (pos : nat) (store lu ty csv : text) :
  framed (reply_of (fst (cmd_create_account rnd pos store lu ty csv))).
Proof.
  destruct (cmd_create_account rnd pos store lu ty csv) as [[e|resp db'] pos'] eqn:E.
  - cbn [fst reply_of]. unfold cmd_create_account in E.
    destruct lu as [|c0 l0]; [injection E as <- _; apply msg_framed|].
    destruct (parse_type ty); [|injection E as <- _; apply msg_framed].
    destruct (Nat.leb _ _); [injection E as <- _; apply msg_framed|].
    destruct (gen_account_id _ _ _) as [[aid|] p1]; [|injection E as <- _; apply msg_framed].
    destruct (parse_owners _ _ 0) as [os|]; [|injection E as <- _; apply msg_framed].
    destruct (check_owners b os (c0 :: l0)) as [e'|] eqn:Ec; [|discriminate].
    injection E as <- _. eapply check_owners_framed, Ec.
  - cbn [fst reply_of].
    destruct (create_account_reply _ _ _ _ _ _ _ _ _ E) as (a & _ & _ & ->).
    exists (lit "OK Created " ++ id a ++ nl). now rewrite <- !app_assoc.
Qed.

Lemma list_accounts_framed (store lu : text) : framed (cmd_list_accounts store lu).
Proof.
  unfold cmd_list_accounts. destruct lu; [apply msg_framed|].
  eexists. rewrite !app_assoc. reflexivity.
Qed.

Lemma balances_framed (store lu accid : text) :
  framed (cmd_balances store lu accid) \/ length (cmd_balances store lu accid) = 255.
Proof.
  unfold cmd_balances. destruct lu; [left; apply msg_framed|].
  destruct (account_index _ _); [|left; apply msg_framed].
  destruct (negb _); [left; apply msg_framed|].
  rewrite !app_assoc. rewrite <- (app_assoc _ (lit "END") nl).
  apply (snprintf_framed 256).
Qed.

Lemma deposit_withdraw_framed (store lu op accid curS : text) (amount : double) :
  framed (reply_of (cmd_deposit_withdraw store lu op accid curS amount)).
Proof.
  unfold cmd_deposit_withdraw.
  repeat match goal with
         | |- context [match ?x with _ => _ end] => destruct x
         end; apply msg_framed.
Qed.

Lemma exchange_framed (store lu accid fromS toS : text) (amount : double) :
  framed (reply_of (cmd_exchange store lu accid fromS toS amount))
  \/ length (reply_of (cmd_exchange store lu accid fromS toS amount)) = 255.
Proof.
  unfold cmd_exchange. destruct lu; [left; apply msg_framed|].
  destruct (dle _ _); [left; apply msg_framed|].
  destruct (parse_currency fromS) as [from|]; [|left; apply msg_framed].
  destruct (parse_currency toS) as [to|]; [|left; apply msg_framed].
  destruct (cur_eqb _ _); [left; apply msg_framed|].
  destruct (account_index _ _); [|left; apply msg_framed].
  destruct (negb _); [left; apply msg_framed|].
  destruct (dlt _ _); [left; apply msg_framed|].
  cbn [reply_of].
  rewrite !app_assoc. rewrite <- (app_assoc _ (lit "END") nl).
  apply (snprintf_framed 256).
Qed.

Lemma rates_framed : framed cmd_rates.
Proof. exists (firstn 64 cmd_rates). vm_compute. reflexivity. Qed.

Lemma help_framed : framed cmd_help.
Proof. exists (firstn (length cmd_help - 4) cmd_help). vm_compute. reflexivity. Qed.

(** X7: what [handleClient] sends for a received line is nothing (a blank
    line), or a block that ends with the line END, or 255 bytes without the
    closing END: the last case is the reply of a BALANCES or of an EXCHANGE
    whose text did not fit the 256-byte buffer of its [snprintf], as
    happens for BALANCES on an account holding 1e308 in each currency. *)
Theorem reply_framing :
  (forall (rnd : nat -> N) (c : Conn) (buf : text),
      fst (fst (handle_line rnd c buf)) = []
      \/ framed (fst (fst (handle_line rnd c buf)))
      \/ (length (fst (fst (handle_line rnd c buf))) = 255
          /\ (first_word buf = Some (lit "BALANCES")
              \/ first_word buf = Some (lit "EXCHANGE"))))
  /\ (exists c,
        length (fst (fst (handle_line no_rand c (L "BALANCES ACC1000")))) = 255
        /\ ~ framed (fst (fst (handle_line no_rand c (L "BALANCES ACC1000"))))).
Proof.
  split.
  - intros rnd c buf. unfold first_word, handle_line.
    destruct (trim_newline (cstr buf)) as [|c0 line] eqn:El; [now left|].
    destruct (scan_s 31 (c0 :: line)) as [[cmd r]|] eqn:Es; [|now left].
    cbn [option_map fst].
    destruct (streq cmd (lit "HELP")); [right; left; apply help_framed|].
    destruct (streq cmd (lit "RATES")); [right; left; apply rates_framed|].
    destruct (streq cmd (lit "REGISTER")).
    { destruct (sscanf_kw2 "REGISTER" 31 31 _) as [[u p]|];
        right; left; [apply register_framed | apply msg_framed]. }
    destruct (streq cmd (lit "LOGIN")).
    { destruct (sscanf_kw2 "LOGIN" 31 31 _) as [[u p]|]; [|right; left; apply msg_framed].
      pose proof (login_framed (store c) u p (loggedUser c)) as H.
      destruct (cmd_login _ _ _ _). right; left. exact H. }
    destruct (streq cmd (lit "CREATE_ACCOUNT")).
    { destruct (sscanf_kw2 "CREATE_ACCOUNT" 15 255 _) as [[ty csv]|];
        [|right; left; apply msg_framed].
      pose proof (create_account_framed rnd (rand_pos c) (store c) (loggedUser c) ty csv)
        as H.
      destruct (cmd_create_account _ _ _ _ _ _). right; left. exact H. }
    destruct (streq cmd (lit "LIST_ACCOUNTS")); [right; left; apply list_accounts_framed|].
    destruct (streq cmd (lit "BALANCES")) eqn:Eb.
    { apply streq_eq in Eb; subst cmd.
      destruct (sscanf_balances _) as [accid|]; [|right; left; apply msg_framed].
      cbn [fst]. destruct (balances_framed (store c) (loggedUser c) accid); auto. }
    destruct (streq cmd (lit "DEPOSIT") || streq cmd (lit "WITHDRAW")).
    { destruct (sscanf_depwd _) as [[[[op accid] curS] amount]|];
        right; left; [apply deposit_withdraw_framed | apply msg_framed]. }
    destruct (streq cmd (lit "EXCHANGE")) eqn:Ee.
    { apply streq_eq in Ee; subst cmd.
      destruct (sscanf_exchange _) as [[[[accid fromS] toS] amount]|];
        [|right; left; apply msg_framed].
      cbn [fst].
      destruct (exchange_framed (store c) (loggedUser c) accid fromS toS amount); auto. }
    destruct (streq cmd (lit "QUIT")); right; left; apply msg_framed.
  - exists {| loggedUser := lit (name31 "a"); store := store_e308; rand_pos := 0 |}.
    set (reply := fst (fst (handle_line no_rand _ (L "BALANCES ACC1000")))).
    assert (Hlen : length reply = 255) by (vm_compute; reflexivity).
    split; [exact Hlen|].
    intros (body & E).
    assert (Hl : length body = 251).
    { apply (f_equal (@length ascii)) in E. rewrite Hlen, length_app in E.
      change (length (lit "END" ++ nl)) with 4 in E. lia. }
    assert (H : skipn 251 reply = lit "END" ++ nl).
    { rewrite E, skipn_app, Hl, Nat.sub_diag, skipn_all2 by lia. reflexivity. }
    vm_compute in H. discriminate H.
Qed.

(** ** Who may do what *)

Lemma conn_eta (c : Conn) :
  {| loggedUser := loggedUser c; store := store c; rand_pos := rand_pos c |} = c.
Proof. now destruct c. Qed.

(** X8: while nobody is logged in on the connection, each of
    CREATE_ACCOUNT, LIST_ACCOUNTS, BALANCES, DEPOSIT, WITHDRAW and EXCHANGE
    is answered with "ERR Please LOGIN first", or with the usage error of
    the command when its arguments do not parse; the store, the session and
    the random sequence are left as they were and the loop goes on. *)
Theorem login_required :
  forall (rnd : nat -> N) (c : Conn) (buf cmd : text),
    loggedUser c = [] ->
    first_word buf = Some cmd ->
    needs_login cmd = true ->
    snd (fst (handle_line rnd c buf)) = c
    /\ snd (handle_line rnd c buf) = true
    /\ (fst (fst (handle_line rnd c buf)) = msg "ERR Please LOGIN first"
        \/ starts_with (lit "ERR Usage: ") (fst (fst (handle_line rnd c buf))) = true).
Proof.
  intros rnd c buf cmd Hlu Hw Hn. unfold first_word in Hw. unfold handle_line.
  destruct (trim_newline (cstr buf)) as [|c0 line] eqn:El; [discriminate|].
  destruct (scan_s 31 (c0 :: line)) as [[cmd' r]|] eqn:Es; [|discriminate].
  cbn in Hw. injection Hw as ->.
  destruct (streq cmd (lit "HELP")) eqn:E1;
    [apply streq_eq in E1; subst cmd; discriminate|].
  destruct (streq cmd (lit "RATES")) eqn:E2;
    [apply streq_eq in E2; subst cmd; discriminate|].
  destruct (streq cmd (lit "REGISTER")) eqn:E3;
    [apply streq_eq in E3; subst cmd; discriminate|].
  destruct (streq cmd (lit "LOGIN")) eqn:E4;
    [apply streq_eq in E4; subst cmd; discriminate|].
  destruct (streq cmd (lit "CREATE_ACCOUNT")) eqn:E7.
  { destruct (sscanf_kw2 "CREATE_ACCOUNT" 15 255 _) as [[ty csv]|]; [|cbn; auto].
    rewrite Hlu. cbn. rewrite <- Hlu at 1. rewrite conn_eta. auto. }
  destruct (streq cmd (lit "LIST_ACCOUNTS")) eqn:E8; [rewrite Hlu; cbn; auto|].
  destruct (streq cmd (lit "BALANCES")) eqn:E9.
  { destruct (sscanf_balances _); [rewrite Hlu|]; cbn; auto. }
  destruct (streq cmd (lit "DEPOSIT") || streq cmd (lit "WITHDRAW")) eqn:E5.
  { destruct (sscanf_depwd _) as [[[[op accid] curS] amount]|]; [|cbn; auto].
    rewrite Hlu. cbn. unfold with_store. cbn. rewrite conn_eta. auto. }
  destruct (streq cmd (lit "EXCHANGE")) eqn:E6.
  { destruct (sscanf_exchange _) as [[[[accid fromS] toS] amount]|]; [|cbn; auto].
    rewrite Hlu. cbn. unfold with_store. cbn. rewrite conn_eta. auto. }
  exfalso. unfold needs_login in Hn. apply orb_false_iff in E5 as [E5 E5'].
  rewrite E5, E5', E6, E7, E8, E9 in Hn. discriminate.
Qed.

Lemma login_required_witness :
  snd (fst (handle_line no_rand {| loggedUser := []; store := store_alice; rand_pos := 0 |}
                        (L "WITHDRAW ACC1000 USD 5")))
  = {| loggedUser := []; store := store_alice; rand_pos := 0 |}
  /\ snd (handle_line no_rand {| loggedUser := []; store := store_alice; rand_pos := 0 |}
                      (L "WITHDRAW ACC1000 USD 5")) = true
  /\ (fst (fst (handle_line no_rand
                  {| loggedUser := []; store := store_alice; rand_pos := 0 |}
                  (L "WITHDRAW ACC1000 USD 5"))) = msg "ERR Please LOGIN first"
      \/ starts_with (lit "ERR Usage: ")
           (fst (fst (handle_line no_rand
                        {| loggedUser := []; store := store_alice; rand_pos := 0 |}
                        (L "WITHDRAW ACC1000 USD 5")))) = true).
Proof.
  apply (login_required no_rand {| loggedUser := []; store := store_alice; rand_pos := 0 |}
           (L "WITHDRAW ACC1000 USD 5") (lit "WITHDRAW"));
    [reflexivity | vm_compute; reflexivity | reflexivity].
Defined.

(** X9: a received line leaves the store as it was unless its first word
    is one of REGISTER, CREATE_ACCOUNT, DEPOSIT, WITHDRAW, EXCHANGE and the
    reply does not start with ERR: HELP, RATES, LOGIN, LIST_ACCOUNTS,
    BALANCES, QUIT, unknown commands and every rejected command write
    nothing. *)
Theorem store_written_only_on_success :
  forall (rnd : nat -> N) (c : Conn) (buf : text),
    store (snd (fst (handle_line rnd c buf))) = store c
    \/ (is_error (fst (fst (handle_line rnd c buf))) = false
        /\ exists cmd, first_word buf = Some cmd /\ writes_store cmd = true).
Proof.
  intros rnd c buf. unfold first_word, handle_line.
  destruct (trim_newline (cstr buf)) as [|c0 line] eqn:El; [now left|].
  destruct (scan_s 31 (c0 :: line)) as [[cmd r]|] eqn:Es; [|now left].
  cbn [option_map fst].
  destruct (streq cmd (lit "HELP")); [now left|].
  destruct (streq cmd (lit "RATES")); [now left|].
  destruct (streq cmd (lit "REGISTER")) eqn:E1.
  { destruct (sscanf_kw2 "REGISTER" 31 31 _) as [[u p]|]; [|now left].
    pose proof (register_error_no_save (store c) u p) as H.
    destruct (cmd_register (store c) u p) as [e|resp db']; [now left|].
    right. split; [exact H|]. exists cmd. unfold writes_store. now rewrite E1. }
  destruct (streq cmd (lit "LOGIN")).
  { destruct (sscanf_kw2 "LOGIN" 31 31 _) as [[u p]|]; [|now left].
    destruct (cmd_login _ _ _ _). now left. }
  destruct (streq cmd (lit "CREATE_ACCOUNT")) eqn:E2.
  { destruct (sscanf_kw2 "CREATE_ACCOUNT" 15 255 _) as [[ty csv]|]; [|now left].
    pose proof (create_account_error_no_save rnd (rand_pos c) (store c) (loggedUser c)
                  ty csv) as H.
    destruct (cmd_create_account _ _ _ _ _ _) as [[e|resp db'] pos']; [now left|].
    right. split; [exact H|]. exists cmd. unfold writes_store. now rewrite E1, E2. }
  destruct (streq cmd (lit "LIST_ACCOUNTS")); [now left|].
  destruct (streq cmd (lit "BALANCES")).
  { destruct (sscanf_balances _); now left. }
  destruct (streq cmd (lit "DEPOSIT") || streq cmd (lit "WITHDRAW")) eqn:E3.
  { destruct (sscanf_depwd _) as [[[[op accid] curS] amount]|]; [|now left].
    pose proof (deposit_withdraw_error_no_save (store c) (loggedUser c) op accid curS
                  amount) as H.
    destruct (cmd_deposit_withdraw _ _ _ _ _ _) as [e|resp db']; [now left|].
    right. split; [exact H|]. exists cmd. unfold writes_store. rewrite E1, E2. cbn [orb].
    now rewrite E3. }
  destruct (streq cmd (lit "EXCHANGE")) eqn:E4.
  { destruct (sscanf_exchange _) as [[[[accid fromS] toS] amount]|]; [|now left].
    pose proof (exchange_error_no_save (store c) (loggedUser c) accid fromS toS amount)
      as H.
    destruct (cmd_exchange _ _ _ _ _ _) as [e|resp db']; [now left|].
    right. split; [exact H|]. exists cmd. unfold writes_store.
    rewrite E4. now rewrite orb_true_r. }
  destruct (streq cmd (lit "QUIT")); now left.
Qed.

(** ** QUIT *)

Lemma handle_line_go (rnd : nat -> N) (c : Conn) (buf : text) :
  (first_word buf = Some (lit "QUIT") ->
   handle_line rnd c buf = (msg "OK Bye", c, false))
  /\ (first_word buf <> Some (lit "QUIT") -> snd (handle_line rnd c buf) = true).
Proof.
  unfold first_word, handle_line.
  destruct (trim_newline (cstr buf)) as [|c0 line] eqn:El;
    [split; [discriminate | reflexivity]|].
  destruct (scan_s 31 (c0 :: line)) as [[cmd r]|] eqn:Es;
    [|split; [discriminate | reflexivity]].
  cbn [option_map fst]. split.
  - intros [= ->]. reflexivity.
  - intros Hne.
    destruct (streq cmd (lit "HELP")); [reflexivity|].
    destruct (streq cmd (lit "RATES")); [reflexivity|].
    destruct (streq cmd (lit "REGISTER")).
    { now destruct (sscanf_kw2 "REGISTER" 31 31 _) as [[u p]|]. }
    destruct (streq cmd (lit "LOGIN")).
    { destruct (sscanf_kw2 "LOGIN" 31 31 _) as [[u p]|]; [|reflexivity].
      now destruct (cmd_login _ _ _ _). }
    destruct (streq cmd (lit "CREATE_ACCOUNT")).
    { destruct (sscanf_kw2 "CREATE_ACCOUNT" 15 255 _) as [[ty csv]|]; [|reflexivity].
      now destruct (cmd_create_account _ _ _ _ _ _). }
    destruct (streq cmd (lit "LIST_ACCOUNTS")); [reflexivity|].
    destruct (streq cmd (lit "BALANCES")).
    { now destruct (sscanf_balances _). }
    destruct (streq cmd (lit "DEPOSIT") || streq cmd (lit "WITHDRAW")).
    { now destruct (sscanf_depwd _) as [[[[op accid] curS] amount]|]. }
    destruct (streq cmd (lit "EXCHANGE")).
    { now destruct (sscanf_exchange _) as [[[[accid fromS] toS] amount]|]. }
    destruct (streq cmd (lit "QUIT")) eqn:E; [|reflexivity].
    apply streq_eq in E. congruence.
Qed.

(** X10: a line whose first word is QUIT is answered "OK Bye", changes
    nothing and ends the loop of [handleClient]; no other line ends it.  So
    in a session the lines after the first QUIT are never executed: the
    replies are those of the lines up to and including that QUIT, one per
    line. *)
Theorem quit_ends_session :
  forall (rnd : nat -> N) (c : Conn) (before : list text) (q : text) (after : list text),
    Forall (fun l => first_word l <> Some (lit "QUIT")) before ->
    first_word q = Some (lit "QUIT") ->
    handleClient rnd c (before ++ q :: after) = handleClient rnd c (before ++ [q])
    /\ length (fst (handleClient rnd c (before ++ q :: after))) = length before + 1
    /\ List.last (fst (handleClient rnd c (before ++ q :: after))) [] = msg "OK Bye"
    /\ snd (handleClient rnd c (before ++ q :: after)) = snd (handleClient rnd c before).
Proof.
  intros rnd c before q after Hb Hq. revert c.
  induction Hb as [|l before Hl Hb IH]; intros c.
  - cbn [app handleClient length].
    rewrite (proj1 (handle_line_go rnd c q) Hq). auto.
  - cbn [app handleClient length].
    pose proof (proj2 (handle_line_go rnd c l) Hl) as Hgo.
    destruct (handle_line rnd c l) as [[out c'] go]. cbn [snd] in Hgo. subst go.
    destruct (IH c') as (H1 & H2 & H3 & H4).
    rewrite H1.
    destruct (handleClient rnd c' (before ++ q :: after)) as [outs1 c1] eqn:E1.
    destruct (handleClient rnd c' (before ++ [q])) as [outs2 c2] eqn:E2.
    destruct (handleClient rnd c' before) as [outs3 c3] eqn:E3.
    cbn [fst snd length] in *. injection H1 as -> ->.
    repeat split; [lia | | exact H4].
    destruct outs2 as [|o outs2]; [cbn in H2; lia|]. exact H3.
Qed.

Lemma quit_ends_session_witness :
  fst (handleClient no_rand (conn_alice store_alice)
                    [L "RATES"; L "QUIT"; L "DEPOSIT ACC1000 USD 5"])
  = [cmd_rates; msg "OK Bye"]
  /\ store (snd (handleClient no_rand (conn_alice store_alice)
                              [L "RATES"; L "QUIT"; L "DEPOSIT ACC1000 USD 5"]))
     = store_alice.
Proof.
  destruct (quit_ends_session no_rand (conn_alice store_alice) [L "RATES"] (L "QUIT")
              [L "DEPOSIT ACC1000 USD 5"]) as (H & _).
  - constructor; [|constructor]. vm_compute. discriminate.
  - vm_compute. reflexivity.
  - cbn [app] in H. rewrite H. vm_compute. split; reflexivity.
Defined.

(** ** The helpers *)

Lemma trim_newline_tail (s : text) :
  exists t, s = trim_newline s ++ t
            /\ forallb (fun c => Ascii.eqb c newline || Ascii.eqb c carriage) t = true.
Proof.
  induction s as [|c s (t & E & Ht)]; [now exists []|].
  cbn [trim_newline]. destruct (trim_newline s) as [|x l] eqn:Et.
  - destruct (Ascii.eqb c newline || Ascii.eqb c carriage) eqn:Ec.
    + exists (c :: t). cbn in E. subst s. cbn [app forallb]. now rewrite Ec, Ht.
    + exists t. cbn in E. now subst s.
  - exists t. now rewrite E at 1.
Qed.

Lemma trim_newline_last (s : text) :
  trim_newline s <> [] ->
  Ascii.eqb (List.last (trim_newline s) zero) newline
  || Ascii.eqb (List.last (trim_newline s) zero) carriage = false.
Proof.
  induction s as [|c s IH]; [intros H; exfalso; now apply H|].
  cbn [trim_newline]. destruct (trim_newline s) as [|x l] eqn:Et.
  - destruct (Ascii.eqb c newline || Ascii.eqb c carriage) eqn:Ec;
      [intros H; exfalso; now apply H|].
    intros _. exact Ec.
  - intros _. change (List.last (c :: x :: l) zero) with (List.last (x :: l) zero).
    apply IH. discriminate.
Qed.

Lemma trim_newline_fix (s : text) :
  (s = [] \/ Ascii.eqb (List.last s zero) newline
             || Ascii.eqb (List.last s zero) carriage = false) ->
  trim_newline s = s.
Proof.
  induction s as [|c s IH]; [reflexivity|]. intros [H|H]; [discriminate|].
  cbn [trim_newline]. destruct s as [|d s].
  - cbn. cbn in H. now rewrite H.
  - change (List.last (c :: d :: s) zero) with (List.last (d :: s) zero) in H.
    rewrite IH by (right; exact H). reflexivity.
Qed.

(** X11: [trim_newline] removes the trailing run of \n and \r characters and
    nothing else: the string is the result followed by \n and \r characters
    only; the result is empty or ends with another character; a string that
    ends with another character is returned as it is, so trimming twice is
    trimming once. *)
Theorem trim_newline_spec :
  forall s : text,
    (exists t, s = trim_newline s ++ t
               /\ forall c, In c t -> c = newline \/ c = carriage)
    /\ (trim_newline s = []
        \/ (List.last (trim_newline s) zero <> newline
            /\ List.last (trim_newline s) zero <> carriage))
    /\ trim_newline (trim_newline s) = trim_newline s.
Proof.
  intros s. split; [|split].
  - destruct (trim_newline_tail s) as (t & E & Ht). exists t. split; [exact E|].
    intros c Hc. rewrite forallb_forall in Ht. specialize (Ht c Hc).
    apply orb_true_iff in Ht as [H|H]; apply Ascii.eqb_eq in H; auto.
  - destruct (trim_newline s) as [|x l] eqn:E; [now left|]. right.
    pose proof (trim_newline_last s) as H. rewrite E in H.
    specialize (H ltac:(discriminate)). apply orb_false_iff in H as [H1 H2].
    split; intros Hc; rewrite Hc in *; discriminate.
  - apply trim_newline_fix.
    destruct (trim_newline s) as [|x l] eqn:E; [now left|]. right.
    rewrite <- E. apply trim_newline_last. rewrite E. discriminate.
Qed.

(** X12: [parse_currency] and [CUR_NAMES] are inverse to each other: the
    name of every currency parses to that currency, a string parses to a
    currency only if it is exactly its three-letter upper-case name, and
    any other string (a lower-case code, a longer word, the empty string) is
    not a currency. *)
Theorem parse_currency_names :
  (forall c, parse_currency (CUR_NAMES c) = Some c)
  /\ (forall s c, parse_currency s = Some c <-> s = CUR_NAMES c)
  /\ (forall s, parse_currency s = None <->
                s <> lit "USD" /\ s <> lit "EUR" /\ s <> lit "GBP")
  /\ parse_currency (lit "usd") = None
  /\ parse_currency (lit "USDX") = None
  /\ parse_currency [] = None.
Proof.
  assert (A : forall c, parse_currency (CUR_NAMES c) = Some c) by (now intros []).
  split; [exact A|]. split; [|split].
  - intros s c. split; [|intros ->; apply A].
    unfold parse_currency.
    destruct (streq s (CUR_NAMES CUR_USD)) eqn:E1;
      [apply streq_eq in E1; now intros [= <-]|].
    destruct (streq s (CUR_NAMES CUR_EUR)) eqn:E2;
      [apply streq_eq in E2; now intros [= <-]|].
    destruct (streq s (CUR_NAMES CUR_GBP)) eqn:E3;
      [apply streq_eq in E3; now intros [= <-]|].
    discriminate.
  - intros s. unfold parse_currency.
    change (CUR_NAMES CUR_USD) with (lit "USD"). change (CUR_NAMES CUR_EUR) with (lit "EUR").
    change (CUR_NAMES CUR_GBP) with (lit "GBP").
    destruct (streq s (lit "USD")) eqn:E1.
    { apply streq_eq in E1. split; [discriminate | tauto]. }
    destruct (streq s (lit "EUR")) eqn:E2.
    { apply streq_eq in E2. split; [discriminate | tauto]. }
    destruct (streq s (lit "GBP")) eqn:E3.
    { apply streq_eq in E3. split; [discriminate | tauto]. }
    apply streq_neq in E1, E2, E3. tauto.
  - repeat split; reflexivity.
Qed.

(** ** Edges of the command parser *)

Lemma take_word_long (n : nat) (t r : text) :
  forallb token_char t = true -> n <= length t ->
  take_word n (t ++ r) = (firstn n t, skipn n t ++ r).
Proof.
  revert t; induction n as [|n IH]; intros t Ht Hn; [reflexivity|].
  destruct t as [|c t]; [cbn in Hn; lia|].
  cbn [forallb] in Ht. apply andb_true_iff in Ht as [Hc Ht].
  destruct (token_char_facts c Hc) as (Hs & _).
  cbn [app take_word firstn skipn]. rewrite Hs, IH; [reflexivity | exact Ht|].
  cbn in Hn. lia.
Qed.

Lemma skip_ws_word (t r : text) :
  t <> [] -> forallb token_char t = true -> skip_ws (t ++ r) = t ++ r.
Proof.
  intros Hne Ht. destruct t as [|c t]; [congruence|].
  cbn [forallb] in Ht. apply andb_true_iff in Ht as [Hc _].
  destruct (token_char_facts c Hc) as (Hs & _). cbn [app skip_ws]. now rewrite Hs.
Qed.

Lemma scan_s_word (n : nat) (t r : text) :
  tokenb n t = true -> delimited r -> scan_s n (t ++ r) = Some (t, r).
Proof.
  intros T Hr. apply tokenb_spec in T as (Hne & Hl & Ht).
  unfold scan_s. rewrite skip_ws_word, take_word_token by assumption.
  destruct t; [congruence | reflexivity].
Qed.

Lemma forallb_firstn_skipn {A : Type} (P : A -> bool) (n : nat) (l : list A) :
  forallb P l = true -> forallb P (firstn n l) = true /\ forallb P (skipn n l) = true.
Proof.
  intros H. rewrite <- (firstn_skipn n l), forallb_app in H.
  now apply andb_true_iff in H.
Qed.

(** A first argument of 32 to 62 characters is read as two arguments. *)
Lemma sscanf_kw2_overlong (kw : string) (t r : text) :
  forallb token_char t = true -> 31 < length t <= 62 -> delimited r ->
  sscanf_kw2 kw 31 31 (lit kw ++ sp ++ t ++ r) = Some (firstn 31 t, skipn 31 t).
Proof.
  intros Ht Hl Hr. unfold sscanf_kw2. rewrite scan_lit_prefix.
  destruct (forallb_firstn_skipn _ 31 t Ht) as [H1 H2].
  assert (Hf : length (firstn 31 t) = 31) by (apply firstn_length_le; lia).
  assert (Hs : length (skipn 31 t) = length t - 31) by apply length_skipn.
  assert (E1 : scan_s 31 (sp ++ t ++ r) = Some (firstn 31 t, skipn 31 t ++ r)).
  { unfold scan_s. rewrite skip_ws_token; [|intros ->; cbn in Hl; lia|exact Ht].
    rewrite take_word_long by (auto; lia).
    destruct (firstn 31 t); [cbn in Hf; lia | reflexivity]. }
  rewrite E1.
  rewrite scan_s_word; [reflexivity| |exact Hr].
  apply tokenb_spec. repeat split; [|lia|exact H2].
  intros E. rewrite E in Hs. cbn in Hs. lia.
Qed.

Lemma command_line (kw : string) (args : text) (w : text) :
  tokenb 31 (lit kw) = true -> forallb not_nul args = true ->
  w <> [] -> forallb token_char w = true ->
  trim_newline (cstr (lit kw ++ sp ++ args ++ w ++ nl)) = lit kw ++ sp ++ args ++ w
  /\ first_word (lit kw ++ sp ++ args ++ w ++ nl) = Some (lit kw).
Proof.
  intros Tk Ha Hw Tw.
  assert (Hline : trim_newline (cstr (lit kw ++ sp ++ args ++ w ++ nl))
                  = lit kw ++ sp ++ args ++ w).
  { rewrite cstr_no_nul.
    - replace (lit kw ++ sp ++ args ++ w ++ nl)
        with ((lit kw ++ sp ++ args ++ w) ++ nl) by (now rewrite <- !app_assoc).
      rewrite trim_newline_nl.
      replace (lit kw ++ sp ++ args ++ w) with ((lit kw ++ sp ++ args) ++ w)
        by (now rewrite <- !app_assoc).
      now apply trim_newline_token.
    - rewrite !forallb_app, Ha.
      rewrite (token_char_not_nul _ (tokenb_token_char _ _ Tk)).
      now rewrite (token_char_not_nul _ Tw). }
  split; [exact Hline|].
  unfold first_word. rewrite Hline, scan_s_word; [reflexivity | exact Tk|].
  apply delimited_sp.
Qed.

(** X13: the first argument of REGISTER and of LOGIN is read with [%31s],
    and the second [%31s] goes on where the first stopped.  So when the
    name on the line has 32 to 62 characters, the user name is its first 31
    characters and the password is the rest of the name; the password typed
    on the line is not read: REGISTER stores that pair, and LOGIN with the
    same long name is checked against it whatever password follows. *)
Theorem overlong_name_is_split :
  forall (rnd : nat -> N) (c : Conn) (t p : text),
    forallb token_char t = true -> 31 < length t <= 62 ->
    p <> [] -> forallb token_char p = true ->
    (fst (fst (handle_line rnd c (lit "REGISTER" ++ sp ++ (t ++ sp) ++ p ++ nl)))
     = reply_of (cmd_register (store c) (firstn 31 t) (skipn 31 t))
     /\ store (snd (fst (handle_line rnd c (lit "REGISTER" ++ sp ++ (t ++ sp) ++ p ++ nl))))
        = store_after (store c) (cmd_register (store c) (firstn 31 t) (skipn 31 t)))
    /\ (fst (fst (handle_line rnd c (lit "LOGIN" ++ sp ++ (t ++ sp) ++ p ++ nl)))
        = fst (cmd_login (store c) (firstn 31 t) (skipn 31 t) (loggedUser c))
        /\ loggedUser (snd (fst (handle_line rnd c
                                   (lit "LOGIN" ++ sp ++ (t ++ sp) ++ p ++ nl))))
           = snd (cmd_login (store c) (firstn 31 t) (skipn 31 t) (loggedUser c))).
Proof.
  intros rnd c t p Ht Hl Hp Tp.
  assert (Ha : forallb not_nul (t ++ sp) = true).
  { rewrite forallb_app, (token_char_not_nul _ Ht). reflexivity. }
  split.
  - destruct (command_line "REGISTER" (t ++ sp) p eq_refl Ha Hp Tp) as [Hline Hw].
    unfold first_word in Hw. unfold handle_line. rewrite Hline in *.
    destruct (lit "REGISTER" ++ sp ++ (t ++ sp) ++ p) as [|c0 l0] eqn:El; [discriminate|].
    destruct (scan_s 31 (c0 :: l0)) as [[cmd r]|]; [|discriminate].
    cbn in Hw. injection Hw as ->.
    change (streq (lit "REGISTER") (lit "HELP")) with false.
    change (streq (lit "REGISTER") (lit "RATES")) with false.
    change (streq (lit "REGISTER") (lit "REGISTER")) with true. cbv iota.
    rewrite <- El.
    replace (lit "REGISTER" ++ sp ++ (t ++ sp) ++ p)
      with (lit "REGISTER" ++ sp ++ t ++ (sp ++ p)) by (now rewrite <- !app_assoc).
    rewrite sscanf_kw2_overlong by (auto using delimited_sp).
    split; reflexivity.
  - destruct (command_line "LOGIN" (t ++ sp) p eq_refl Ha Hp Tp) as [Hline Hw].
    unfold first_word in Hw. unfold handle_line. rewrite Hline in *.
    destruct (lit "LOGIN" ++ sp ++ (t ++ sp) ++ p) as [|c0 l0] eqn:El; [discriminate|].
    destruct (scan_s 31 (c0 :: l0)) as [[cmd r]|]; [|discriminate].
    cbn in Hw. injection Hw as ->.
    change (streq (lit "LOGIN") (lit "HELP")) with false.
    change (streq (lit "LOGIN") (lit "RATES")) with false.
    change (streq (lit "LOGIN") (lit "REGISTER")) with false.
    change (streq (lit "LOGIN") (lit "LOGIN")) with true. cbv iota.
    rewrite <- El.
    replace (lit "LOGIN" ++ sp ++ (t ++ sp) ++ p)
      with (lit "LOGIN" ++ sp ++ t ++ (sp ++ p)) by (now rewrite <- !app_assoc).
    rewrite sscanf_kw2_overlong by (auto using delimited_sp).
    destruct (cmd_login _ _ _ _). split; reflexivity.
Qed.

Lemma overlong_name_is_split_witness :
  fst (fst (handle_line no_rand {| loggedUser := []; store := []; rand_pos := 0 |}
                        (L "REGISTER abcdefghijklmnopqrstuvwxyz0123456789 secret")))
  = msg "OK Registered"
  /\ store (snd (fst (handle_line no_rand
                        {| loggedUser := []; store := []; rand_pos := 0 |}
                        (L "REGISTER abcdefghijklmnopqrstuvwxyz0123456789 secret"))))
     = L "USER abcdefghijklmnopqrstuvwxyz01234 56789".
Proof.
  destruct (overlong_name_is_split no_rand
              {| loggedUser := []; store := []; rand_pos := 0 |}
              (lit "abcdefghijklmnopqrstuvwxyz0123456789") (lit "secret"))
    as [[H1 H2] _];
    [reflexivity | change (31 < 36 <= 62); lia | discriminate | reflexivity |].
  change (lit "REGISTER" ++ sp ++ (lit "abcdefghijklmnopqrstuvwxyz0123456789" ++ sp)
          ++ lit "secret" ++ nl)
    with (L "REGISTER abcdefghijklmnopqrstuvwxyz0123456789 secret") in H1, H2.
  rewrite H1, H2. vm_compute. split; reflexivity.
Defined.

(** ** Withdrawing everything *)

Lemma dlt_self (x : double) : dlt x x = false.
Proof.
  unfold dlt, SFltb, SFcompare.
  destruct x as [s|s| |s m e]; try (destruct s; reflexivity); try reflexivity.
  destruct s; rewrite Z.compare_refl; [|now rewrite Pos.compare_refl].
  unfold Pos.compare. rewrite Pos.compare_cont_refl. reflexivity.
Qed.

Lemma dsub_self (x : double) : is_finite x = true -> dsub x x = S754_zero false.
Proof.
  unfold dsub, SFsub. destruct x as [s|s| |s m e]; try discriminate; intros _.
  - now destruct s.
  - cbv zeta. rewrite Z.sub_diag. reflexivity.
Qed.

(** X14: the funds check of WITHDRAW is [bal < amount], so an owner may
    withdraw exactly the balance: when the balance is a positive number,
    WITHDRAW of that amount answers "OK Done" and the saved balance is
    +0.0, stored as 0.00. *)
Theorem withdraw_whole_balance :
  forall (store lu accid curS : text) (cur : Currency) (idx : nat),
    lu <> [] ->
    parse_currency curS = Some cur ->
    account_index (db_load_locked store) accid = Some idx ->
    is_owner (account_at (db_load_locked store) idx) lu = true ->
    is_finite (bal_get (bal (account_at (db_load_locked store) idx)) cur) = true ->
    dle (bal_get (bal (account_at (db_load_locked store) idx)) cur) d_zero = false ->
    exists db',
      cmd_deposit_withdraw store lu (lit "WITHDRAW") accid curS
        (bal_get (bal (account_at (db_load_locked store) idx)) cur)
      = Saved (msg "OK Done") db'
      /\ bal_get (bal (account_at db' idx)) cur = S754_zero false
      /\ fmt_f 2 (bal_get (bal (account_at db' idx)) cur) = lit "0.00".
Proof.
  intros store lu accid curS cur idx Hlu Hc Hidx Hown Hfin Hpos.
  set (db := db_load_locked store) in *.
  assert (Hlt : idx < length (accounts db)) by (eapply account_index_lt; eauto).
  destruct lu as [|c0 l0]; [congruence|].
  eexists. split.
  { unfold cmd_deposit_withdraw. rewrite Hpos, Hc. fold db. rewrite Hidx, Hown.
    rewrite dlt_self. reflexivity. }
  rewrite account_at_set_same by exact Hlt. cbn [with_bal bal].
  rewrite bal_get_set_same, dsub_self by exact Hfin. split; reflexivity.
Qed.

Lemma withdraw_whole_balance_witness :
  exists db',
    cmd_deposit_withdraw store_alice (lit "alice") (lit "WITHDRAW") (lit "ACC1000")
                         (lit "USD") (dec_to_double false 100 0)
    = Saved (msg "OK Done") db'
    /\ bal_get (bal (account_at db' 0)) CUR_USD = S754_zero false.
Proof.
  destruct (withdraw_whole_balance store_alice (lit "alice") (lit "ACC1000") (lit "USD")
              CUR_USD 0) as (db' & H1 & H2 & _);
    try (vm_compute; congruence).
  exists db'. split; [|exact H2].
  rewrite <- H1. vm_compute. reflexivity.
Defined.

(** ** A blank before the command *)

Lemma scan_lit_blank (kw : string) (c0 : ascii) (rest : text) :
  isspace c0 = true -> tokenb 31 (lit kw) = true ->
  scan_lit (lit kw) (c0 :: rest) = None.
Proof.
  intros Hs Tk. apply tokenb_spec in Tk as (Hne & _ & Ht).
  destruct (lit kw) as [|k l]; [congruence|]. cbn [scan_lit].
  destruct (Ascii.eqb k c0) eqn:E; [|reflexivity].
  apply Ascii.eqb_eq in E. subst c0.
  cbn [forallb] in Ht. apply andb_true_iff in Ht as [Hk _].
  destruct (token_char_facts k Hk) as (Hk' & _). congruence.
Qed.

(** X15: the formats of REGISTER, LOGIN, CREATE_ACCOUNT, BALANCES and
    EXCHANGE start with the keyword itself, which [sscanf] matches at the
    first character of the line, while the command word is read with
    [%31s], which skips white space.  So when the line starts with a blank
    or a tab, each of these five commands is answered with its usage error,
    whatever its arguments are, and nothing changes. *)
Theorem leading_blank_is_usage_error :
  forall (rnd : nat -> N) (c : Conn) (buf : text) (c0 : ascii) (rest : text),
    trim_newline (cstr buf) = c0 :: rest ->
    isspace c0 = true ->
    (first_word buf = Some (lit "REGISTER") ->
     handle_line rnd c buf = (msg "ERR Usage: REGISTER <user> <pass>", c, true))
    /\ (first_word buf = Some (lit "LOGIN") ->
        handle_line rnd c buf = (msg "ERR Usage: LOGIN <user> <pass>", c, true))
    /\ (first_word buf = Some (lit "CREATE_ACCOUNT") ->
        handle_line rnd c buf
        = (msg "ERR Usage: CREATE_ACCOUNT IND|JOINT <ownersCSV>", c, true))
    /\ (first_word buf = Some (lit "BALANCES") ->
        handle_line rnd c buf = (msg "ERR Usage: BALANCES <accid>", c, true))
    /\ (first_word buf = Some (lit "EXCHANGE") ->
        handle_line rnd c buf
        = (msg "ERR Usage: EXCHANGE <accid> <FROMCUR> <TOCUR> <amount>", c, true)).
Proof.
  intros rnd c buf c0 rest Hline Hs.
  assert (K : forall kw : string, tokenb 31 (lit kw) = true ->
                first_word buf = Some (lit kw) ->
                scan_s 31 (c0 :: rest) = Some (lit kw, snd (take_word 31 (skip_ws (c0 :: rest))))
                /\ scan_lit (lit kw) (c0 :: rest) = None).
  { intros kw Tk Hw. split; [|now apply scan_lit_blank].
    unfold first_word in Hw. rewrite Hline in Hw. unfold scan_s in *.
    destruct (take_word 31 (skip_ws (c0 :: rest))) as [w r].
    destruct w; [discriminate|]. cbn in Hw. now injection Hw as ->. }
  repeat split; intros Hw.
  - destruct (K "REGISTER"%string eq_refl Hw) as [E1 E2].
    unfold handle_line, sscanf_kw2. rewrite Hline, E1, E2. reflexivity.
  - destruct (K "LOGIN"%string eq_refl Hw) as [E1 E2].
    unfold handle_line, sscanf_kw2. rewrite Hline, E1, E2. reflexivity.
  - destruct (K "CREATE_ACCOUNT"%string eq_refl Hw) as [E1 E2].
    unfold handle_line, sscanf_kw2. rewrite Hline, E1, E2. reflexivity.
  - destruct (K "BALANCES"%string eq_refl Hw) as [E1 E2].
    unfold handle_line, sscanf_balances. rewrite Hline, E1, E2. reflexivity.
  - destruct (K "EXCHANGE"%string eq_refl Hw) as [E1 E2].
    unfold handle_line, sscanf_exchange. rewrite Hline, E1, E2. reflexivity.
Qed.

Lemma leading_blank_is_usage_error_witness :
  handle_line no_rand (conn_alice store_alice) (L " BALANCES ACC1000")
  = (msg "ERR Usage: BALANCES <accid>", conn_alice store_alice, true)
  /\ fst (fst (handle_line no_rand (conn_alice store_alice) (L "BALANCES ACC1000")))
     = lit "OK ACC1000 balances: USD=100.00 EUR=0.00 GBP=0.00" ++ nl ++ lit "END" ++ nl.
Proof.
  split.
  - refine (proj1 (proj2 (proj2 (proj2
              (leading_blank_is_usage_error no_rand (conn_alice store_alice)
                 (L " BALANCES ACC1000") (ch " ") (lit "BALANCES ACC1000") _ _)))) _);
      vm_compute; reflexivity.
  - vm_compute. reflexivity.
Defined.

(** ** Lines on the socket *)

Lemma recv_loop_line (room : nat) (body rest : text) :
  forallb not_nl body = true -> length body < room ->
  recv_loop room (body ++ newline :: rest) = Some (body ++ [newline], rest).
Proof.
  revert room; induction body as [|c body IH]; intros room Hb Hl.
  - destruct room; [cbn in Hl; lia|]. cbn. now rewrite Ascii.eqb_refl.
  - destruct room; [cbn in Hl; lia|]. cbn [forallb] in Hb.
    apply andb_true_iff in Hb as [Hc Hb]. unfold not_nl in Hc.
    apply negb_true_iff in Hc. cbn [app recv_loop]. rewrite Hc, IH; auto.
    cbn in Hl. lia.
Qed.

Lemma recv_loop_closed (room : nat) (body : text) :
  forallb not_nl body = true -> length body < room -> recv_loop room body = None.
Proof.
  revert room; induction body as [|c body IH]; intros room Hb Hl.
  - destruct room; [cbn in Hl; lia | reflexivity].
  - destruct room; [cbn in Hl; lia|]. cbn [forallb] in Hb.
    apply andb_true_iff in Hb as [Hc Hb]. unfold not_nl in Hc.
    apply negb_true_iff in Hc. cbn [recv_loop]. rewrite Hc, IH; auto.
    cbn in Hl. lia.
Qed.

Lemma recv_loop_cut (room : nat) (t rest : text) :
  forallb not_nl t = true -> length t = room -> recv_loop room (t ++ rest) = Some (t, rest).
Proof.
  revert room; induction t as [|c t IH]; intros room Hb Hl.
  - cbn in Hl. now subst room.
  - destruct room; [discriminate|]. cbn [forallb] in Hb.
    apply andb_true_iff in Hb as [Hc Hb]. unfold not_nl in Hc.
    apply negb_true_iff in Hc. cbn [app recv_loop]. rewrite Hc, IH; auto.
Qed.

Lemma recv_line_cases_aux :
  (forall body rest : text,
      forallb not_nl body = true -> length body <= 510 ->
      recv_line BUFFER_SIZE (body ++ nl ++ rest) = Some (body ++ nl, rest))
  /\ (forall t rest : text,
        forallb not_nl t = true -> length t = 511 ->
        recv_line BUFFER_SIZE (t ++ rest) = Some (t, rest)).
Proof.
  unfold recv_line, BUFFER_SIZE. change (512 - 1) with 511. split.
  - intros body rest Hb Hl. apply recv_loop_line; [exact Hb | lia].
  - intros t rest Hb Hl. now apply recv_loop_cut.
Qed.

(** X16: [recv_line] with the 512-byte buffer of [handleClient].  A line
    of at most 510 characters followed by a newline is returned whole, with
    its newline, and the bytes after it are left for the next call.  When
    the peer closes after fewer than 511 characters without a newline, the
    call returns 0 and these characters are dropped: a last command without
    a newline is never executed.  When 511 characters come without a
    newline, they are returned as a line and the rest of the long line is
    read as the next one. *)
Theorem recv_line_cases :
  (forall body rest : text,
      forallb not_nl body = true -> length body <= 510 ->
      recv_line BUFFER_SIZE (body ++ nl ++ rest) = Some (body ++ nl, rest))
  /\ (forall body : text,
        forallb not_nl body = true -> length body <= 510 ->
        recv_line BUFFER_SIZE body = None)
  /\ (forall t rest : text,
        forallb not_nl t = true -> length t = 511 ->
        recv_line BUFFER_SIZE (t ++ rest) = Some (t, rest)).
Proof.
  unfold recv_line, BUFFER_SIZE. change (512 - 1) with 511. split; [|split].
  - intros body rest Hb Hl. apply recv_loop_line; [exact Hb | lia].
  - intros body Hb Hl. apply recv_loop_closed; [exact Hb | lia].
  - intros t rest Hb Hl. now apply recv_loop_cut.
Qed.

Lemma recv_line_cases_witness :
  recv_line BUFFER_SIZE (lit "QUIT") = None
  /\ recv_line BUFFER_SIZE (L "HELP" ++ lit "QUIT") = Some (L "HELP", lit "QUIT").
Proof.
  split.
  - apply (proj1 (proj2 recv_line_cases) (lit "QUIT")); [reflexivity | cbn; lia].
  - apply (proj1 recv_line_cases (lit "HELP") (lit "QUIT")); [reflexivity | cbn; lia].
Defined.

(** ** The client reads what the server sends *)

Lemma lineb_spec (l : text) :
  lineb l = true <->
  forallb not_nl l = true /\ forallb not_nul l = true /\ length l <= 510
  /\ l <> lit "END".
Proof.
  unfold lineb. rewrite !andb_true_iff, negb_true_iff, Nat.leb_le, streq_neq. tauto.
Qed.

Lemma read_until_end_nil (fuel : nat) : read_until_end fuel [] = None.
Proof. now destruct fuel. Qed.

Lemma read_until_end_END (fuel : nat) (rest : text) :
  read_until_end (S fuel) (lit "END" ++ nl ++ rest) = Some (lit "END" ++ nl, rest).
Proof. reflexivity. Qed.

Lemma read_until_end_line (fuel : nat) (l rest : text) :
  lineb l = true ->
  read_until_end (S fuel) ((l ++ nl) ++ rest)
  = match read_until_end fuel rest with
    | Some (p, r') => Some ((l ++ nl) ++ p, r')
    | None => None
    end.
Proof.
  intros H. apply lineb_spec in H as (H1 & H2 & H3 & H4).
  cbn [read_until_end]. rewrite <- app_assoc.
  rewrite (proj1 recv_line_cases_aux l rest H1 H3).
  rewrite cstr_no_nul by (rewrite forallb_app, H2; reflexivity).
  assert (E : streq (l ++ nl) (lit "END" ++ nl) = false).
  { apply streq_neq. intros E. apply app_inv_tail in E. contradiction. }
  now rewrite E.
Qed.

Lemma read_until_end_block (ls : list text) (fuel : nat) (rest : text) :
  forallb lineb ls = true -> length ls < fuel ->
  read_until_end fuel (block ls ++ rest) = Some (block ls, rest).
Proof.
  unfold block. revert fuel; induction ls as [|l ls IH]; intros fuel Hls Hf.
  - destruct fuel; [lia|]. cbn [map concat app]. rewrite <- !app_assoc.
    apply read_until_end_END.
  - destruct fuel; [cbn in Hf; lia|]. cbn [forallb] in Hls.
    apply andb_true_iff in Hls as [Hl Hls]. cbn [map concat].
    rewrite <- !app_assoc. rewrite (app_assoc l nl), read_until_end_line by exact Hl.
    rewrite !app_assoc, <- (app_assoc _ (lit "END") nl).
    rewrite IH; [|exact Hls|cbn in Hf; lia].
    now rewrite <- !app_assoc.
Qed.

Lemma block_length (ls : list text) : length ls < length (block ls).
Proof.
  unfold block. rewrite length_app. change (length (lit "END" ++ nl)) with 4.
  induction ls as [|l ls IH]; cbn [map concat length]; [lia|].
  rewrite !length_app. cbn [length nl]. lia.
Qed.

Lemma is_block_read (out rest : text) (fuel : nat) :
  is_block out -> length out <= fuel ->
  read_until_end fuel (out ++ rest) = Some (out, rest).
Proof.
  intros (ls & Hls & ->) Hf. apply read_until_end_block; [exact Hls|].
  pose proof (block_length ls). lia.
Qed.

Lemma msg_block (s : string) : lineb (lit s) = true -> is_block (msg s).
Proof.
  intros H. exists [lit s]. split; [cbn; now rewrite H|].
  unfold msg, block. cbn [map concat]. now rewrite app_nil_r, <- app_assoc.
Qed.

Lemma line_block (l : text) : lineb l = true -> is_block (l ++ nl ++ lit "END" ++ nl).
Proof.
  intros H. exists [l]. split; [cbn; now rewrite H|].
  unfold block. cbn [map concat]. now rewrite app_nil_r, <- app_assoc.
Qed.

Ltac msg_blocks := apply msg_block; reflexivity.

Lemma register_block (store u p : text) : is_block (reply_of (cmd_register store u p)).
Proof.
  unfold cmd_register. destruct (user_index _ _); [msg_blocks|].
  destruct (Nat.leb _ _); msg_blocks.
Qed.

Lemma login_block (store u p lu : text) : is_block (fst (cmd_login store u p lu)).
Proof.
  unfold cmd_login. destruct (user_index _ _); [|msg_blocks].
  destruct (negb _); msg_blocks.
Qed.

Lemma deposit_withdraw_block (store lu op accid curS : text) (amount : double) :
  is_block (reply_of (cmd_deposit_withdraw store lu op accid curS amount)).
Proof.
  unfold cmd_deposit_withdraw.
  repeat match goal with
         | |- context [match ?x with _ => _ end] => destruct x
         end; msg_blocks.
Qed.

Lemma check_owners_block (joint : bool) (os : list text) (lu e : text) :
  check_owners joint os lu = Some e -> is_block e.
Proof.
  unfold check_owners.
  repeat match goal with
         | |- context [if ?b then _ else _] => destruct b
         end; intros [= <-] || discriminate; msg_blocks.
Qed.

Lemma lineb_parts (l : text) :
  forallb not_nl l = true -> forallb not_nul l = true -> length l <= 510 ->
  l <> lit "END" -> lineb l = true.
Proof. intros. apply lineb_spec. auto. Qed.

Lemma token_line (t : text) :
  forallb token_char t = true -> forallb not_nl t = true /\ forallb not_nul t = true.
Proof. intros H. split; [now apply token_char_not_nl | now apply token_char_not_nul]. Qed.

Lemma create_account_block (rnd : nat -> N) (pos : nat) (store lu ty csv : text) :
  is_block (reply_of (fst (cmd_create_account rnd pos store lu ty csv))).
Proof.
  destruct (cmd_create_account rnd pos store lu ty csv) as [[e|resp db'] pos'] eqn:E.
  - cbn [fst reply_of]. unfold cmd_create_account in E.
    destruct lu as [|c0 l0]; [injection E as <- _; msg_blocks|].
    destruct (parse_type ty); [|injection E as <- _; msg_blocks].
    destruct (Nat.leb _ _); [injection E as <- _; msg_blocks|].
    destruct (gen_account_id _ _ _) as [[aid|] p1]; [|injection E as <- _; msg_blocks].
    destruct (parse_owners _ _ 0) as [os|]; [|injection E as <- _; msg_blocks].
    destruct (check_owners b os (c0 :: l0)) as [e'|] eqn:Ec; [|discriminate].
    injection E as <- _. eapply check_owners_block, Ec.
  - cbn [fst reply_of].
    destruct (create_account_reply _ _ _ _ _ _ _ _ _ E) as (a & _ & Hfmt & ->).
    destruct (acc_id_format_token _ Hfmt) as [T L7].
    destruct (token_line _ (tokenb_token_char _ _ T)) as [N1 N2].
    rewrite app_assoc. apply line_block. apply lineb_parts.
    + now rewrite forallb_app, N1.
    + now rewrite forallb_app, N2.
    + rewrite length_app, L7. cbn. lia.
    + intros E'. apply (f_equal (@length ascii)) in E'.
      rewrite length_app, L7 in E'. cbn in E'. lia.
Qed.

Lemma type_name_line (a : Account) :
  forallb not_nl (type_name a) = true /\ forallb not_nul (type_name a) = true
  /\ length (type_name a) <= 5.
Proof. unfold type_name. destruct (isJoint a); cbn; repeat split; lia. Qed.

Lemma list_line (a : Account) :
  wf_account a = true ->
  snprintf 512 (lit "  " ++ id a ++ lit "  " ++ type_name a ++ lit "  owners="
                ++ owners_csv (owners a) ++ nl)
  = (lit "  " ++ id a ++ lit "  " ++ type_name a ++ lit "  owners="
     ++ owners_csv (owners a)) ++ nl
  /\ lineb (lit "  " ++ id a ++ lit "  " ++ type_name a ++ lit "  owners="
            ++ owners_csv (owners a)) = true.
Proof.
  intros Hwf. destruct (wf_account_spec a Hwf) as (Tid & Hos & Hlen).
  destruct (token_line _ (tokenb_token_char _ _ Tid)) as [I1 I2].
  destruct (token_line _ (owners_csv_token _ Hos)) as [O1 O2].
  destruct (type_name_line a) as (T1 & T2 & T3).
  pose proof (owners_csv_length _ Hos) as Hcsv.
  apply tokenb_length in Tid.
  assert (Hl : length (lit "  " ++ id a ++ lit "  " ++ type_name a ++ lit "  owners="
                       ++ owners_csv (owners a)) <= 510).
  { rewrite !length_app. change (length (lit "  ")) with 2.
    change (length (lit "  owners=")) with 9. lia. }
  split.
  - unfold snprintf. rewrite firstn_all2; [now rewrite <- !app_assoc|].
    rewrite !length_app in *. cbn [length nl]. lia.
  - apply lineb_parts; [| |exact Hl|discriminate].
    + now rewrite !forallb_app, I1, T1, O1.
    + now rewrite !forallb_app, I2, T2, O2.
Qed.

Lemma list_lines (accs : list Account) :
  forallb wf_account accs = true ->
  concat (map (fun a => snprintf 512 (lit "  " ++ id a ++ lit "  " ++ type_name a
                                      ++ lit "  owners=" ++ owners_csv (owners a) ++ nl))
              accs)
  = concat (map (fun l => l ++ nl)
                (map (fun a => lit "  " ++ id a ++ lit "  " ++ type_name a
                               ++ lit "  owners=" ++ owners_csv (owners a)) accs))
  /\ forallb lineb
       (map (fun a => lit "  " ++ id a ++ lit "  " ++ type_name a
                      ++ lit "  owners=" ++ owners_csv (owners a)) accs) = true.
Proof.
  induction accs as [|a accs IH]; intros H; [split; reflexivity|].
  cbn [forallb] in H. apply andb_true_iff in H as [Ha H].
  destruct (IH H) as [E1 E2]. destruct (list_line a Ha) as [S1 S2].
  cbn [map concat forallb]. rewrite S1, S2, E1, E2. split; reflexivity.
Qed.

Lemma list_accounts_block (store lu : text) : is_block (cmd_list_accounts store lu).
Proof.
  unfold cmd_list_accounts. destruct lu as [|c0 l0]; [msg_blocks|].
  pose proof (db_load_wf store) as Hwf. apply wf_db_spec in Hwf as (_ & Ha & _).
  assert (Hf : forallb wf_account
                 (List.filter (fun a => is_owner a (c0 :: l0))
                              (accounts (db_load_locked store))) = true).
  { apply forallb_forall. intros a Hin. apply List.filter_In in Hin as [Hin _].
    rewrite forallb_forall in Ha. now apply Ha. }
  destruct (list_lines _ Hf) as [E1 E2].
  eexists (lit "OK Accounts:" :: _). split.
  - cbn [forallb]. rewrite E2. reflexivity.
  - unfold block. cbn [map concat]. rewrite E1. now rewrite <- !app_assoc.
Qed.

(** A reply cut by [snprintf] does not end with the line END, when the text
    before the closing lines holds no newline and does not end with a D. *)
Lemma snprintf_block (n : nat) (X X' : text) (d : ascii) :
  X = X' ++ [d] -> d <> ch "D" -> forallb not_nl X = true ->
  framed (snprintf n (X ++ nl ++ lit "END" ++ nl)) ->
  snprintf n (X ++ nl ++ lit "END" ++ nl) = X ++ nl ++ lit "END" ++ nl.
Proof.
  intros HX Hd Hnl. unfold snprintf. set (k := n - 1).
  destruct (Nat.le_gt_cases (length (X ++ nl ++ lit "END" ++ nl)) k) as [Hk|Hk].
  { intros _. now apply firstn_all2. }
  intros (body & E). exfalso.
  rewrite length_app in Hk. change (length (nl ++ lit "END" ++ nl)) with 5 in Hk.
  rewrite firstn_app in E.
  destruct (Nat.le_gt_cases k (length X)) as [Hx|Hx].
  - replace (k - length X) with 0 in E by lia. cbn [firstn] in E. rewrite app_nil_r in E.
    pose proof (forallb_firstn not_nl k X Hnl) as H. rewrite E, !forallb_app in H.
    cbn in H. now rewrite !andb_false_r in H.
  - rewrite firstn_all2 in E by lia.
    remember (k - length X) as j eqn:Ej.
    change (nl ++ lit "END" ++ nl) with [newline; ch "E"; ch "N"; ch "D"; newline] in E.
    destruct j as [|[|[|[|[|j]]]]]; try lia; cbn [firstn] in E.
    + change (body ++ lit "END" ++ nl) with (body ++ (lit "EN" ++ [ch "D"]) ++ [newline]) in E.
      rewrite !app_assoc in E. apply app_inj_tail in E as [E _].
      rewrite HX in E. apply app_inj_tail in E as [_ E]. contradiction.
    + change (X ++ [newline; ch "E"]) with (X ++ [newline] ++ [ch "E"]) in E.
      change (body ++ lit "END" ++ nl) with (body ++ lit "END" ++ [newline]) in E.
      rewrite !app_assoc in E. apply app_inj_tail in E as [_ E]. discriminate E.
    + change (X ++ [newline; ch "E"; ch "N"]) with (X ++ [newline; ch "E"] ++ [ch "N"]) in E.
      change (body ++ lit "END" ++ nl) with (body ++ lit "END" ++ [newline]) in E.
      rewrite !app_assoc in E. apply app_inj_tail in E as [_ E]. discriminate E.
    + change (X ++ [newline; ch "E"; ch "N"; ch "D"])
        with (X ++ [newline; ch "E"; ch "N"] ++ [ch "D"]) in E.
      change (body ++ lit "END" ++ nl) with (body ++ lit "END" ++ [newline]) in E.
      rewrite !app_assoc in E. apply app_inj_tail in E as [_ E]. discriminate E.
Qed.

Lemma snprintf_line_block (n : nat) (X X' : text) (d : ascii) :
  n <= 512 -> X = X' ++ [d] -> d <> ch "D" ->
  forallb not_nl X = true -> forallb not_nul X = true ->
  framed (snprintf n (X ++ nl ++ lit "END" ++ nl)) ->
  is_block (snprintf n (X ++ nl ++ lit "END" ++ nl)).
Proof.
  intros Hn HX Hd H1 H2 Hfr.
  pose proof (snprintf_block n X X' d HX Hd H1 Hfr) as E. rewrite E.
  apply line_block, lineb_parts; [exact H1 | exact H2 | |].
  - apply (f_equal (@length ascii)) in E. unfold snprintf in E.
    rewrite length_firstn, !length_app in E. cbn [length nl] in E. lia.
  - rewrite HX. change (lit "END") with (lit "EN" ++ [ch "D"]). intros E'.
    apply app_inj_tail in E' as [_ E']. contradiction.
Qed.

Lemma fixed_digits_2 (n : Z) :
  fixed_digits 2 n = [digit_char ((n / 10) mod 10); digit_char (n mod 10)].
Proof. reflexivity. Qed.

Lemma digit_not_D (v : Z) : digit_char (v mod 10) <> ch "D".
Proof.
  intros E. pose proof (digit_char_isdigit (v mod 10) (mod10_range v)) as H.
  rewrite E in H. discriminate H.
Qed.

Lemma fmt_f_2_last (x : double) :
  exists p d, fmt_f 2 x = p ++ [d] /\ d <> ch "D".
Proof.
  destruct x as [s|s| |s m e].
  - exists (fmt_sign s ++ lit "0.0"), (ch "0"). split; [|discriminate].
    destruct s; reflexivity.
  - exists (fmt_sign s ++ lit "in"), (ch "f"). split; [|discriminate].
    destruct s; reflexivity.
  - exists (lit "na"), (ch "n"). split; [reflexivity | discriminate].
  - cbn [fmt_f]. rewrite fmt_fixed_2, fixed_digits_2.
    eexists (fmt_sign s ++ dec_digits (scaled 2 m e / 100)
             ++ [dot; digit_char ((scaled 2 m e / 10) mod 10)]), _.
    split; [|apply digit_not_D]. now rewrite <- !app_assoc.
Qed.

Lemma balances_block (store lu accid : text) :
  framed (cmd_balances store lu accid) -> is_block (cmd_balances store lu accid).
Proof.
  unfold cmd_balances. destruct lu as [|c0 l0]; [intros _; msg_blocks|].
  destruct (account_index (db_load_locked store) accid) as [idx|] eqn:Ei;
    [|intros _; msg_blocks].
  destruct (negb _); [intros _; msg_blocks|].
  pose proof (db_load_wf store) as Hwf. apply wf_db_spec in Hwf as (_ & Ha & _).
  pose proof (account_at_forallb _ _ idx Ha (account_index_lt _ _ _ Ei)) as Hwa.
  set (a := account_at (db_load_locked store) idx) in *.
  destruct (wf_account_spec a Hwa) as (Tid & _).
  destruct (token_line _ (tokenb_token_char _ _ Tid)) as [I1 I2].
  destruct (fmt_f_2_token (bal_get (bal a) CUR_USD)) as [_ U].
  destruct (fmt_f_2_token (bal_get (bal a) CUR_EUR)) as [_ E].
  destruct (fmt_f_2_token (bal_get (bal a) CUR_GBP)) as [_ G].
  destruct (token_line _ U) as [U1 U2]. destruct (token_line _ E) as [E1 E2].
  destruct (token_line _ G) as [G1 G2].
  destruct (fmt_f_2_last (bal_get (bal a) CUR_GBP)) as (p & d & Hp & Hd).
  rewrite !app_assoc, <- (app_assoc _ (lit "END") nl), <- (app_assoc _ nl).
  eapply (snprintf_line_block 256 _ _ d); [lia | | exact Hd | |].
  - rewrite Hp, !app_assoc. reflexivity.
  - now rewrite !forallb_app, I1, U1, E1, G1.
  - now rewrite !forallb_app, I2, U2, E2, G2.
Qed.

Lemma fmt_f_6_rate (from to : Currency) :
  forallb not_nl (fmt_f 6 (rate from to)) = true
  /\ forallb not_nul (fmt_f 6 (rate from to)) = true.
Proof. destruct from, to; vm_compute; split; reflexivity. Qed.

Lemma cur_name_line (c : Currency) :
  forallb not_nl (CUR_NAMES c) = true /\ forallb not_nul (CUR_NAMES c) = true.
Proof. destruct c; split; reflexivity. Qed.

Lemma exchange_block (store lu accid fromS toS : text) (amount : double) :
  framed (reply_of (cmd_exchange store lu accid fromS toS amount)) ->
  is_block (reply_of (cmd_exchange store lu accid fromS toS amount)).
Proof.
  unfold cmd_exchange. destruct lu; [intros _; msg_blocks|].
  destruct (dle _ _); [intros _; msg_blocks|].
  destruct (parse_currency fromS) as [from|]; [|intros _; msg_blocks].
  destruct (parse_currency toS) as [to|]; [|intros _; msg_blocks].
  destruct (cur_eqb _ _); [intros _; msg_blocks|].
  destruct (account_index _ _); [|intros _; msg_blocks].
  destruct (negb _); [intros _; msg_blocks|].
  destruct (dlt _ _); [intros _; msg_blocks|].
  cbn [reply_of].
  destruct (fmt_f_2_token amount) as [_ A].
  destruct (fmt_f_2_token (dmul amount (rate from to))) as [_ C].
  destruct (token_line _ A) as [A1 A2]. destruct (token_line _ C) as [C1 C2].
  destruct (fmt_f_6_rate from to) as [R1 R2].
  destruct (cur_name_line from) as [F1 F2]. destruct (cur_name_line to) as [T1 T2].
  rewrite !app_assoc, <- (app_assoc _ (lit "END") nl), <- (app_assoc _ nl).
  eapply (snprintf_line_block 256 _ _ (ch ")")); [lia | | discriminate | |].
  - reflexivity.
  - now rewrite !forallb_app, A1, C1, R1, F1, T1.
  - now rewrite !forallb_app, A2, C2, R2, F2, T2.
Qed.

Lemma rates_block : is_block cmd_rates.
Proof.
  exists [lit "OK Rates (approx, fixed):"; lit "  1 EUR = 1.10 USD";
          lit "  1 EUR = 0.85 GBP"].
  split; vm_compute; reflexivity.
Qed.

Lemma help_block : is_block cmd_help.
Proof.
  exists [lit "OK Commands:"; lit "  REGISTER <user> <pass>"; lit "  LOGIN <user> <pass>";
          lit "  RATES"; lit "  CREATE_ACCOUNT IND|JOINT <ownersCSV>";
          lit "  LIST_ACCOUNTS"; lit "  BALANCES <accid>";
          lit "  DEPOSIT <accid> <CUR> <amount>"; lit "  WITHDRAW <accid> <CUR> <amount>";
          lit "  EXCHANGE <accid> <FROMCUR> <TOCUR> <amount>"; lit "  QUIT"].
  split; vm_compute; reflexivity.
Qed.

Lemma handle_line_block (rnd : nat -> N) (c : Conn) (buf : text) :
  framed (fst (fst (handle_line rnd c buf))) ->
  is_block (fst (fst (handle_line rnd c buf))).
Proof.
  unfold handle_line.
  assert (Hnil : framed [] -> is_block []).
  { intros (body & E). destruct body; discriminate E. }
  destruct (trim_newline (cstr buf)) as [|c0 line] eqn:El; [exact Hnil|].
  destruct (scan_s 31 (c0 :: line)) as [[cmd r]|] eqn:Es; [|exact Hnil].
  destruct (streq cmd (lit "HELP")); [intros _; apply help_block|].
  destruct (streq cmd (lit "RATES")); [intros _; apply rates_block|].
  destruct (streq cmd (lit "REGISTER")).
  { destruct (sscanf_kw2 "REGISTER" 31 31 _) as [[u p]|]; intros _;
      [apply register_block | msg_blocks]. }
  destruct (streq cmd (lit "LOGIN")).
  { destruct (sscanf_kw2 "LOGIN" 31 31 _) as [[u p]|]; [|intros _; msg_blocks].
    pose proof (login_block (store c) u p (loggedUser c)) as H.
    destruct (cmd_login _ _ _ _). intros _. exact H. }
  destruct (streq cmd (lit "CREATE_ACCOUNT")).
  { destruct (sscanf_kw2 "CREATE_ACCOUNT" 15 255 _) as [[ty csv]|];
      [|intros _; msg_blocks].
    pose proof (create_account_block rnd (rand_pos c) (store c) (loggedUser c) ty csv)
      as H.
    destruct (cmd_create_account _ _ _ _ _ _). intros _. exact H. }
  destruct (streq cmd (lit "LIST_ACCOUNTS")); [intros _; apply list_accounts_block|].
  destruct (streq cmd (lit "BALANCES")).
  { destruct (sscanf_balances _) as [accid|]; [|intros _; msg_blocks].
    cbn [fst]. apply balances_block. }
  destruct (streq cmd (lit "DEPOSIT") || streq cmd (lit "WITHDRAW")).
  { destruct (sscanf_depwd _) as [[[[op accid] curS] amount]|]; intros _;
      [apply deposit_withdraw_block | msg_blocks]. }
  destruct (streq cmd (lit "EXCHANGE")).
  { destruct (sscanf_exchange _) as [[[[accid fromS] toS] amount]|];
      [|intros _; msg_blocks].
    cbn [fst]. apply exchange_block. }
  destruct (streq cmd (lit "QUIT")); intros _; msg_blocks.
Qed.

(** X17: the client and the server agree on the framing.  Whatever line
    the server received, if its reply ends with the line END, then
    [read_until_end] of client.c, run on the bytes of that reply followed by
    anything else the server sends, prints exactly the reply and leaves the
    rest unread: no line of a reply is taken for the closing END before the
    end, and no line is longer than the client's buffer.  The welcome block
    is read in the same way, and the next [recv_line] takes the prompt. *)
Theorem client_reads_reply :
  forall (rnd : nat -> N) (c : Conn) (buf rest : text) (fuel : nat),
    framed (fst (fst (handle_line rnd c buf))) ->
    length (fst (fst (handle_line rnd c buf))) <= fuel ->
    read_until_end fuel (fst (fst (handle_line rnd c buf)) ++ rest)
    = Some (fst (fst (handle_line rnd c buf)), rest)
    /\ read_until_end (length WELCOME) (WELCOME ++ READY ++ rest)
       = Some (WELCOME, READY ++ rest)
    /\ recv_line BUFFER_SIZE (READY ++ rest) = Some (READY, rest).
Proof.
  intros rnd c buf rest fuel Hfr Hf. split; [|split].
  - apply is_block_read; [now apply handle_line_block | exact Hf].
  - apply is_block_read; [|lia].
    exists [lit "OK Currency Exchange Server"; lit "Type HELP for commands"].
    split; vm_compute; reflexivity.
  - reflexivity.
Qed.

Lemma client_reads_reply_witness :
  read_until_end 60
    (fst (fst (handle_line no_rand (conn_alice store_alice) (L "BALANCES ACC1000")))
     ++ READY)
  = Some (lit "OK ACC1000 balances: USD=100.00 EUR=0.00 GBP=0.00" ++ nl ++ lit "END" ++ nl,
          READY).
Proof.
  assert (E : fst (fst (handle_line no_rand (conn_alice store_alice) (L "BALANCES ACC1000")))
              = lit "OK ACC1000 balances: USD=100.00 EUR=0.00 GBP=0.00" ++ nl
                ++ lit "END" ++ nl) by (vm_compute; reflexivity).
  rewrite <- E.
  refine (proj1 (client_reads_reply no_rand (conn_alice store_alice)
                   (L "BALANCES ACC1000") READY 60 _ _)).
  - rewrite E. now exists (lit "OK ACC1000 balances: USD=100.00 EUR=0.00 GBP=0.00" ++ nl).
  - rewrite E. vm_compute. lia.
Defined.

(** ** Replies without END *)

Lemma read_until_end_one_line (fuel : nat) (l : text) :
  lineb l = true -> read_until_end fuel (l ++ nl) = None.
Proof.
  intros H. destruct fuel as [|fuel]; [reflexivity|].
  rewrite <- (app_nil_r (l ++ nl)), read_until_end_line by exact H.
  now rewrite read_until_end_nil.
Qed.

(** X18: two ways in which the client is left waiting.  A received line
    without a word (empty, or white space only) gets no reply: the server
    goes back to its prompt, and [read_until_end] of client.c, which the
    client runs after every line it sends, finds the prompt and no line END
    in what the server has sent.  The same happens after a reply that the
    256-byte buffer has cut, as for BALANCES on an account holding 1e308 in
    each currency: the prompt is read as the end of the cut line. *)
Theorem client_waits_without_END :
  (forall (rnd : nat -> N) (c : Conn) (buf : text) (fuel : nat),
      first_word buf = None ->
      handle_line rnd c buf = ([], c, true)
      /\ read_until_end fuel (fst (fst (handle_line rnd c buf)) ++ READY) = None)
  /\ (exists c,
        forall fuel,
          read_until_end fuel
            (fst (fst (handle_line no_rand c (L "BALANCES ACC1000"))) ++ READY) = None).
Proof.
  split.
  - intros rnd c buf fuel Hw.
    assert (E : handle_line rnd c buf = ([], c, true)).
    { unfold first_word in Hw. unfold handle_line.
      destruct (trim_newline (cstr buf)) as [|c0 line]; [reflexivity|].
      destruct (scan_s 31 (c0 :: line)) as [[cmd r]|]; [discriminate | reflexivity]. }
    split; [exact E|]. rewrite E. cbn [fst app].
    apply (read_until_end_one_line fuel (lit "READY>")). reflexivity.
  - exists {| loggedUser := lit (name31 "a"); store := store_e308; rand_pos := 0 |}.
    intros fuel.
    set (reply := fst (fst (handle_line no_rand _ (L "BALANCES ACC1000")))).
    unfold READY. rewrite app_assoc.
    apply read_until_end_one_line. vm_compute. reflexivity.
Qed.

Lemma client_waits_without_END_witness :
  handle_line no_rand (conn_alice store_alice) nl = ([], conn_alice store_alice, true)
  /\ read_until_end 10
       (fst (fst (handle_line no_rand (conn_alice store_alice) nl)) ++ READY) = None.
Proof.
  apply (proj1 client_waits_without_END no_rand (conn_alice store_alice) nl 10).
  reflexivity.
Defined.

(** ** LIST_ACCOUNTS *)

(** X19: for a logged-in caller, LIST_ACCOUNTS answers with the line
    "OK Accounts:", then one row per account of the store that lists the
    caller among its owners, in the order of the store, then END; an
    account the caller does not own is not shown, and no row is cut by the
    512-byte buffer it is printed in, whatever the store holds. *)
Theorem list_accounts_rows :
  forall (store lu : text),
    lu <> [] ->
    cmd_list_accounts store lu
    = block (lit "OK Accounts:"
             :: map list_row (List.filter (fun a => is_owner a lu)
                                          (accounts (db_load_locked store))))
    /\ (forall a, In (list_row a)
                     (map list_row (List.filter (fun a => is_owner a lu)
                                                (accounts (db_load_locked store)))) ->
                  exists a', In a' (accounts (db_load_locked store))
                             /\ is_owner a' lu = true /\ list_row a' = list_row a)
    /\ (forall a, In a (accounts (db_load_locked store)) -> is_owner a lu = true ->
                  exists pre post, cmd_list_accounts store lu
                                   = pre ++ (list_row a ++ nl) ++ post).
Proof.
  intros store lu Hlu.
  pose proof (db_load_wf store) as Hwf. apply wf_db_spec in Hwf as (_ & Ha & _).
  assert (Hf : forallb wf_account
                 (List.filter (fun a => is_owner a lu)
                              (accounts (db_load_locked store))) = true).
  { apply forallb_forall. intros a Hin. apply List.filter_In in Hin as [Hin _].
    rewrite forallb_forall in Ha. now apply Ha. }
  destruct (list_lines _ Hf) as [E1 _].
  assert (E : cmd_list_accounts store lu
              = block (lit "OK Accounts:"
                       :: map list_row (List.filter (fun a => is_owner a lu)
                                                    (accounts (db_load_locked store))))).
  { unfold cmd_list_accounts. destruct lu as [|c0 l0]; [congruence|].
    unfold block. cbn [map concat]. rewrite E1. unfold list_row.
    now rewrite <- !app_assoc. }
  split; [exact E|]. split.
  - intros a Hin. apply in_map_iff in Hin as (a' & Hr & Hin).
    apply List.filter_In in Hin as [Hin Ho]. exists a'. auto.
  - intros a Hin Ho. rewrite E. unfold block.
    assert (Hin' : In a (List.filter (fun a => is_owner a lu)
                                     (accounts (db_load_locked store))))
      by (apply List.filter_In; auto).
    apply in_split in Hin' as (l1 & l2 & ->).
    rewrite map_app. cbn [map concat]. rewrite map_app, concat_app. cbn [map concat].
    exists ((lit "OK Accounts:" ++ nl) ++ concat (map (fun l => l ++ nl) (map list_row l1))),
           (concat (map (fun l => l ++ nl) (map list_row l2)) ++ lit "END" ++ nl).
    now rewrite <- !app_assoc.
Qed.

Lemma list_accounts_rows_witness :
  cmd_list_accounts store_alice (lit "alice")
  = lit "OK Accounts:" ++ nl ++ lit "  ACC1000  IND  owners=alice" ++ nl
    ++ lit "END" ++ nl
  /\ cmd_list_accounts store_alice (lit "bob")
     = lit "OK Accounts:" ++ nl ++ lit "END" ++ nl.
Proof.
  split.
  - rewrite (proj1 (list_accounts_rows store_alice (lit "alice") ltac:(discriminate))).
    vm_compute. reflexivity.
  - rewrite (proj1 (list_accounts_rows store_alice (lit "bob") ltac:(discriminate))).
    vm_compute. reflexivity.
Defined.

(** ** What the server never does *)

Lemma key_set_account (db : DB) (idx : nat) (b : Balances) :
  map account_key (accounts (set_account db idx (with_bal (account_at db idx) b)))
  = map account_key (accounts db).
Proof.
  unfold set_account, account_at. cbn [accounts].
  revert idx; induction (accounts db) as [|x l IH]; intros idx; [reflexivity|].
  destruct idx as [|idx]; cbn; [reflexivity|]. f_equal. apply IH.
Qed.

(** X20: no command removes or renames anything.  In the snapshot a
    command saves, the users are the users it loaded, followed by the new
    user for REGISTER; the accounts are the accounts it loaded, with their
    ids, kinds and owner lists as they were and in the same order, followed
    by the new account for CREATE_ACCOUNT. *)
Theorem nothing_is_removed :
  forall (store : text),
    (forall u p resp db',
        cmd_register store u p = Saved resp db' ->
        (exists nu, users db' = users (db_load_locked store) ++ [nu])
        /\ accounts db' = accounts (db_load_locked store))
    /\ (forall rnd pos lu ty csv resp db' pos',
          cmd_create_account rnd pos store lu ty csv = (Saved resp db', pos') ->
          users db' = users (db_load_locked store)
          /\ exists a, accounts db' = accounts (db_load_locked store) ++ [a])
    /\ (forall lu op accid curS amount resp db',
          cmd_deposit_withdraw store lu op accid curS amount = Saved resp db' ->
          users db' = users (db_load_locked store)
          /\ map account_key (accounts db')
             = map account_key (accounts (db_load_locked store)))
    /\ (forall lu accid fromS toS amount resp db',
          cmd_exchange store lu accid fromS toS amount = Saved resp db' ->
          users db' = users (db_load_locked store)
          /\ map account_key (accounts db')
             = map account_key (accounts (db_load_locked store))).
Proof.
  intros store. split; [|split; [|split]].
  - intros u p resp db' H. apply register_saved in H as (_ & _ & _ & ->).
    cbn [users accounts]. split; [eexists; reflexivity | reflexivity].
  - intros rnd pos lu ty csv resp db' pos' H.
    apply create_account_saved in H as (a & -> & _). cbn [users accounts].
    split; [reflexivity | now exists a].
  - intros lu op accid curS amount resp db'. unfold cmd_deposit_withdraw.
    destruct lu as [|c0 l0]; [discriminate|].
    destruct (dle amount d_zero); [discriminate|].
    destruct (parse_currency curS) as [cur|]; [|discriminate].
    destruct (account_index (db_load_locked store) accid) as [idx|]; [|discriminate].
    destruct (negb _); [discriminate|].
    destruct (streq op (lit "DEPOSIT")).
    + intros [= _ <-]. split; [reflexivity | apply key_set_account].
    + destruct (streq op (lit "WITHDRAW")); [|discriminate].
      destruct (dlt _ _); [discriminate|].
      intros [= _ <-]. split; [reflexivity | apply key_set_account].
  - intros lu accid fromS toS amount resp db'. unfold cmd_exchange.
    destruct lu as [|c0 l0]; [discriminate|].
    destruct (dle amount d_zero); [discriminate|].
    destruct (parse_currency fromS) as [from|]; [|discriminate].
    destruct (parse_currency toS) as [to|]; [|discriminate].
    destruct (cur_eqb from to); [discriminate|].
    destruct (account_index (db_load_locked store) accid) as [idx|]; [|discriminate].
    destruct (negb _); [discriminate|].
    destruct (dlt _ _); [discriminate|].
    intros [= _ <-]. split; [reflexivity | apply key_set_account].
Qed.

Lemma nothing_is_removed_witness :
  exists resp db',
    cmd_deposit_withdraw store_alice (lit "alice") (lit "DEPOSIT") (lit "ACC1000")
                         (lit "EUR") (dec_to_double false 5 0) = Saved resp db'
    /\ map account_key (accounts db') = [(lit "ACC1000", false, [lit "alice"])].
Proof.
  destruct (cmd_deposit_withdraw store_alice (lit "alice") (lit "DEPOSIT") (lit "ACC1000")
              (lit "EUR") (dec_to_double false 5 0)) as [r|r d] eqn:E.
  - vm_compute in E. discriminate E.
  - exists r, d. split; [reflexivity|].
    rewrite (proj2 (proj1 (proj2 (proj2 (nothing_is_removed store_alice)))
                      _ _ _ _ _ _ _ E)).
    vm_compute. reflexivity.
Defined.

(** *** The dead branch of DEPOSIT and WITHDRAW *)

Lemma deposit_withdraw_not_internal (store lu op accid curS : text) (amount : double) :
  streq op (lit "DEPOSIT") || streq op (lit "WITHDRAW") = true ->
  reply_of (cmd_deposit_withdraw store lu op accid curS amount) <> msg "ERR Internal op".
Proof.
  intros Hop. unfold cmd_deposit_withdraw.
  destruct lu; [closed_neq|].
  destruct (dle _ _); [closed_neq|].
  destruct (parse_currency curS); [|closed_neq].
  destruct (account_index _ _); [|closed_neq].
  destruct (negb _); [closed_neq|].
  destruct (streq op (lit "DEPOSIT")); [closed_neq|].
  cbn [orb] in Hop. rewrite Hop.
  destruct (dlt _ _); closed_neq.
Qed.

Lemma starts_OK_not_internal (r : text) :
  is_error r = false -> r <> msg "ERR Internal op".
Proof. intros H E. rewrite E in H. discriminate H. Qed.

(** X21: the reply "ERR Internal op" of [cmd_deposit_withdraw] is never
    sent: [handleClient] calls the function only when the command word is
    DEPOSIT or WITHDRAW, and passes that word as the operation. *)
Theorem internal_op_unreachable :
  forall (rnd : nat -> N) (c : Conn) (buf : text),
    fst (fst (handle_line rnd c buf)) <> msg "ERR Internal op".
Proof.
  intros rnd c buf. unfold handle_line.
  destruct (trim_newline (cstr buf)) as [|c0 line] eqn:El; [discriminate|].
  destruct (scan_s 31 (c0 :: line)) as [[cmd r]|] eqn:Es; [|discriminate].
  destruct (streq cmd (lit "HELP")); [closed_neq|].
  destruct (streq cmd (lit "RATES")); [closed_neq|].
  destruct (streq cmd (lit "REGISTER")).
  { destruct (sscanf_kw2 "REGISTER" 31 31 _) as [[u p]|]; [|closed_neq].
    cbn [fst]. unfold cmd_register. destruct (user_index _ _); [closed_neq|].
    destruct (Nat.leb _ _); closed_neq. }
  destruct (streq cmd (lit "LOGIN")).
  { destruct (sscanf_kw2 "LOGIN" 31 31 _) as [[u p]|]; [|closed_neq].
    unfold cmd_login. destruct (user_index _ _); [|closed_neq].
    destruct (negb _); closed_neq. }
  destruct (streq cmd (lit "CREATE_ACCOUNT")).
  { destruct (sscanf_kw2 "CREATE_ACCOUNT" 15 255 _) as [[ty csv]|]; [|closed_neq].
    pose proof (create_account_error_no_save rnd (rand_pos c) (store c) (loggedUser c)
                  ty csv) as H.
    destruct (cmd_create_account _ _ _ _ _ _) as [[e|resp db'] pos'] eqn:E;
      cbn [fst reply_of] in *; [|now apply starts_OK_not_internal].
    unfold cmd_create_account in E.
    destruct (loggedUser c); [injection E as <- _; closed_neq|].
    destruct (parse_type ty); [|injection E as <- _; closed_neq].
    destruct (Nat.leb _ _); [injection E as <- _; closed_neq|].
    destruct (gen_account_id _ _ _) as [[aid|] p1]; [|injection E as <- _; closed_neq].
    destruct (parse_owners _ _ 0) as [os|]; [|injection E as <- _; closed_neq].
    destruct (check_owners b os _) as [e'|] eqn:Ec; [|discriminate].
    injection E as <- _. unfold check_owners in Ec.
    repeat match type of Ec with
           | context [if ?b then _ else _] => destruct b
           end; injection Ec as <- || discriminate; closed_neq. }
  destruct (streq cmd (lit "LIST_ACCOUNTS")).
  { cbn [fst]. unfold cmd_list_accounts. destruct (loggedUser c); [closed_neq|].
    discriminate. }
  destruct (streq cmd (lit "BALANCES")).
  { destruct (sscanf_balances _) as [accid|]; [|closed_neq].
    cbn [fst]. unfold cmd_balances. destruct (loggedUser c); [closed_neq|].
    destruct (account_index _ _); [|closed_neq].
    destruct (negb _); [closed_neq|]. discriminate. }
  destruct (streq cmd (lit "DEPOSIT") || streq cmd (lit "WITHDRAW")) eqn:Eop.
  { destruct (sscanf_depwd (c0 :: line)) as [[[[op accid] curS] amount]|] eqn:Ed;
      [|closed_neq].
    cbn [fst]. apply deposit_withdraw_not_internal.
    unfold sscanf_depwd in Ed. rewrite Es in Ed.
    destruct (scan_s 31 r) as [[a r1]|]; [|discriminate].
    destruct (scan_s 7 r1) as [[cur r2]|]; [|discriminate].
    destruct (scan_lf r2) as [[amt r3]|]; [|discriminate].
    injection Ed as <- _ _ _. exact Eop. }
  destruct (streq cmd (lit "EXCHANGE")).
  { destruct (sscanf_exchange _) as [[[[accid fromS] toS] amount]|]; [|closed_neq].
    pose proof (exchange_error_no_save (store c) (loggedUser c) accid fromS toS amount)
      as H.
    destruct (cmd_exchange _ _ _ _ _ _) as [e|resp db'] eqn:E;
      cbn [fst reply_of] in *; [|now apply starts_OK_not_internal].
    unfold cmd_exchange in E.
    destruct (loggedUser c); [injection E as <-; closed_neq|].
    destruct (dle _ _); [injection E as <-; closed_neq|].
    destruct (parse_currency fromS); [|injection E as <-; closed_neq].
    destruct (parse_currency toS); [|injection E as <-; closed_neq].
    destruct (cur_eqb _ _); [injection E as <-; closed_neq|].
    destruct (account_index _ _); [|injection E as <-; closed_neq].
    destruct (negb _); [injection E as <-; closed_neq|].
    destruct (dlt _ _); [injection E as <-; closed_neq | discriminate]. }
  destruct (streq cmd (lit "QUIT")); closed_neq.
Qed.

(** ** Lines the loader does not know *)

Lemma starts_with_app (p a b : text) :
  starts_with p a = true -> starts_with p (a ++ b) = true.
Proof.
  revert a; induction p as [|c p IH]; intros a H; [reflexivity|].
  destruct a as [|d a]; [discriminate|]. cbn [starts_with app] in *.
  apply andb_true_iff in H as [H1 H2]. rewrite H1. now apply IH.
Qed.

Lemma load_line_foreign (db : DB) (junk : text) :
  forallb not_nul junk = true ->
  starts_with (lit "USER ") junk = false -> starts_with (lit "ACC ") junk = false ->
  load_line db (junk ++ nl) = db.
Proof.
  intros Hn Hu Ha. unfold load_line.
  rewrite cstr_no_nul by (rewrite forallb_app, Hn; reflexivity).
  rewrite trim_newline_nl.
  destruct (trim_newline_prefix junk) as (t & Et).
  destruct (trim_newline junk) as [|c0 l0] eqn:E; [reflexivity|].
  destruct (starts_with (lit "USER ") (c0 :: l0)) eqn:E1.
  { apply (starts_with_app _ _ t) in E1. rewrite <- Et in E1. congruence. }
  destruct (starts_with (lit "ACC ") (c0 :: l0)) eqn:E2; [|reflexivity].
  apply (starts_with_app _ _ t) in E2. rewrite <- Et in E2. congruence.
Qed.

Lemma db_load_lines (bodies : list text) :
  Forall (fun b => forallb not_nl b = true /\ length b < LINE_MAX) bodies ->
  db_load_locked (concat (map (fun b => b ++ nl) bodies))
  = fold_left load_line (map (fun b => b ++ nl) bodies) db_init.
Proof.
  intros H. unfold db_load_locked.
  rewrite read_lines_concat; [reflexivity | exact H | apply length_concat_ge].
Qed.

(** X22: [db_load_locked] skips what it does not know.  In a store made of
    lines of fewer than 1023 characters, a line that starts neither with
    "USER " nor with "ACC " (a comment, an empty line, a damaged record) is
    ignored: the snapshot is the one loaded from the store without that
    line. *)
Theorem loader_skips_foreign_lines :
  forall (before after : list text) (junk : text),
    Forall (fun b => forallb not_nl b = true /\ length b < LINE_MAX)
           (before ++ junk :: after) ->
    forallb not_nul junk = true ->
    starts_with (lit "USER ") junk = false ->
    starts_with (lit "ACC ") junk = false ->
    db_load_locked (concat (map (fun b => b ++ nl) (before ++ junk :: after)))
    = db_load_locked (concat (map (fun b => b ++ nl) (before ++ after))).
Proof.
  intros before after junk Hall Hn Hu Ha.
  assert (Hall' : Forall (fun b => forallb not_nl b = true /\ length b < LINE_MAX)
                         (before ++ after)).
  { apply List.Forall_app in Hall as [H1 H2]. apply List.Forall_app. split; [exact H1|].
    now inversion H2. }
  rewrite !db_load_lines by assumption.
  rewrite !map_app, !fold_left_app. cbn [map fold_left].
  now rewrite load_line_foreign.
Qed.

Lemma loader_skips_foreign_lines_witness :
  db_load_locked (L "USER alice pw1" ++ L "# accounts" ++ L "USER bob pw2"
                  ++ L "ACC ACC1000 IND 1 alice 100.00 0.00 0.00")
  = db_load_locked store_alice.
Proof.
  exact (loader_skips_foreign_lines [lit "USER alice pw1"]
           [lit "USER bob pw2"; lit "ACC ACC1000 IND 1 alice 100.00 0.00 0.00"]
           (lit "# accounts")
           ltac:(repeat constructor; cbn; lia) eq_refl eq_refl eq_refl).
Defined.

(** ** The lookups *)

(** X23: [user_index], [account_index] and [is_owner] as searches.  An
    index returned is inside the array, the record there has the name (the
    id) asked for, and no record before it has; -1 (here [None]) is
    returned exactly when no record has it.  [is_owner] answers 1 exactly
    when the name is one of the owners listed, compared as whole strings,
    case included. *)
Theorem lookup_spec :
  forall (db : DB),
    (forall u i, user_index db u = Some i ->
                 i < length (users db) /\ username (user_at db i) = u
                 /\ forall j, j < i -> username (user_at db j) <> u)
    /\ (forall u, user_index db u = None <->
                  forall x, In x (users db) -> username x <> u)
    /\ (forall accid i, account_index db accid = Some i ->
                        i < length (accounts db) /\ id (account_at db i) = accid
                        /\ forall j, j < i -> id (account_at db j) <> accid)
    /\ (forall accid, account_index db accid = None <->
                      forall a, In a (accounts db) -> id a <> accid)
    /\ (forall a u, is_owner a u = true <-> In u (owners a)).
Proof.
  intros db. split; [|split; [|split; [|split]]].
  - intros u i H. destruct (find_index_Some _ _ zero_user _ H) as (H1 & H2 & H3).
    split; [exact H1|]. split; [now apply streq_eq|].
    intros j Hj. apply streq_neq. now apply H3.
  - intros u. unfold user_index. rewrite find_index_None. split; intros H x Hx.
    + apply streq_neq. now apply H.
    + apply streq_neq. now apply H.
  - intros accid i H. destruct (find_index_Some _ _ zero_account _ H) as (H1 & H2 & H3).
    split; [exact H1|]. split; [now apply streq_eq|].
    intros j Hj. apply streq_neq. now apply H3.
  - intros accid. unfold account_index. rewrite find_index_None. split; intros H x Hx.
    + apply streq_neq. now apply H.
    + apply streq_neq. now apply H.
  - intros a u. unfold is_owner. rewrite existsb_exists. split.
    + intros (o & Ho & E). apply streq_eq in E. now subst o.
    + intros H. exists u. split; [exact H | apply streq_refl].
Qed.

Lemma lookup_spec_witness :
  id (account_at (db_load_locked store_alice) 0) = lit "ACC1000"
  /\ user_index (db_load_locked store_alice) (lit "Alice") = None.
Proof.
  split.
  - apply (proj1 (proj2 (proj2 (lookup_spec (db_load_locked store_alice))))
             (lit "ACC1000") 0).
    vm_compute. reflexivity.
  - apply (proj1 (proj2 (lookup_spec (db_load_locked store_alice))) (lit "Alice")).
    intros x Hx. vm_compute in Hx.
    destruct Hx as [<-|[<-|[]]]; discriminate.
Defined.

(** ** The owner count of a record *)

Lemma load_owners_firstn (toks : list text) (idx count : Z) :
  load_owners toks idx count
  = map (strncpy_term USERNAME_LEN) (firstn (Z.to_nat (count - idx)) toks).
Proof.
  revert idx; induction toks as [|t toks IH]; intros idx.
  - cbn. now rewrite firstn_nil.
  - cbn [load_owners]. destruct (idx <? count)%Z eqn:E.
    + apply Z.ltb_lt in E. rewrite IH.
      replace (Z.to_nat (count - idx)) with (S (Z.to_nat (count - (idx + 1)))) by lia.
      reflexivity.
    + apply Z.ltb_ge in E. replace (Z.to_nat (count - idx)) with 0 by lia. reflexivity.
Qed.

(** X24: the owner loop of [db_load_locked] reads as many owners as the
    record's owner count says, at most MAX_OWNERS and at most the names the
    comma-separated field holds; each name is cut to 31 characters.  A
    count of zero or below gives an account without owners. *)
Theorem load_owners_count :
  forall (toks : list text) (n : Z),
    load_owners toks 0 (if (Z.of_nat MAX_OWNERS <? n)%Z then Z.of_nat MAX_OWNERS else n)
    = map (strncpy_term USERNAME_LEN)
          (firstn (Nat.min (Z.to_nat n) MAX_OWNERS) toks)
    /\ length (load_owners toks 0
                 (if (Z.of_nat MAX_OWNERS <? n)%Z then Z.of_nat MAX_OWNERS else n))
       = Nat.min (Nat.min (Z.to_nat n) MAX_OWNERS) (length toks)
    /\ ((n <= 0)%Z ->
        load_owners toks 0
          (if (Z.of_nat MAX_OWNERS <? n)%Z then Z.of_nat MAX_OWNERS else n) = []).
Proof.
  intros toks n.
  assert (E : load_owners toks 0
                (if (Z.of_nat MAX_OWNERS <? n)%Z then Z.of_nat MAX_OWNERS else n)
              = map (strncpy_term USERNAME_LEN)
                    (firstn (Nat.min (Z.to_nat n) MAX_OWNERS) toks)).
  { rewrite load_owners_firstn. f_equal. f_equal. unfold MAX_OWNERS.
    destruct (Z.of_nat 5 <? n)%Z eqn:E; [apply Z.ltb_lt in E | apply Z.ltb_ge in E]; lia. }
  split; [exact E|]. split.
  - rewrite E, length_map, length_firstn. reflexivity.
  - intros Hn. rewrite E. replace (Z.to_nat n) with 0 by lia. reflexivity.
Qed.

Lemma load_owners_count_witness :
  map owners (accounts (db_load_locked (L "ACC ACC1000 JOINT 2 alice,bob,carol 1.00 0.00 0.00")))
  = [[lit "alice"; lit "bob"]]
  /\ load_owners (strtok_all (lit "alice,bob,carol")) 0 0 = [].
Proof.
  split; [vm_compute; reflexivity|].
  apply (proj2 (proj2 (load_owners_count (strtok_all (lit "alice,bob,carol")) 0))). lia.
Defined.

(** ** A comma in a user name *)

(** X25: REGISTER accepts any word as a user name, commas included, but
    the owner list of CREATE_ACCOUNT is split at commas and the caller must
    be one of its names.  So a caller whose name holds a comma can never
    open an account: every CREATE_ACCOUNT of theirs is answered with an
    error and the store is left as it was. *)
Theorem comma_name_cannot_open_account :
  forall (rnd : nat -> N) (pos : nat) (store lu ty csv : text),
    In comma lu ->
    exists e,
      fst (cmd_create_account rnd pos store lu ty csv) = Reply e
      /\ is_error e = true
      /\ store_after store (fst (cmd_create_account rnd pos store lu ty csv)) = store.
Proof.
  intros rnd pos store lu ty csv Hc.
  pose proof (create_account_error_no_save rnd pos store lu ty csv) as He.
  destruct (cmd_create_account rnd pos store lu ty csv) as [[e|resp db'] pos'] eqn:E.
  - exists e. cbn [fst store_after] in *. auto.
  - exfalso. apply create_account_saved in E
      as (a & _ & _ & _ & _ & _ & Hos & _ & Hlu & _).
    pose proof (strtok_loop_no_comma [] (strncpy_term 256 csv) eq_refl) as Hn.
    fold (strtok_all (strncpy_term 256 csv)) in Hn.
    apply (Forall_firstn_list _ MAX_OWNERS) in Hn. rewrite <- Hos in Hn.
    rewrite List.Forall_forall in Hn. specialize (Hn lu Hlu).
    now apply no_comma_spec in Hn.
Qed.

Lemma comma_name_cannot_open_account_witness :
  fst (fst (handle_line no_rand {| loggedUser := []; store := []; rand_pos := 0 |}
                        (L "REGISTER a,b pw")))
  = msg "OK Registered"
  /\ exists e,
       fst (cmd_create_account no_rand 0 (L "USER a,b pw") (lit "a,b") (lit "IND")
                               (lit "a,b")) = Reply e
       /\ is_error e = true.
Proof.
  split; [vm_compute; reflexivity|].
  destruct (comma_name_cannot_open_account no_rand 0 (L "USER a,b pw") (lit "a,b")
              (lit "IND") (lit "a,b")) as (e & H1 & H2 & _).
  - vm_compute. auto.
  - exists e. auto.
Defined.
